(** * pgmpy.readwrite.XMLBIF: the XMLBIF reader and writer

    A shallow embedding of [XMLBIFReader] and [XMLBIFWriter] of
    [pgmpy/readwrite/XMLBIF.py], and the properties of the codec that the
    specification states about them.

    Conventions of the embedding:
    - a Python exception is a value of [exn]; a computation that may raise
      returns [result A];
    - an [etree] element is a rose tree [Element] (tag, attributes, text,
      tail, children); [find] and [findall] look at the direct children;
    - a Python [dict] is an association list in insertion order, a later
      assignment to a key that is present replaces the value in place;
    - the functions of the [etree] library that turn text into a tree, Python's
      [float] and the float type are parameters of the reader;
    - a string is the UTF-8 encoding of a Python [str];
    - [get_model] hands the extracted data to [BayesianModel], [TabularCPD]
      and [add_cpds], which live outside this module and are parameters of
      its embedding. *)

From Stdlib Require Import String Ascii List Arith Lia Bool.
From stdpp Require Import base list strings sorting.
Import ListNotations.

Set Warnings "-register-all".

Local Open Scope string_scope.
Local Open Scope list_scope.

(** ** Exceptions and the error monad *)

Inductive exn : Type :=
| ValueError (msg : string)
| AttributeError
| KeyError
| ZeroDivisionError
| LibraryError (name : string).

Inductive result (A : Type) : Type :=
| Ok (a : A)
| Raise (e : exn).
Arguments Ok {A} a.
Arguments Raise {A} e.

Definition bind {A B : Type} (m : result A) (k : A -> result B) : result B :=
  match m with
  | Ok a => k a
  | Raise e => Raise e
  end.

Notation "x <- m ;; k" := (bind m (fun x => k))
  (at level 100, m at next level, right associativity).

(** [for x in l] with a body that may raise and builds one value per item. *)
Fixpoint traverse {A B : Type} (f : A -> result B) (l : list A)
  : result (list B) :=
  match l with
  | [] => Ok []
  | x :: l' => y <- f x ;; ys <- traverse f l' ;; Ok (y :: ys)
  end.

(** [for x in l] with a body that may raise and updates a state. *)
Fixpoint foldM {A S : Type} (f : S -> A -> result S) (l : list A) (s : S)
  : result S :=
  match l with
  | [] => Ok s
  | x :: l' => s' <- f s x ;; foldM f l' s'
  end.

Definition succeeds {A : Type} (m : result A) : bool :=
  match m with Ok _ => true | Raise _ => false end.

(** ** Python dictionaries *)

Section Dict.
Context {K V : Type} `{EqDecision K}.

Definition dict : Type := list (K * V).

Fixpoint dict_get (d : dict) (k : K) : option V :=
  match d with
  | [] => None
  | (k', v) :: d' => if decide (k = k') then Some v else dict_get d' k
  end.

Fixpoint dict_set (d : dict) (k : K) (v : V) : dict :=
  match d with
  | [] => [(k, v)]
  | (k', v') :: d' =>
      if decide (k = k') then (k', v) :: d' else (k', v') :: dict_set d' k v
  end.

(** [d[k]], which raises [KeyError] on a missing key. *)
Definition dict_item (d : dict) (k : K) : result V :=
  match dict_get d k with
  | Some v => Ok v
  | None => Raise KeyError
  end.

Definition dict_keys (d : dict) : list K := map fst d.

(** The dictionary a comprehension builds from its items in order. *)
Definition dict_of_items (items : list (K * V)) : dict :=
  fold_left (fun d kv => dict_set d (fst kv) (snd kv)) items [].
End Dict.
Arguments dict K V : clear implicits.

(** ** Strings: truth value, [str.split()] and order

    A string is the UTF-8 encoding of a Python [str]: a character below
    U+0080 is one byte, the others are two to four bytes, of which the first
    is at least 194 and the others lie between 128 and 191.  The order of
    the encodings byte by byte is the order of the strings code point by code
    point, so that [String.leb] is the order of [str]. *)

Definition truthy (s : option string) : bool :=
  match s with
  | None => false
  | Some "" => false
  | Some _ => true
  end.

Definition bytes (l : list nat) : string :=
  string_of_list_ascii (map ascii_of_nat l).

(** The characters at which [str.split()] cuts and which [str.strip()]
    removes, those for which [str.isspace()] holds:
    U+0009 to U+000D, U+001C to U+0020,
    U+0085, U+00A0,
    U+1680, U+2000 to U+200A,
    U+2028, U+2029, U+202F, U+205F and U+3000. *)
Definition white_space : list string :=
  [bytes [9]; bytes [10]; bytes [11]; bytes [12]; bytes [13];
   bytes [28]; bytes [29]; bytes [30]; bytes [31]; bytes [32];
   bytes [194; 133]; bytes [194; 160];
   bytes [225; 154; 128];
   bytes [226; 128; 128]; bytes [226; 128; 129]; bytes [226; 128; 130];
   bytes [226; 128; 131]; bytes [226; 128; 132]; bytes [226; 128; 133];
   bytes [226; 128; 134]; bytes [226; 128; 135]; bytes [226; 128; 136];
   bytes [226; 128; 137]; bytes [226; 128; 138];
   bytes [226; 128; 168]; bytes [226; 128; 169]; bytes [226; 128; 175];
   bytes [226; 129; 159]; bytes [227; 128; 128]].

(** The number of bytes of the white-space character at the head of [s],
    and 0 when [s] does not start with one. *)
Definition space_width (s : string) : nat :=
  match List.find (fun w => String.prefix w s) white_space with
  | Some w => String.length w
  | None => 0
  end.

(** The token read so far, kept reversed in [cur], when it is not empty. *)
Definition flush (cur : list ascii) : list string :=
  match cur with
  | [] => []
  | _ => [string_of_list_ascii (rev cur)]
  end.

(** [split_aux skip cur s]: [skip] bytes of a white-space character are
    still to be passed over. *)
Fixpoint split_aux (skip : nat) (cur : list ascii) (s : string)
  : list string :=
  match s with
  | EmptyString => flush cur
  | String c s' =>
      match skip with
      | S more => split_aux more cur s'
      | 0 =>
          match space_width s with
          | S more => flush cur ++ split_aux more [] s'
          | 0 => split_aux 0 (c :: cur) s'
          end
      end
  end.

(** [s.split()] *)
Definition split (s : string) : list string := split_aux 0 [] s.

Fixpoint all_space_aux (skip : nat) (s : string) : bool :=
  match s with
  | EmptyString => true
  | String c s' =>
      match skip with
      | S more => all_space_aux more s'
      | 0 =>
          match space_width s with
          | S more => all_space_aux more s'
          | 0 => false
          end
      end
  end.

(** [not s.strip()]: [s] is made of white space. *)
Definition all_space (s : string) : bool := all_space_aux 0 s.

Definition str_le (a b : string) : Prop := String.leb a b = true.

#[global] Instance str_le_dec : RelDecision str_le.
Proof. intros a b. unfold str_le. apply _. Defined.

(** [sorted(l)] on strings. *)
Definition sorted (l : list string) : list string := merge_sort str_le l.

(** ** Element trees *)

Inductive Element : Type :=
  mkElement {
    tag : string;
    attrib : list (string * string);
    text : option string;
    tail : option string;
    children : list Element
  }.

Definition has_tag (t : string) (e : Element) : bool := String.eqb (tag e) t.

Definition find (e : Element) (t : string) : option Element :=
  List.find (has_tag t) (children e).

Definition findall (e : Element) (t : string) : list Element :=
  List.filter (has_tag t) (children e).

(** [x.text] where [x] is the result of a [find]: an [AttributeError] on
    [None]. *)
Definition text_of (x : option Element) : result (option string) :=
  match x with
  | Some e => Ok (text e)
  | None => Raise AttributeError
  end.

(** [x.find(t)] where [x] may be [None]. *)
Definition find_in (x : option Element) (t : string)
  : result (option Element) :=
  match x with
  | Some e => Ok (find e t)
  | None => Raise AttributeError
  end.

Definition new_element (t : string) (a : list (string * string))
  : Element :=
  mkElement t a None None [].

Definition set_text (e : Element) (s : option string) : Element :=
  mkElement (tag e) (attrib e) s (tail e) (children e).

Definition set_tail (e : Element) (s : option string) : Element :=
  mkElement (tag e) (attrib e) (text e) s (children e).

Definition set_children (e : Element) (cs : list Element) : Element :=
  mkElement (tag e) (attrib e) (text e) (tail e) cs.

Definition append_child (e c : Element) : Element :=
  set_children e (children e ++ [c]).

(** ** XMLBIFReader *)

(** The text of an element, [None] when the element is empty: names of
    variables and states, as the reader extracts them. *)
Definition name : Type := option string.

Section Reader.
(** Python's floats and [float(s)] on a string ([None]: [ValueError]). *)
Variable float : Type.
Variable py_float : string -> option float.
(** [etree.ElementTree(file=path).getroot()] and [etree.fromstring(s)]. *)
Variable parse_file : string -> result Element.
Variable fromstring : string -> result Element.

Definition config_error : exn :=
  ValueError "Must specify either path or string".

Definition get_variables (network : Element) : result (list name) :=
  traverse (fun variable => text_of (find variable "NAME"))
           (findall network "VARIABLE").

Definition get_edges (variable_parents : dict name (list name))
  : list (list name) :=
  flat_map (fun kv => map (fun value => [value; fst kv]) (snd kv))
           variable_parents.

Definition get_states (network : Element)
  : result (dict name (list name)) :=
  items <- traverse
             (fun variable =>
                key <- text_of (find variable "NAME") ;;
                Ok (key, map text (findall variable "OUTCOME")))
             (findall network "VARIABLE") ;;
  Ok (dict_of_items items).

Definition get_parents (network : Element)
  : result (dict name (list name)) :=
  items <- traverse
             (fun definition =>
                key <- text_of (find definition "FOR") ;;
                Ok (key, rev (map text (findall definition "GIVEN"))))
             (findall network "DEFINITION") ;;
  Ok (dict_of_items items).

(** [list(map(float, t.split()))] for the text [t] of a TABLE. *)
Definition float_list (t : option string) : result (list float) :=
  match t with
  | None => Raise AttributeError
  | Some s =>
      traverse (fun tok =>
                  match py_float tok with
                  | Some x => Ok x
                  | None => Raise (ValueError "could not convert string to float")
                  end)
               (split s)
  end.

(** The rows of a row-major array of [r] rows and [c] columns. *)
Fixpoint rows (r c : nat) (l : list float) : list (list float) :=
  match r with
  | 0 => []
  | S r' => take c l :: rows r' c (drop c l)
  end.

(** [np.array(l).reshape((r, c))] *)
Definition reshape (l : list float) (r c : nat)
  : result (list (list float)) :=
  if (r * c =? length l)%nat then Ok (rows r c l)
  else Raise (ValueError "cannot reshape array").

(** The dictionary comprehension of [get_cpd]: one item per TABLE of each
    DEFINITION.  The key is evaluated before the value, as Python does
    since 3.8; the order only decides which of two exceptions of one item is
    seen. *)
Definition cpd_tables (network : Element)
  : result (dict name (list float)) :=
  items <- traverse
             (fun dt : Element * Element =>
                key <- text_of (find (fst dt) "FOR") ;;
                values <- float_list (text (snd dt)) ;;
                Ok (key, values))
             (flat_map (fun definition =>
                          map (pair definition) (findall definition "TABLE"))
                       (findall network "DEFINITION")) ;;
  Ok (dict_of_items items).

(** The body of the loop of [get_cpd] for one variable. *)
Definition cpd_array (variable_states : dict name (list name))
           (variable : name) (values : list float)
  : result (list (list float)) :=
  states <- dict_item variable_states variable ;;
  if (length states =? 0)%nat then Raise ZeroDivisionError
  else reshape values (length states) (length values / length states).

Definition get_cpd (network : Element)
           (variable_states : dict name (list name))
  : result (dict name (list (list float))) :=
  variable_CPD <- cpd_tables network ;;
  traverse (fun kv : name * list float =>
              arr <- cpd_array variable_states (fst kv) (snd kv) ;;
              Ok (fst kv, arr))
           variable_CPD.

Definition get_property (network : Element)
  : result (dict name (list name)) :=
  items <- traverse
             (fun variable =>
                key <- text_of (find variable "NAME") ;;
                Ok (key, map text (findall variable "PROPERTY")))
             (findall network "VARIABLE") ;;
  Ok (dict_of_items items).

Record XMLBIFReader : Type :=
  mkReader {
    r_network : Element;
    network_name : name;
    variables : list name;
    variable_parents : dict name (list name);
    edge_list : list (list name);
    variable_states : dict name (list name);
    variable_CPD : dict name (list (list float));
    variable_property : dict name (list name)
  }.

(** Lines 46-52 of [__init__], once [self.network] is set. *)
Definition reader_of_network (network : option Element)
  : result XMLBIFReader :=
  nm <- find_in network "NAME" ;;
  network_name <- text_of nm ;;
  match network with
  | None => Raise AttributeError
  | Some net =>
      variables <- get_variables net ;;
      variable_parents <- get_parents net ;;
      let edge_list := get_edges variable_parents in
      variable_states <- get_states net ;;
      variable_CPD <- get_cpd net variable_states ;;
      variable_property <- get_property net ;;
      Ok (mkReader net network_name variables variable_parents edge_list
                   variable_states variable_CPD variable_property)
  end.

Definition XMLBIFReader_init (path string : option string)
  : result XMLBIFReader :=
  network <-
    (if truthy path then
       root <- parse_file (default "" path) ;; Ok (find root "NETWORK")
     else if truthy string then
       root <- fromstring (default "" string) ;; Ok (find root "NETWORK")
     else Raise config_error) ;;
  reader_of_network network.
End Reader.

(** ** XMLBIFWriter *)

(** The record [model_data]: a field is [None] when the key is missing. *)
Record model_data : Type :=
  mkModel {
    m_network_name : option string;
    m_variables : option (list string);
    m_states : option (dict string (list string));
    m_parents : option (dict string (list string));
    m_property : option (dict string (list string))
  }.

(** [self.model[key]] *)
Definition model_item {A : Type} (field : option A) : result A :=
  match field with
  | Some a => Ok a
  | None => Raise KeyError
  end.

(** [etree.SubElement(parent, t, attrib=a)], with its text set to [txt]:
    the parent with the new element as its last child. *)
Definition SubElement (parent : Element) (t : string)
           (a : list (string * string)) (txt : option string) : Element :=
  append_child parent (set_text (new_element t a) txt).

(** The elements that [variable_tag] and [definition_tag] hold are children
    of [self.network]: a reference to one is its position there, and
    [etree.SubElement(tags[var], t).text = txt] changes that child in place. *)
Definition SubElement_at (network : Element) (ref : nat) (t : string)
           (txt : string) : Element :=
  set_children network
    (alter (fun e => SubElement e t [] (Some txt)) ref (children network)).

(** One of the two loops of [add_variables] that fill the VARIABLE elements. *)
Definition add_texts (variable_tag : dict string nat) (t : string)
           (entries : dict string (list string)) (network : Element)
  : result Element :=
  foldM (fun net (kv : string * list string) =>
           foldM (fun net' txt =>
                    ref <- dict_item variable_tag (fst kv) ;;
                    Ok (SubElement_at net' ref t txt))
                 (snd kv) net)
        entries network.

(** The first loop of [add_variables]. *)
Definition new_variables (vars : list string) (network : Element)
  : Element * dict string nat :=
  fold_left (fun (st : Element * dict string nat) var =>
               (SubElement (fst st) "VARIABLE" [("TYPE", "nature")] None,
                dict_set (snd st) var (length (children (fst st)))))
            (sorted vars) (network, []).

Definition add_variables (model : model_data) (network : Element)
  : result (Element * dict string nat) :=
  variables <- model_item (m_variables model) ;;
  let st := new_variables variables network in
  let variable_tag := snd st in
  variables_states <- model_item (m_states model) ;;
  net1 <- add_texts variable_tag "OUTCOME" variables_states (fst st) ;;
  variables_property <- model_item (m_property model) ;;
  net2 <- add_texts variable_tag "PROPERTY" variables_property net1 ;;
  Ok (net2, variable_tag).

(** The body of the loop of [add_definition]. *)
Definition new_definition (parents : dict string (list string))
           (st : Element * dict string nat) (var : string)
  : result (Element * dict string nat) :=
  let ref := length (children (fst st)) in
  let net1 := SubElement (fst st) "DEFINITION" [] None in
  let net2 := SubElement_at net1 ref "FOR" var in
  given <- dict_item parents var ;;
  Ok (fold_left (fun net child => SubElement_at net ref "GIVEN" child)
                (sorted given) net2,
      dict_set (snd st) var ref).

Definition add_definition (model : model_data) (network : Element)
  : result (Element * dict string nat) :=
  parents <- model_item (m_parents model) ;;
  foldM (new_definition parents) (sorted (dict_keys parents)) (network, []).

Record XMLBIFWriter : Type :=
  mkWriter {
    w_model : model_data;
    w_encoding : string;
    w_prettyprint : bool;
    w_network : Element;
    w_variables : dict string nat;
    w_definition : dict string nat
  }.

(** [self.xml]: the BIF root, whose only child is [self.network]. *)
Definition w_xml (w : XMLBIFWriter) : Element :=
  mkElement "BIF" [("version", "0.3")] None None [w_network w].

Definition XMLBIFWriter_init (model : model_data) (encoding : string)
           (prettyprint : bool) : result XMLBIFWriter :=
  let network := new_element "NETWORK" [] in
  let network :=
    match m_network_name model with
    | Some n => SubElement network "NAME" [] (Some n)
    | None => network
    end in
  vs <- add_variables model network ;;
  ds <- add_definition model (fst vs) ;;
  Ok (mkWriter model encoding prettyprint (fst ds) (snd vs) (snd ds)).

(** [not s or not s.strip()] for a text or tail that may be [None]. *)
Definition blank (s : option string) : bool :=
  match s with
  | None => true
  | Some s' => all_space s'
  end.

Fixpoint spaces (level : nat) : string :=
  match level with
  | 0 => ""
  | S n => ("  " ++ spaces n)%string
  end.

Definition newline : string := String (ascii_of_nat 10) "".

(** The last statement of the first branch of [indent]: [elem] is by then
    the last child. *)
Fixpoint set_last_tail (i : string) (cs : list Element) : list Element :=
  match cs with
  | [] => []
  | [c] => [if blank (tail c) then set_tail c (Some i) else c]
  | c :: cs' => c :: set_last_tail i cs'
  end.

Fixpoint indent (elem : Element) (level : nat) : Element :=
  let i := (newline ++ spaces level)%string in
  match elem with
  | mkElement t a tx tl [] =>
      if negb (level =? 0)%nat && blank tl then mkElement t a tx (Some i) []
      else elem
  | mkElement t a tx tl cs =>
      mkElement t a
        (if blank tx then Some (i ++ "  ")%string else tx)
        (if blank tl then Some i else tl)
        (set_last_tail i (map (fun c => indent c (S level)) cs))
  end.

(** The tree that [__str__] hands to [etree.tostring]. *)
Definition str_tree (w : XMLBIFWriter) : Element :=
  if w_prettyprint w then indent (w_xml w) 0 else w_xml w.

(** ** Vocabulary of the statements *)

(** Elements with a text and elements with children. *)
Definition leaf (t s : string) : Element := mkElement t [] (Some s) None [].

Definition node (t : string) (cs : list Element) : Element :=
  mkElement t [] None None cs.

(** The exceptions that the extraction of a reader can raise. *)
Definition reader_errors : list exn :=
  [AttributeError; ValueError "could not convert string to float";
   KeyError; ZeroDivisionError; ValueError "cannot reshape array"].

(** The text of the FOR child of a DEFINITION that has one. *)
Definition for_text (definition : Element) : name :=
  match find definition "FOR" with
  | Some f => text f
  | None => None
  end.

(** The item of a DEFINITION in the comprehension of [get_parents]. *)
Definition parents_item (definition : Element) : name * list name :=
  (for_text definition, rev (map text (findall definition "GIVEN"))).

(** The edges of an edge list that lead into the variable [c]. *)
Definition edges_into (c : name) (edges : list (list name))
  : list (list name) :=
  List.filter (fun e => bool_decide (e !! 1 = Some c)) edges.

(** A table fits its variable when the variable has states, at least one,
    and their number divides the number of values. *)
Definition table_ok {float : Type} (states : dict name (list name))
           (kv : name * list float) : bool :=
  match dict_get states (fst kv) with
  | Some sts =>
      negb (length sts =? 0)%nat && (length (snd kv) mod length sts =? 0)%nat
  | None => false
  end.

(** The elements that the writer creates. *)
Definition variable_element : Element :=
  mkElement "VARIABLE" [("TYPE", "nature")] None None [].

Definition definition_element (var : string) (given : list string)
  : Element :=
  node "DEFINITION" (leaf "FOR" var :: map (leaf "GIVEN") (sorted given)).

(** No child of a child of [network] is a NAME element. *)
Definition unnamed_children (network : Element) : Prop :=
  Forall (fun e => Forall (fun c => tag c <> "NAME") (children e))
         (children network).

(** The tags of an element, of its children and of their children: what
    the reader's [find] and [findall] depend on. *)
Definition child_shape (c : Element) : string * list string :=
  (tag c, map tag (children c)).

Definition skeleton (e : Element) : string * list (string * list string) :=
  (tag e, map child_shape (children e)).

(** A network with a VARIABLE child that has no NAME child. *)
Definition anonymous_variable (sk : string * list (string * list string))
  : Prop :=
  exists p, In p (snd sk) /\ fst p = "VARIABLE" /\ ~ In "NAME" (snd p).

(** [e] with one more child of tag [t] per text. *)
Definition add_leaves (e : Element) (t : string) (txts : list string)
  : Element :=
  set_children e (children e ++ map (leaf t) txts).

(** The texts of [entries] that go to the element at position [i]. *)
Definition texts_for (variable_tag : dict string nat) (i : nat)
           (entries : dict string (list string)) : list string :=
  flat_map (fun kv : string * list string =>
              if decide (dict_get variable_tag (fst kv) = Some i)
              then snd kv else [])
           entries.

(** The tags of the children of the network before the first VARIABLE. *)
Definition name_tags (model : model_data) : list string :=
  match m_network_name model with
  | Some _ => ["NAME"]
  | None => []
  end.

(** Every key of [entries] with a text to add is one of the variables. *)
Definition entries_ok (vars : list string)
           (entries : dict string (list string)) : bool :=
  forallb (fun kv : string * list string =>
             match snd kv with
             | [] => true
             | _ => existsb (String.eqb (fst kv)) vars
             end)
          entries.

(** The records from which a writer can be built. *)
Definition writer_ok (model : model_data) : bool :=
  match m_variables model, m_states model, m_property model,
        m_parents model with
  | Some vars, Some states, Some property, Some _ =>
      entries_ok vars states && entries_ok vars property
  | _, _, _, _ => false
  end.

Definition with_network_name (n : option string) (model : model_data)
  : model_data :=
  mkModel n (m_variables model) (m_states model) (m_parents model)
          (m_property model).

(** ** Sample data

    Decimal numerals stand for Python's floats in the examples, and the
    library's parsers are tables with one document. *)

(** [mantissa / 10 ^ exponent] *)
Record decimal : Type :=
  mkDecimal { mantissa : nat; exponent : nat }.

Definition digit_of (c : ascii) : option nat :=
  let n := nat_of_ascii c in
  if ((48 <=? n) && (n <=? 57))%nat then Some (n - 48) else None.

(** [frac] counts the digits read after the point, [seen] tells whether a
    digit was read. *)
Fixpoint parse_digits (acc : nat) (frac : option nat) (seen : bool)
         (s : string) : option decimal :=
  match s with
  | EmptyString =>
      if seen then Some (mkDecimal acc (default 0 frac)) else None
  | String c s' =>
      match digit_of c with
      | Some d => parse_digits (10 * acc + d) (S <$> frac) true s'
      | None =>
          if Ascii.eqb c "."%char then
            match frac with
            | None => parse_digits acc (Some 0) seen s'
            | Some _ => None
            end
          else None
      end
  end.

Definition parse_decimal (s : string) : option decimal :=
  parse_digits 0 None false s.

(** A parser that knows one text. *)
Definition one_document (txt : string) (root : Element) (s : string)
  : result Element :=
  if String.eqb s txt then Ok root else Raise (LibraryError "XMLSyntaxError").

Definition sample_network : Element :=
  node "NETWORK"
    [leaf "NAME" "Dog-Problem";
     node "VARIABLE"
       [leaf "NAME" "family-out"; leaf "OUTCOME" "true";
        leaf "OUTCOME" "false"; leaf "PROPERTY" "position = (112, 69)"];
     node "VARIABLE"
       [leaf "NAME" "bowel-problem"; leaf "OUTCOME" "true";
        leaf "OUTCOME" "false"];
     node "VARIABLE"
       [leaf "NAME" "dog-out"; leaf "OUTCOME" "true"; leaf "OUTCOME" "false"];
     node "DEFINITION" [leaf "FOR" "family-out"; leaf "TABLE" "0.15 0.85"];
     node "DEFINITION" [leaf "FOR" "bowel-problem"; leaf "TABLE" "0.01 0.99"];
     node "DEFINITION"
       [leaf "FOR" "dog-out"; leaf "GIVEN" "bowel-problem";
        leaf "GIVEN" "family-out";
        leaf "TABLE" "0.99 0.01 0.97 0.03 0.9 0.1 0.3 0.7"]].

Definition sample_root : Element :=
  mkElement "BIF" [("version", "0.3")] None None [sample_network].

Definition sample_text : string :=
  "<BIF version='0.3'><NETWORK><NAME>Dog-Problem</NAME>" ++
  "<VARIABLE><NAME>family-out</NAME><OUTCOME>true</OUTCOME>" ++
  "<OUTCOME>false</OUTCOME><PROPERTY>position = (112, 69)</PROPERTY>" ++
  "</VARIABLE><VARIABLE><NAME>bowel-problem</NAME><OUTCOME>true</OUTCOME>" ++
  "<OUTCOME>false</OUTCOME></VARIABLE><VARIABLE><NAME>dog-out</NAME>" ++
  "<OUTCOME>true</OUTCOME><OUTCOME>false</OUTCOME></VARIABLE>" ++
  "<DEFINITION><FOR>family-out</FOR><TABLE>0.15 0.85</TABLE></DEFINITION>" ++
  "<DEFINITION><FOR>bowel-problem</FOR><TABLE>0.01 0.99</TABLE>" ++
  "</DEFINITION><DEFINITION><FOR>dog-out</FOR><GIVEN>bowel-problem</GIVEN>" ++
  "<GIVEN>family-out</GIVEN>" ++
  "<TABLE>0.99 0.01 0.97 0.03 0.9 0.1 0.3 0.7</TABLE></DEFINITION>" ++
  "</NETWORK></BIF>".

(** A file system with the one file [dog.xml]. *)
Definition sample_parse_file (path : string) : result Element :=
  if String.eqb path "dog.xml" then Ok sample_root
  else Raise (LibraryError "OSError").

Definition sample_fromstring : string -> result Element :=
  one_document sample_text sample_root.

Definition sample_model : model_data :=
  mkModel (Some "Dog-Problem")
          (Some ["b"; "a"; "c"])
          (Some [("b", ["true"; "false"]); ("a", ["yes"; "no"]);
                 ("c", ["on"; "off"])])
          (Some [("c", ["b"; "a"]); ("b", []); ("a", [])])
          (Some [("a", ["position = (1, 2)"])]).

(** What the reader extracts from the sample document. *)
Definition sample_states : dict name (list name) :=
  [(Some "family-out", [Some "true"; Some "false"]);
   (Some "bowel-problem", [Some "true"; Some "false"]);
   (Some "dog-out", [Some "true"; Some "false"])].

Definition dog_out_values : list decimal :=
  [mkDecimal 99 2; mkDecimal 1 2; mkDecimal 97 2; mkDecimal 3 2;
   mkDecimal 9 1; mkDecimal 1 1; mkDecimal 3 1; mkDecimal 7 1].

(** A document with a variable that no DEFINITION mentions. *)
Definition orphan_network : Element :=
  node "NETWORK"
    [leaf "NAME" "Orphan";
     node "VARIABLE" [leaf "NAME" "a"; leaf "OUTCOME" "true"];
     node "VARIABLE" [leaf "NAME" "b"; leaf "OUTCOME" "true"];
     node "DEFINITION" [leaf "FOR" "b"; leaf "TABLE" "1.0"]].

(** A document whose table for [b] has three values for two states, and one
    whose table is not made of numbers. *)
Definition ragged_network : Element :=
  node "NETWORK"
    [leaf "NAME" "Ragged";
     node "VARIABLE" [leaf "NAME" "b"; leaf "OUTCOME" "t"; leaf "OUTCOME" "f"];
     node "DEFINITION" [leaf "FOR" "b"; leaf "TABLE" "0.5 0.25 0.25"]].

Definition garbled_network : Element :=
  node "NETWORK"
    [leaf "NAME" "Garbled";
     node "VARIABLE" [leaf "NAME" "b"; leaf "OUTCOME" "t"; leaf "OUTCOME" "f"];
     node "DEFINITION" [leaf "FOR" "b"; leaf "TABLE" "0.5 half"]].

(** A document whose table is cut by a no-break space (U+00A0) and whose
    second table is cut by an em space (U+2003). *)
Definition spaced_network : Element :=
  node "NETWORK"
    [leaf "NAME" "Spaced";
     node "VARIABLE" [leaf "NAME" "a"; leaf "OUTCOME" "t"; leaf "OUTCOME" "f"];
     node "VARIABLE" [leaf "NAME" "b"; leaf "OUTCOME" "t"; leaf "OUTCOME" "f"];
     node "DEFINITION"
          [leaf "FOR" "a"; leaf "TABLE" ("0.5" ++ bytes [194; 160] ++ "0.5")];
     node "DEFINITION"
          [leaf "FOR" "b";
           leaf "TABLE" ("0.25" ++ bytes [226; 128; 131] ++ "0.75")]].

(** A document without a network name. *)
Definition nameless_root : Element :=
  mkElement "BIF" [("version", "0.3")] None None
    [node "NETWORK"
       [node "VARIABLE" [leaf "NAME" "a"; leaf "OUTCOME" "true"];
        node "DEFINITION" [leaf "FOR" "a"; leaf "TABLE" "1.0"]]].

Definition nameless_text : string :=
  "<BIF version='0.3'><NETWORK><VARIABLE><NAME>a</NAME>" ++
  "<OUTCOME>true</OUTCOME></VARIABLE><DEFINITION><FOR>a</FOR>" ++
  "<TABLE>1.0</TABLE></DEFINITION></NETWORK></BIF>".

(** A record with one variable, the text that [etree.tostring] gives for
    the tree of its writer, and the tree that [etree.fromstring] gives back
    for this text. *)
Definition tiny_model : model_data :=
  mkModel (Some "Dog-Problem") (Some ["a"])
          (Some [("a", ["true"; "false"])]) (Some [("a", [])]) (Some []).

Definition dquote : string := String (ascii_of_nat 34) "".

Definition tiny_text : string :=
  String.concat ""
    ["<BIF version="; dquote; "0.3"; dquote; ">"; newline;
     "  <NETWORK>"; newline;
     "    <NAME>Dog-Problem</NAME>"; newline;
     "    <VARIABLE TYPE="; dquote; "nature"; dquote; ">"; newline;
     "      <OUTCOME>true</OUTCOME>"; newline;
     "      <OUTCOME>false</OUTCOME>"; newline;
     "    </VARIABLE>"; newline;
     "    <DEFINITION>"; newline;
     "      <FOR>a</FOR>"; newline;
     "    </DEFINITION>"; newline;
     "  </NETWORK>"; newline;
     "</BIF>"; newline].

Definition nl (level : nat) : option string :=
  Some (newline ++ spaces level)%string.

Definition tiny_parsed : Element :=
  mkElement "BIF" [("version", "0.3")] (nl 1) None
    [mkElement "NETWORK" [] (nl 2) (nl 0)
       [mkElement "NAME" [] (Some "Dog-Problem") (nl 2) [];
        mkElement "VARIABLE" [("TYPE", "nature")] (nl 3) (nl 2)
          [mkElement "OUTCOME" [] (Some "true") (nl 3) [];
           mkElement "OUTCOME" [] (Some "false") (nl 2) []];
        mkElement "DEFINITION" [] (nl 3) (nl 1)
          [mkElement "FOR" [] (Some "a") (nl 2) []]]].

(** ** get_model

    [BayesianModel], [TabularCPD] and [add_cpds] belong to the rest of
    pgmpy: they are parameters, each with its own failures. *)

Section GetModel.
Variable float : Type.
Variables Model CPD : Type.
Variable BayesianModel : list (list name) -> result Model.
Variable TabularCPD :
  name -> nat -> list (list float) -> list name -> list nat -> result CPD.
Variable add_cpds : Model -> list CPD -> result Model.

(** The arguments of [TabularCPD] for one item of [variable_CPD], in the
    order in which Python evaluates them, and the call. *)
Definition tabular_cpd (self : XMLBIFReader float)
           (item : name * list (list float)) : result CPD :=
  states <- dict_item (variable_states float self) (fst item) ;;
  evidence <- dict_item (variable_parents float self) (fst item) ;;
  evidence_card <- traverse
                     (fun evidence_var =>
                        s <- dict_item (variable_states float self)
                                       evidence_var ;;
                        Ok (length s))
                     evidence ;;
  TabularCPD (fst item) (length states) (snd item) evidence evidence_card.

Definition get_model (self : XMLBIFReader float) : result Model :=
  model <- BayesianModel (get_edges (variable_parents float self)) ;;
  tabular_cpds <- traverse (tabular_cpd self) (variable_CPD float self) ;;
  add_cpds model tabular_cpds.
End GetModel.

(** ** More vocabulary *)

(** Whether an element has a child of tag [t], and the text of the first
    one. *)
Definition has_child (t : string) (e : Element) : bool :=
  match find e t with
  | Some _ => true
  | None => false
  end.

Definition child_text (t : string) (e : Element) : name :=
  match find e t with
  | Some c => text c
  | None => None
  end.

(** The items of the comprehensions of [get_states] and [get_property]. *)
Definition texts_item (t : string) (variable : Element) : name * list name :=
  (child_text "NAME" variable, map text (findall variable t)).

(** An element with the texts and tails of white space dropped. *)
Fixpoint normalize (e : Element) : Element :=
  match e with
  | mkElement t a tx tl cs =>
      mkElement t a (if blank tx then None else tx)
                (if blank tl then None else tl) (map normalize cs)
  end.

(** The keys of a dictionary built from a sequence of keys: each key at the
    place of its first occurrence. *)
Definition distinct_keys {K : Type} `{EqDecision K} (ks : list K) : list K :=
  fold_left (fun acc k => if decide (k ∈ acc) then acc else acc ++ [k]) ks [].

(** The pairs of a DEFINITION and one of its TABLE children over which the
    comprehension of [get_cpd] runs. *)
Definition definition_tables (network : Element) : list (Element * Element) :=
  flat_map (fun definition =>
              map (pair definition) (findall definition "TABLE"))
           (findall network "DEFINITION").

(** The DEFINITION has a FOR child and the text of the TABLE is made of
    floats. *)
Definition table_parses {float : Type} (py_float : string -> option float)
           (dt : Element * Element) : bool :=
  has_child "FOR" (fst dt) &&
  match text (snd dt) with
  | Some s => forallb (fun tok => bool_decide (py_float tok <> None)) (split s)
  | None => false
  end.

(** The tokens of the text of a TABLE. *)
Definition tokens (t : option string) : list string :=
  match t with
  | Some s => split s
  | None => []
  end.

(** The number of values of the table of each variable in the dictionary
    of [get_cpd]: the number of tokens of the last TABLE for the variable, at
    the place of the first. *)
Definition table_sizes (network : Element) : dict name nat :=
  dict_of_items
    (map (fun dt : Element * Element =>
            (child_text "FOR" (fst dt), length (tokens (text (snd dt)))))
         (definition_tables network)).

(** A table of [n] values fits its variable when the variable has states,
    at least one, and their number divides [n]. *)
Definition size_ok (states : dict name (list name)) (kn : name * nat)
  : bool :=
  match dict_get states (fst kn) with
  | Some sts =>
      negb (length sts =? 0)%nat && (snd kn mod length sts =? 0)%nat
  | None => false
  end.

(** A document with a table for a name that is no variable, and one with a
    table for a variable without states. *)
Definition stray_network : Element :=
  node "NETWORK"
    [leaf "NAME" "Stray";
     node "VARIABLE" [leaf "NAME" "a"; leaf "OUTCOME" "true"];
     node "DEFINITION" [leaf "FOR" "b"; leaf "TABLE" "1.0"]].

Definition stateless_network : Element :=
  node "NETWORK"
    [leaf "NAME" "Stateless";
     node "VARIABLE" [leaf "NAME" "a"];
     node "DEFINITION" [leaf "FOR" "a"; leaf "TABLE" "1.0"]].

(** The parents of a variable and the number of its states in a reader,
    for the variables that have them. *)
Definition evidence_of {float : Type} (r : XMLBIFReader float) (v : name)
  : list name :=
  default [] (dict_get (variable_parents float r) v).

Definition card_of {float : Type} (r : XMLBIFReader float) (v : name) : nat :=
  length (default [] (dict_get (variable_states float r) v)).

(** Stand-ins for pgmpy's model and factor: the model is its edge list and
    its factors, a factor is the tuple of the arguments of [TabularCPD]. *)
Definition sample_cpd : Type :=
  name * nat * list (list decimal) * list name * list nat.

Definition sample_BayesianModel (edges : list (list name))
  : result (list (list name) * list sample_cpd) :=
  Ok (edges, []).

Definition sample_TabularCPD (v : name) (card : nat)
           (values : list (list decimal)) (evidence : list name)
           (evidence_card : list nat) : result sample_cpd :=
  Ok (v, card, values, evidence, evidence_card).

Definition sample_add_cpds (model : list (list name) * list sample_cpd)
           (cpds : list sample_cpd)
  : result (list (list name) * list sample_cpd) :=
  Ok (fst model, snd model ++ cpds).

(** A document in which a parent is no variable. *)
Definition ghost_network : Element :=
  node "NETWORK"
    [leaf "NAME" "Ghost";
     node "VARIABLE" [leaf "NAME" "a"; leaf "OUTCOME" "true"];
     node "DEFINITION" [leaf "FOR" "a"; leaf "GIVEN" "ghost"; leaf "TABLE" "1.0"]].

(** The tags and texts of the children of an element: what the reader
    takes from a VARIABLE or a DEFINITION. *)
Definition tag_texts (e : Element) : list (string * option string) :=
  map (fun g => (tag g, text g)) (children e).

Definition same_data (c c' : Element) : Prop :=
  tag c = tag c' /\ tag_texts c = tag_texts c'.

(** The children of the children of [network] have no children: they hold
    text only, as NAME, OUTCOME, PROPERTY, FOR, GIVEN and TABLE do. *)
Definition text_leaves (network : Element) : Prop :=
  Forall (fun c => Forall (fun g => children g = []) (children c))
         (children network).

(** The canonical order of a NETWORK element for a writer.
    - The writer holds a VARIABLE child of [network] for each variable, the
      element of a smaller name comes earlier, and the element of [v] has
      the states of [v] as OUTCOME children and then the properties of [v]
      as PROPERTY children, and no other child.
    - The DEFINITION children carry, in document order, the keys of the
      parents in sorted order, and the GIVEN children of each carry its
      parents in sorted order. *)
Definition ordered_network (model : model_data) (w : XMLBIFWriter)
           (network : Element) : Prop :=
  exists vars parents,
    m_variables model = Some vars /\
    m_parents model = Some parents /\
    (forall v, dict_get (w_variables w) v <> None <-> In v vars) /\
    (forall v i, dict_get (w_variables w) v = Some i ->
                 exists e, children network !! i = Some e /\
                           tag e = "VARIABLE") /\
    (forall v1 v2 i1 i2,
        dict_get (w_variables w) v1 = Some i1 ->
        dict_get (w_variables w) v2 = Some i2 ->
        String.ltb v1 v2 = true -> i1 < i2) /\
    (forall states property v i,
        m_states model = Some states ->
        m_property model = Some property ->
        NoDup (dict_keys states) ->
        NoDup (dict_keys property) ->
        dict_get (w_variables w) v = Some i ->
        exists e,
          children network !! i = Some e /\
          tag_texts e =
            map (fun s => ("OUTCOME", Some s))
                (default [] (dict_get states v)) ++
            map (fun s => ("PROPERTY", Some s))
                (default [] (dict_get property v))) /\
    exists fors,
      map for_text (findall network "DEFINITION") = map Some fors /\
      StronglySorted str_le fors /\
      Permutation fors (dict_keys parents) /\
      Forall (fun d =>
                exists v given gs,
                  for_text d = Some v /\
                  dict_get parents v = Some given /\
                  map text (findall d "GIVEN") = map Some gs /\
                  StronglySorted str_le gs /\
                  Permutation gs given)
             (findall network "DEFINITION").

(** The tree that [__str__] serializes is in canonical order: its root has
    a NETWORK child, and this element is ordered. *)
Definition canonical_order (model : model_data) (w : XMLBIFWriter) : Prop :=
  exists network,
    find (str_tree w) "NETWORK" = Some network /\
    ordered_network model w network.

(** * Properties *)

(** ** White space *)

(** [split] cuts at each of the white-space characters, and a text made of
    one is blank. *)
Lemma split_white_space :
  Forall (fun w => split ("0.5" ++ w ++ "0.5") = ["0.5"; "0.5"] /\
                   split (w ++ "1" ++ w) = ["1"] /\
                   blank (Some w) = true)
         white_space.
Proof. repeat constructor. Qed.

(** The characters of several bytes that are no white space stay in their
    token: U+00E9, and U+200B, the zero width space, which shares two bytes
    with the spaces from U+2000 on. *)
Lemma split_other_characters :
  split (bytes [97; 195; 169; 32; 226; 128; 139; 98]) =
  [bytes [97; 195; 169]; bytes [226; 128; 139; 98]] /\
  blank (Some (bytes [226; 128; 139])) = false.
Proof. split; reflexivity. Qed.

Lemma prefix_append (w s : string) :
  String.prefix w s = true -> exists rest, s = (w ++ rest)%string.
Proof.
  revert s. induction w as [|c w IH]; intros s Hpre.
  - exists s. reflexivity.
  - destruct s as [|c' s]; [discriminate|]. simpl in Hpre.
    destruct (ascii_dec c c') as [<-|]; [|discriminate].
    destruct (IH s Hpre) as (rest & ->). exists rest. reflexivity.
Qed.

(** What [space_width] finds is one of the white-space characters, at the
    head of the string. *)
Lemma space_width_head (s : string) :
  space_width s <> 0 ->
  exists w rest,
    In w white_space /\ s = (w ++ rest)%string /\
    space_width s = String.length w.
Proof.
  unfold space_width.
  destruct (List.find (fun w => String.prefix w s) white_space) as [w|]
    eqn:Hfind; [intros _ | intros H; contradiction].
  apply find_some in Hfind as [Hin Hpre].
  destruct (prefix_append w s Hpre) as (rest & Hs).
  exists w, rest. split; [exact Hin | split; [exact Hs | reflexivity]].
Qed.

(** The tables that a no-break space and an em space cut are read as two
    values each. *)
Lemma spaced_tables :
  exists half quarter three_quarters,
    parse_decimal "0.5" = Some half /\
    parse_decimal "0.25" = Some quarter /\
    parse_decimal "0.75" = Some three_quarters /\
    get_cpd decimal parse_decimal spaced_network
            [(Some "a", [Some "t"; Some "f"]);
             (Some "b", [Some "t"; Some "f"])] =
    Ok [(Some "a", [[half]; [half]]);
        (Some "b", [[quarter]; [three_quarters]])].
Proof. do 3 eexists. repeat split; vm_compute; reflexivity. Qed.

(** ** The error monad and the loops *)

Lemma bind_Ok {A B : Type} (m : result A) (k : A -> result B) (b : B) :
  bind m k = Ok b -> exists a, m = Ok a /\ k a = Ok b.
Proof. destruct m as [a|e]; simpl; [eauto | discriminate]. Qed.

Lemma bind_raises {A B : Type} (m : result A) (k : A -> result B) (e : exn) :
  bind m k = Raise e -> m = Raise e \/ exists a, m = Ok a /\ k a = Raise e.
Proof. destruct m as [a|e']; simpl; intros H; [right; eauto | left; congruence]. Qed.

Lemma traverse_raises {A B : Type} (f : A -> result B) (l : list A) (e : exn) :
  traverse f l = Raise e -> exists x, In x l /\ f x = Raise e.
Proof.
  induction l as [|x l IH]; simpl; [discriminate|].
  destruct (f x) as [y|e'] eqn:Hx; simpl.
  - destruct (traverse f l) as [ys|e'']; simpl; [discriminate|].
    intros H. destruct (IH H) as (x' & Hin & Hf). eauto.
  - intros [= ->]. eauto.
Qed.

Lemma traverse_Ok {A B : Type} (f : A -> result B) (g : A -> B) (l : list A) :
  (forall x, In x l -> f x = Ok (g x)) -> traverse f l = Ok (map g l).
Proof.
  induction l as [|x l IH]; simpl; intros H; [reflexivity|].
  rewrite (H x) by auto. simpl. rewrite IH by auto. reflexivity.
Qed.

Lemma traverse_fails {A B : Type} (f : A -> result B) (l : list A) (x : A) :
  In x l -> succeeds (f x) = false -> succeeds (traverse f l) = false.
Proof.
  induction l as [|y l IH]; simpl; [tauto|].
  intros [->|Hin] Hx.
  - destruct (f x); [discriminate | reflexivity].
  - destruct (f y); simpl; [|reflexivity].
    specialize (IH Hin Hx). destruct (traverse f l); [discriminate | reflexivity].
Qed.

Lemma foldM_raises {A S : Type} (f : S -> A -> result S) (l : list A) (s : S)
      (e : exn) :
  foldM f l s = Raise e -> exists s' x, In x l /\ f s' x = Raise e.
Proof.
  revert s. induction l as [|x l IH]; simpl; intros s; [discriminate|].
  destruct (f s x) as [s'|e'] eqn:Hx; simpl.
  - intros H. destruct (IH _ H) as (s'' & x' & Hin & Hf). eauto 6.
  - intros [= ->]. eauto 6.
Qed.

Lemma succeeds_false {A : Type} (m : result A) :
  succeeds m = false -> exists e, m = Raise e.
Proof. destruct m as [a|e]; [discriminate | eauto]. Qed.

Lemma bind_fails {A B : Type} (m : result A) (k : A -> result B) :
  succeeds m = false -> succeeds (bind m k) = false.
Proof. destruct m; [discriminate | reflexivity]. Qed.

(** The first item on which the body raises decides the exception. *)
Lemma traverse_first_raise {A B : Type} (f : A -> result B)
      (before after : list A) (x : A) (e : exn) :
  Forall (fun y => succeeds (f y) = true) before -> f x = Raise e ->
  traverse f (before ++ x :: after) = Raise e.
Proof.
  intros Hbefore Hx. induction Hbefore as [|y before Hy _ IH]; simpl.
  - rewrite Hx. reflexivity.
  - destruct (f y); [|discriminate]. simpl. rewrite IH. reflexivity.
Qed.

(** ** Dictionaries *)

Section DictFacts.
Context {K V : Type} `{EqDecision K}.
Implicit Types (d : dict K V) (k : K) (v : V).

Lemma dict_get_set_eq d k v : dict_get (dict_set d k v) k = Some v.
Proof.
  induction d as [|[k' v'] d IH]; simpl.
  - destruct (decide (k = k)); congruence.
  - destruct (decide (k = k')) as [->|Hne]; simpl.
    + destruct (decide (k' = k')); congruence.
    + destruct (decide (k = k')); [contradiction | exact IH].
Qed.

Lemma dict_get_set_ne d k k' v :
  k <> k' -> dict_get (dict_set d k v) k' = dict_get d k'.
Proof.
  intros Hne. induction d as [|[k0 v0] d IH]; simpl.
  - destruct (decide (k' = k)); congruence.
  - destruct (decide (k = k0)) as [->|Hk]; simpl.
    + destruct (decide (k' = k0)); congruence.
    + destruct (decide (k' = k0)); [reflexivity | exact IH].
Qed.

Lemma dict_keys_set d k v :
  dict_keys (dict_set d k v) =
  match dict_get d k with
  | Some _ => dict_keys d
  | None => dict_keys d ++ [k]
  end.
Proof.
  induction d as [|[k0 v0] d IH]; simpl; [reflexivity|].
  destruct (decide (k = k0)) as [->|Hk]; simpl; [reflexivity|].
  fold (dict_keys (dict_set d k v)). rewrite IH.
  destruct (dict_get d k); reflexivity.
Qed.

Lemma dict_get_None d k : dict_get d k = None <-> ~ In k (dict_keys d).
Proof.
  induction d as [|[k0 v0] d IH]; simpl; [tauto|].
  destruct (decide (k = k0)) as [->|Hk].
  - split; [discriminate | intros H; exfalso; apply H; auto].
  - rewrite IH. split; [intros H [?|?]; [congruence | tauto] | tauto].
Qed.

Lemma dict_set_NoDup d k v :
  NoDup (dict_keys d) -> NoDup (dict_keys (dict_set d k v)).
Proof.
  intros Hd. rewrite dict_keys_set.
  destruct (dict_get d k) eqn:Hg; [exact Hd|].
  apply NoDup_app. repeat split; [exact Hd| |apply NoDup_singleton].
  intros x Hx Hx'. apply list_elem_of_singleton in Hx' as ->.
  apply dict_get_None in Hg. apply Hg, list_elem_of_In, Hx.
Qed.

Lemma fold_dict_set_NoDup (items : list (K * V)) d :
  NoDup (dict_keys d) ->
  NoDup (dict_keys
           (fold_left (fun d kv => dict_set d (fst kv) (snd kv)) items d)).
Proof.
  revert d. induction items as [|[k v] items IH]; simpl; intros d Hd;
    [exact Hd|].
  apply IH, dict_set_NoDup, Hd.
Qed.

(** The keys of a dictionary built by a comprehension are distinct. *)
Lemma dict_of_items_NoDup (items : list (K * V)) :
  NoDup (dict_keys (dict_of_items items)).
Proof. apply fold_dict_set_NoDup. constructor. Qed.

Lemma fold_dict_set_get (items : list (K * V)) d k :
  dict_get (fold_left (fun d kv => dict_set d (fst kv) (snd kv)) items d) k =
  match dict_get (rev items) k with
  | Some v => Some v
  | None => dict_get d k
  end.
Proof.
  revert d. induction items as [|[k0 v0] items IH]; simpl; intros d;
    [reflexivity|].
  rewrite IH. clear IH.
  assert (Happ : forall l : list (K * V),
             dict_get (l ++ [(k0, v0)]) k =
             match dict_get l k with
             | Some v => Some v
             | None => if decide (k = k0) then Some v0 else None
             end).
  { induction l as [|[k1 v1] l IHl]; simpl; [reflexivity|].
    destruct (decide (k = k1)); [reflexivity | exact IHl]. }
  rewrite Happ. destruct (dict_get (rev items) k); [reflexivity|].
  destruct (decide (k = k0)) as [->|Hne].
  - apply dict_get_set_eq.
  - apply dict_get_set_ne. congruence.
Qed.

(** In a comprehension the last item of a key gives its value. *)
Lemma dict_of_items_get (items : list (K * V)) k :
  dict_get (dict_of_items items) k = dict_get (rev items) k.
Proof.
  unfold dict_of_items. rewrite fold_dict_set_get.
  destruct (dict_get (rev items) k); reflexivity.
Qed.

Lemma dict_get_app (d1 d2 : dict K V) k :
  dict_get (d1 ++ d2) k =
  match dict_get d1 k with
  | Some v => Some v
  | None => dict_get d2 k
  end.
Proof.
  induction d1 as [|[k1 v1] d1 IH]; simpl; [reflexivity|].
  destruct (decide (k = k1)); [reflexivity | exact IH].
Qed.

Lemma dict_get_split d k v :
  dict_get d k = Some v ->
  exists d1 d2, d = d1 ++ (k, v) :: d2 /\ ~ In k (dict_keys d1).
Proof.
  induction d as [|[k0 v0] d IH]; simpl; [discriminate|].
  destruct (decide (k = k0)) as [->|Hne].
  - intros [= ->]. exists [], d. simpl. tauto.
  - intros H. destruct (IH H) as (d1 & d2 & -> & Hn).
    exists ((k0, v0) :: d1), d2. split; [reflexivity|].
    simpl. intros [?|?]; [congruence | tauto].
Qed.
End DictFacts.

(** ** Strings in order *)

Lemma ascii_compare_refl (a : ascii) : Ascii.compare a a = Eq.
Proof. unfold Ascii.compare. apply N.compare_refl. Qed.

Lemma string_compare_refl (s : string) : String.compare s s = Eq.
Proof.
  induction s as [|a s IH]; simpl; [reflexivity|].
  rewrite ascii_compare_refl. exact IH.
Qed.

Lemma string_compare_Lt_trans (s1 s2 s3 : string) :
  String.compare s1 s2 = Lt -> String.compare s2 s3 = Lt ->
  String.compare s1 s3 = Lt.
Proof.
  revert s2 s3. induction s1 as [|a s1 IH]; intros [|b s2] [|c s3]; simpl;
    try discriminate; try reflexivity.
  unfold Ascii.compare.
  destruct (N.compare_spec (N_of_ascii a) (N_of_ascii b)) as [Hab|Hab|Hab];
    destruct (N.compare_spec (N_of_ascii b) (N_of_ascii c)) as [Hbc|Hbc|Hbc];
    try discriminate; intros H1 H2.
  - rewrite Hab, Hbc, N.compare_refl. eapply IH; eassumption.
  - rewrite Hab. apply N.compare_lt_iff in Hbc. rewrite Hbc. reflexivity.
  - rewrite <- Hbc. apply N.compare_lt_iff in Hab. rewrite Hab. reflexivity.
  - assert (Hac : (N_of_ascii a < N_of_ascii c)%N) by lia.
    apply N.compare_lt_iff in Hac. rewrite Hac. reflexivity.
Qed.

#[global] Instance str_le_total : Total str_le.
Proof. intros a b. apply String.leb_total. Qed.

#[global] Instance str_le_trans : Transitive str_le.
Proof.
  intros a b c. unfold str_le, String.leb.
  destruct (String.compare a b) eqn:Hab; try discriminate;
    destruct (String.compare b c) eqn:Hbc; try discriminate; intros _ _.
  - apply String.compare_eq_iff in Hab, Hbc. subst.
    rewrite string_compare_refl. reflexivity.
  - apply String.compare_eq_iff in Hab. subst. rewrite Hbc. reflexivity.
  - apply String.compare_eq_iff in Hbc. subst. rewrite Hab. reflexivity.
  - rewrite (string_compare_Lt_trans _ _ _ Hab Hbc). reflexivity.
Qed.

Lemma str_le_antisym (a b : string) : str_le a b -> str_le b a -> a = b.
Proof. apply String.leb_antisym. Qed.

Lemma sorted_StronglySorted (l : list string) :
  StronglySorted str_le (sorted l).
Proof. apply StronglySorted_merge_sort; apply _. Qed.

Lemma sorted_Permutation (l : list string) : Permutation (sorted l) l.
Proof. apply merge_sort_Permutation. Qed.

Lemma sorted_In (l : list string) (x : string) : In x (sorted l) <-> In x l.
Proof.
  split; apply Permutation_in;
    [apply sorted_Permutation | symmetry; apply sorted_Permutation].
Qed.

Lemma sorted_length (l : list string) : length (sorted l) = length l.
Proof. apply Permutation_length, sorted_Permutation. Qed.

(** In a sorted list, positions follow the order of the strings. *)
Lemma StronglySorted_lookup_le (l : list string) (i j : nat) (x y : string) :
  StronglySorted str_le l -> l !! i = Some x -> l !! j = Some y -> i <= j ->
  str_le x y.
Proof.
  intros Hs. revert i j x y.
  induction Hs as [|z l Hs IH Hall]; intros i j x y Hi Hj Hij.
  - rewrite lookup_nil in Hi. discriminate.
  - destruct i as [|i], j as [|j]; simpl in *.
    + injection Hi as <-. injection Hj as <-.
      unfold str_le, String.leb. rewrite string_compare_refl. reflexivity.
    + injection Hi as <-. rewrite Forall_forall in Hall.
      apply Hall. eapply list_elem_of_lookup_2, Hj.
    + lia.
    + apply (IH i j); [assumption | assumption | lia].
Qed.

(** ** Which exceptions the reader and the writer raise *)

Ltac raise_inv H :=
  repeat match type of H with
    | bind _ _ = Raise _ =>
        let a := fresh "a" in
        let Ha := fresh "Ha" in
        apply bind_raises in H; destruct H as [H|(a & Ha & H)]
    | traverse _ _ = Raise _ =>
        let x := fresh "x" in
        let Hin := fresh "Hin" in
        apply traverse_raises in H; destruct H as (x & Hin & H)
    | text_of ?o = Raise _ => destruct o; simpl in H
    | find_in ?o _ = Raise _ => destruct o; simpl in H
    | dict_item ?d ?k = Raise _ =>
        unfold dict_item in H; destruct (dict_get d k)
    | model_item ?f = Raise _ => destruct f; simpl in H
    | Ok _ = Raise _ => discriminate H
    | Raise _ = Raise _ => injection H as H
    end.

Section ReaderErrors.
Context (float : Type) (py_float : string -> option float).

Lemma get_variables_raises network e :
  get_variables network = Raise e -> e = AttributeError.
Proof. unfold get_variables. intros H. raise_inv H; congruence. Qed.

Lemma get_states_raises network e :
  get_states network = Raise e -> e = AttributeError.
Proof. unfold get_states. intros H. raise_inv H; congruence. Qed.

Lemma get_parents_raises network e :
  get_parents network = Raise e -> e = AttributeError.
Proof. unfold get_parents. intros H. raise_inv H; congruence. Qed.

Lemma get_property_raises network e :
  get_property network = Raise e -> e = AttributeError.
Proof. unfold get_property. intros H. raise_inv H; congruence. Qed.

Lemma float_list_raises t e :
  float_list float py_float t = Raise e ->
  e = AttributeError \/ e = ValueError "could not convert string to float".
Proof.
  unfold float_list. destruct t as [s|]; intros H; [|left; congruence].
  raise_inv H. destruct (py_float x); [discriminate|]. right. congruence.
Qed.

Lemma cpd_array_raises states variable values e :
  cpd_array float states variable values = Raise e ->
  e = KeyError \/ e = ZeroDivisionError \/
  e = ValueError "cannot reshape array".
Proof.
  unfold cpd_array, reshape. intros H. raise_inv H; [left; congruence|].
  destruct (length a =? 0)%nat; [right; left; congruence|].
  destruct (_ =? _)%nat; [discriminate|]. right; right; congruence.
Qed.

Lemma get_cpd_raises network states e :
  get_cpd float py_float network states = Raise e -> In e reader_errors.
Proof.
  unfold get_cpd, cpd_tables, reader_errors. intros H. raise_inv H.
  - subst. simpl. auto.
  - apply float_list_raises in H as [->| ->]; simpl; auto.
  - apply cpd_array_raises in H as [->|[->| ->]]; simpl; auto 6.
Qed.

Lemma reader_of_network_raises network e :
  reader_of_network float py_float network = Raise e -> In e reader_errors.
Proof.
  unfold reader_of_network. intros H. raise_inv H;
    try (subst; simpl; auto; fail).
  destruct network as [net|]; [|injection H as <-; simpl; auto].
  raise_inv H.
  - apply get_variables_raises in H as ->. simpl; auto.
  - apply get_parents_raises in H as ->. simpl; auto.
  - apply get_states_raises in H as ->. simpl; auto.
  - eapply get_cpd_raises, H.
  - apply get_property_raises in H as ->. simpl; auto.
Qed.

Lemma reader_of_network_no_config_error network :
  reader_of_network float py_float network <> Raise config_error.
Proof.
  intros H. apply reader_of_network_raises in H. unfold reader_errors in H.
  simpl in H. unfold config_error in H.
  repeat destruct H as [H|H]; try discriminate H. exact H.
Qed.
End ReaderErrors.

Lemma add_texts_raises variable_tag t entries network e :
  add_texts variable_tag t entries network = Raise e -> e = KeyError.
Proof.
  unfold add_texts. intros H.
  apply foldM_raises in H as (net & kv & _ & H).
  apply foldM_raises in H as (net' & txt & _ & H).
  raise_inv H. congruence.
Qed.

(** ** Construction of the reader *)

Section ReaderConstruction.
Context (float : Type) (py_float : string -> option float).
Context (parse_file fromstring : string -> result Element).

(** A path that is given and not empty is used, whatever [string] is. *)
Lemma reader_init_path path string :
  truthy path = true ->
  XMLBIFReader_init float py_float parse_file fromstring path string =
  (root <- parse_file (default "" path) ;;
   reader_of_network float py_float (find root "NETWORK")).
Proof.
  intros Hp. unfold XMLBIFReader_init. rewrite Hp.
  destruct (parse_file (default "" path)); reflexivity.
Qed.

Lemma reader_init_string path string :
  truthy path = false -> truthy string = true ->
  XMLBIFReader_init float py_float parse_file fromstring path string =
  (root <- fromstring (default "" string) ;;
   reader_of_network float py_float (find root "NETWORK")).
Proof.
  intros Hp Hs. unfold XMLBIFReader_init. rewrite Hp, Hs.
  destruct (fromstring (default "" string)); reflexivity.
Qed.

Lemma reader_init_neither path string :
  truthy path = false -> truthy string = false ->
  XMLBIFReader_init float py_float parse_file fromstring path string = Raise config_error.
Proof. intros Hp Hs. unfold XMLBIFReader_init. rewrite Hp, Hs. reflexivity. Qed.

(** C3, as amended.  Provided the library's parsers do not themselves raise
    the configuration error, the construction of a reader fails with
    [ValueError("Must specify either path or string")] exactly when neither
    a non-empty path nor a non-empty string is given.  In particular it does
    not when both are given (the path is then used), nor under exactly one
    non-empty input. *)
Theorem reader_config_error_iff path string :
  (forall p, parse_file p <> Raise config_error) ->
  (forall s, fromstring s <> Raise config_error) ->
  XMLBIFReader_init float py_float parse_file fromstring path string = Raise config_error <->
  truthy path = false /\ truthy string = false.
Proof.
  intros Hfile Hstr. split.
  - intros H. destruct (truthy path) eqn:Hp.
    + rewrite reader_init_path in H by exact Hp.
      raise_inv H; [destruct (Hfile _ H)|].
      destruct (reader_of_network_no_config_error _ _ _ H).
    + destruct (truthy string) eqn:Hs; [|split; reflexivity].
      rewrite reader_init_string in H by assumption.
      raise_inv H; [destruct (Hstr _ H)|].
      destruct (reader_of_network_no_config_error _ _ _ H).
  - intros [Hp Hs]. apply reader_init_neither; assumption.
Qed.
End ReaderConstruction.

Lemma sample_parse_file_no_config_error (p : string) :
  sample_parse_file p <> Raise config_error.
Proof. unfold sample_parse_file. destruct (String.eqb p "dog.xml"); discriminate. Qed.

Lemma sample_fromstring_no_config_error (s : string) :
  sample_fromstring s <> Raise config_error.
Proof.
  unfold sample_fromstring, one_document.
  destruct (String.eqb s sample_text); discriminate.
Qed.

(** With neither a path nor a string the construction fails. *)
Lemma reader_config_error_iff_witness :
  XMLBIFReader_init decimal parse_decimal sample_parse_file sample_fromstring
                    None None = Raise config_error.
Proof.
  apply (reader_config_error_iff decimal parse_decimal sample_parse_file
           sample_fromstring None None
           sample_parse_file_no_config_error
           sample_fromstring_no_config_error).
  split; reflexivity.
Defined.

(** C3 as stated fails: with both a path and a string the reader is built
    from the file, and no configuration error is raised. *)
Lemma reader_both_given_counterexample :
  succeeds (XMLBIFReader_init decimal parse_decimal sample_parse_file
              sample_fromstring (Some "dog.xml") (Some sample_text)) = true /\
  XMLBIFReader_init decimal parse_decimal sample_parse_file sample_fromstring
                    (Some "dog.xml") (Some sample_text) <> Raise config_error.
Proof. split; [vm_compute; reflexivity | vm_compute; discriminate]. Qed.

(** ** Construction of the writer *)

(** C10.  A record without the key ['property'] makes the construction of a
    writer fail with a [KeyError], whatever its other fields are. *)
Theorem writer_requires_property (model : model_data) (encoding : string)
        (prettyprint : bool) :
  m_property model = None ->
  XMLBIFWriter_init model encoding prettyprint = Raise KeyError.
Proof.
  intros Hprop. unfold XMLBIFWriter_init, add_variables.
  destruct (m_variables model) as [vars|]; simpl; [|reflexivity].
  destruct (m_states model) as [states|]; simpl; [|reflexivity].
  destruct (add_texts _ "OUTCOME" states _) as [net1|e] eqn:Hout; simpl.
  - rewrite Hprop. reflexivity.
  - apply add_texts_raises in Hout as ->. reflexivity.
Qed.

Lemma writer_requires_property_witness :
  XMLBIFWriter_init
    (mkModel (Some "Dog-Problem") (Some ["a"]) (Some [("a", ["true"])])
             (Some [("a", [])]) None)
    "utf-8" true = Raise KeyError.
Proof. apply (writer_requires_property _ "utf-8" true). reflexivity. Defined.

(** ** Parents and edges *)

Lemma text_of_find_for (d : Element) :
  find d "FOR" <> None -> text_of (find d "FOR") = Ok (for_text d).
Proof. unfold for_text. destruct (find d "FOR"); [reflexivity | congruence]. Qed.

Lemma text_of_for_text (d : Element) (c : name) :
  text_of (find d "FOR") = Ok c -> for_text d = c.
Proof. unfold for_text. destruct (find d "FOR"); simpl; congruence. Qed.

(** On a document whose DEFINITION elements all have a FOR child,
    [get_parents] returns the dictionary of their items. *)
Lemma get_parents_Ok (network : Element) :
  Forall (fun d => find d "FOR" <> None) (findall network "DEFINITION") ->
  get_parents network =
  Ok (dict_of_items (map parents_item (findall network "DEFINITION"))).
Proof.
  intros Hfor. unfold get_parents.
  rewrite (traverse_Ok _ parents_item); [reflexivity|].
  intros d Hd. rewrite Forall_forall in Hfor.
  rewrite text_of_find_for; [reflexivity|].
  apply Hfor, list_elem_of_In, Hd.
Qed.

Lemma dict_get_map_None {A : Type} (f : A -> name * list name) (l : list A)
      (k : name) :
  dict_get (map f l) k = None <-> Forall (fun x => fst (f x) <> k) l.
Proof.
  rewrite dict_get_None. unfold dict_keys. rewrite map_map, Forall_forall.
  split.
  - intros H x Hx Heq. apply H, in_map_iff. exists x.
    split; [exact Heq | apply list_elem_of_In, Hx].
  - intros H Hin. apply in_map_iff in Hin as (x & Heq & Hx).
    apply (H x); [apply list_elem_of_In, Hx | exact Heq].
Qed.

Lemma dict_get_map_Some {A : Type} (f : A -> name * list name) (l : list A)
      (k : name) (v : list name) :
  dict_get (map f l) k = Some v -> exists x, In x l /\ f x = (k, v).
Proof.
  induction l as [|x l IH]; simpl; [discriminate|].
  destruct (f x) as [k0 v0] eqn:Hx.
  destruct (decide (k = k0)) as [->|Hne].
  - intros [= ->]. eauto.
  - intros H. destruct (IH H) as (y & Hy & Hf). eauto.
Qed.

Lemma edges_into_app (c : name) (l1 l2 : list (list name)) :
  edges_into c (l1 ++ l2) = edges_into c l1 ++ edges_into c l2.
Proof. unfold edges_into. apply List.filter_app. Qed.

Lemma edges_into_other (c k : name) (values : list name) :
  k <> c -> edges_into c (map (fun value => [value; k]) values) = [].
Proof.
  intros Hne. induction values as [|v values IH]; simpl; [reflexivity|].
  rewrite bool_decide_eq_false_2 by (simpl; congruence). exact IH.
Qed.

Lemma edges_into_same (c : name) (values : list name) :
  edges_into c (map (fun value => [value; c]) values) =
  map (fun value => [value; c]) values.
Proof.
  induction values as [|v values IH]; simpl; [reflexivity|].
  rewrite bool_decide_eq_true_2 by reflexivity. f_equal. exact IH.
Qed.

Lemma edges_into_not_key (c : name) (d : dict name (list name)) :
  ~ In c (dict_keys d) -> edges_into c (get_edges d) = [].
Proof.
  induction d as [|[k v] d IH]; simpl; intros Hc; [reflexivity|].
  rewrite edges_into_app, edges_into_other, IH by tauto. reflexivity.
Qed.

(** The edges into [c] are the pairs of its parents, in their order. *)
Lemma edges_into_key (c : name) (d : dict name (list name)) (ps : list name) :
  NoDup (dict_keys d) -> dict_get d c = Some ps ->
  edges_into c (get_edges d) = map (fun value => [value; c]) ps.
Proof.
  intros Hnd Hget.
  destruct (dict_get_split _ _ _ Hget) as (d1 & d2 & -> & Hd1).
  unfold dict_keys in Hnd. rewrite map_app in Hnd. simpl in Hnd.
  apply NoDup_app in Hnd as (_ & Hdisj & Hnd2).
  apply NoDup_cons in Hnd2 as (Hd2 & _).
  unfold get_edges. rewrite flat_map_app. simpl.
  rewrite !edges_into_app, edges_into_same.
  fold (get_edges d1). fold (get_edges d2).
  rewrite (edges_into_not_key c d1) by exact Hd1.
  rewrite (edges_into_not_key c d2).
  - simpl. apply app_nil_r.
  - intros Hin. apply Hd2, list_elem_of_In, Hin.
Qed.

(** The DEFINITION that [parents()] keeps for [c] is the last one whose FOR
    text is [c]: its GIVEN texts, reversed. *)
Lemma parents_of_definition (network d : Element) (defs1 defs2 : list Element)
      (c : name) :
  findall network "DEFINITION" = defs1 ++ d :: defs2 ->
  Forall (fun d' => find d' "FOR" <> None) (defs1 ++ defs2) ->
  text_of (find d "FOR") = Ok c ->
  Forall (fun d' => text_of (find d' "FOR") <> Ok c) defs2 ->
  exists parents,
    get_parents network = Ok parents /\
    NoDup (dict_keys parents) /\
    dict_get parents c = Some (rev (map text (findall d "GIVEN"))).
Proof.
  intros Hdefs Hfor Hc Hlast.
  assert (Hd : find d "FOR" <> None)
    by (destruct (find d "FOR"); [congruence | discriminate]).
  eexists. split; [|split].
  - apply get_parents_Ok. rewrite Hdefs.
    apply Forall_app in Hfor as [H1 H2].
    apply Forall_app. split; [exact H1 | constructor; assumption].
  - apply dict_of_items_NoDup.
  - rewrite dict_of_items_get, Hdefs, map_app, rev_app_distr. simpl.
    rewrite <- app_assoc, dict_get_app, <- map_rev.
    assert (Hnone : dict_get (map parents_item (rev defs2)) c = None).
    { apply dict_get_map_None. rewrite Forall_forall in Hlast, Hfor.
      apply Forall_forall. intros d' Hd' Heq. simpl in Heq.
      apply list_elem_of_In, in_rev, list_elem_of_In in Hd'.
      apply (Hlast d' Hd'). rewrite text_of_find_for.
      { simpl in Heq. f_equal. exact Heq. }
      apply Hfor. apply elem_of_app. right. exact Hd'. }
    rewrite Hnone. simpl. rewrite (text_of_for_text _ _ Hc).
    destruct (decide _); [reflexivity | contradiction].
Qed.

(** C4.  A DEFINITION with FOR text [c] and GIVEN children [p1], [p2] in
    document order gives [parents()[c] = [p2, p1]], and the edges into [c]
    are [(p2, c)] and then [(p1, c)].  The document is one that the reader
    accepts (every DEFINITION has a FOR child) and the DEFINITION is the one
    in force for [c] (no later DEFINITION has the same FOR text). *)
Theorem parent_reversal (network d : Element) (defs1 defs2 : list Element)
        (c p1 p2 : name) :
  findall network "DEFINITION" = defs1 ++ d :: defs2 ->
  Forall (fun d' => find d' "FOR" <> None) (defs1 ++ defs2) ->
  text_of (find d "FOR") = Ok c ->
  map text (findall d "GIVEN") = [p1; p2] ->
  Forall (fun d' => text_of (find d' "FOR") <> Ok c) defs2 ->
  exists parents,
    get_parents network = Ok parents /\
    dict_get parents c = Some [p2; p1] /\
    edges_into c (get_edges parents) = [[p2; c]; [p1; c]].
Proof.
  intros Hdefs Hfor Hc Hgiven Hlast.
  destruct (parents_of_definition network d defs1 defs2 c Hdefs Hfor Hc Hlast)
    as (parents & Hp & Hnd & Hget).
  rewrite Hgiven in Hget. simpl in Hget.
  exists parents. split; [exact Hp | split; [exact Hget|]].
  rewrite (edges_into_key c parents _ Hnd Hget). reflexivity.
Qed.

Lemma parent_reversal_witness :
  exists parents,
    get_parents sample_network = Ok parents /\
    dict_get parents (Some "dog-out") =
      Some [Some "family-out"; Some "bowel-problem"] /\
    edges_into (Some "dog-out") (get_edges parents) =
      [[Some "family-out"; Some "dog-out"];
       [Some "bowel-problem"; Some "dog-out"]].
Proof.
  apply (parent_reversal sample_network
           (node "DEFINITION"
              [leaf "FOR" "dog-out"; leaf "GIVEN" "bowel-problem";
               leaf "GIVEN" "family-out";
               leaf "TABLE" "0.99 0.01 0.97 0.03 0.9 0.1 0.3 0.7"])
           [node "DEFINITION" [leaf "FOR" "family-out"; leaf "TABLE" "0.15 0.85"];
            node "DEFINITION"
              [leaf "FOR" "bowel-problem"; leaf "TABLE" "0.01 0.99"]]
           []).
  - reflexivity.
  - repeat constructor; discriminate.
  - reflexivity.
  - reflexivity.
  - constructor.
Defined.

(** C7, as amended.  On a document that the reader accepts, [parents()] has
    a key exactly for the FOR texts of the DEFINITION elements: a variable
    that no DEFINITION names is a missing key, and the list of a key is the
    reversed GIVEN list of one of its DEFINITION elements (so it is empty
    only for a DEFINITION without GIVEN children). *)
Theorem parents_keys_are_definitions (network : Element) (v : name) :
  Forall (fun d => find d "FOR" <> None) (findall network "DEFINITION") ->
  exists parents,
    get_parents network = Ok parents /\
    (dict_get parents v = None <->
     Forall (fun d => text_of (find d "FOR") <> Ok v)
            (findall network "DEFINITION")) /\
    (forall ps, dict_get parents v = Some ps ->
                exists d, In d (findall network "DEFINITION") /\
                          text_of (find d "FOR") = Ok v /\
                          ps = rev (map text (findall d "GIVEN"))).
Proof.
  intros Hfor. eexists. split; [apply get_parents_Ok, Hfor|].
  rewrite dict_of_items_get, <- map_rev. split.
  - rewrite dict_get_map_None. rewrite !Forall_forall. split.
    + intros H d Hd Heq. apply (H d).
      * apply list_elem_of_In, in_rev. rewrite rev_involutive.
        apply list_elem_of_In, Hd.
      * simpl. apply text_of_for_text, Heq.
    + intros H d Hd Heq. apply list_elem_of_In, in_rev, list_elem_of_In in Hd.
      apply (H d Hd). rewrite Forall_forall in Hfor.
      rewrite text_of_find_for by (apply Hfor, Hd). simpl in Heq. congruence.
  - intros ps Hget. apply dict_get_map_Some in Hget as (d & Hd & Hitem).
    apply in_rev in Hd. exists d. split; [exact Hd|].
    injection Hitem as Hk Hps. split; [|congruence].
    rewrite Forall_forall in Hfor.
    rewrite text_of_find_for by (apply Hfor, list_elem_of_In, Hd). congruence.
Qed.

Lemma parents_keys_are_definitions_witness :
  exists parents,
    get_parents orphan_network = Ok parents /\
    (dict_get parents (Some "a") = None <->
     Forall (fun d => text_of (find d "FOR") <> Ok (Some "a"))
            (findall orphan_network "DEFINITION")) /\
    (forall ps, dict_get parents (Some "a") = Some ps ->
                exists d, In d (findall orphan_network "DEFINITION") /\
                          text_of (find d "FOR") = Ok (Some "a") /\
                          ps = rev (map text (findall d "GIVEN"))).
Proof.
  apply (parents_keys_are_definitions orphan_network (Some "a")).
  repeat constructor; discriminate.
Defined.

(** C7 as stated fails: the variable [a] of this document is a VARIABLE
    element, no DEFINITION names it, and [parents()] has no key for it:
    [parents()["a"]] raises [KeyError]. *)
Lemma parents_missing_key_counterexample :
  get_variables orphan_network = Ok [Some "a"; Some "b"] /\
  get_parents orphan_network = Ok [(Some "b", [])] /\
  (parents <- get_parents orphan_network ;; dict_item parents (Some "a")) =
    Raise KeyError.
Proof. repeat split. Qed.

(** ** Conditional probability tables *)

Section Cpd.
Context (float : Type) (py_float : string -> option float).

Lemma rows_length (r c : nat) (l : list float) : length (rows float r c l) = r.
Proof.
  revert l. induction r as [|r IH]; intros l; simpl; [reflexivity|].
  rewrite IH. reflexivity.
Qed.

Lemma rows_columns (r c : nat) (l : list float) :
  length l = r * c -> Forall (fun row => length row = c) (rows float r c l).
Proof.
  revert l. induction r as [|r IH]; intros l Hl; simpl; constructor.
  - rewrite length_take. simpl in Hl. lia.
  - apply IH. rewrite length_drop. simpl in Hl. lia.
Qed.

Lemma rows_concat (r c : nat) (l : list float) :
  length l = r * c -> concat (rows float r c l) = l.
Proof.
  revert l. induction r as [|r IH]; intros l Hl; simpl.
  - destruct l; [reflexivity | discriminate].
  - rewrite IH; [apply take_drop|].
    rewrite length_drop. simpl in Hl. lia.
Qed.

(** The loop body of [get_cpd] returns exactly on the tables that fit. *)
Lemma cpd_array_table_ok (states : dict name (list name)) (variable : name)
      (values : list float) :
  table_ok states (variable, values) = true ->
  exists sts,
    dict_get states variable = Some sts /\
    cpd_array float states variable values =
    Ok (rows float (length sts) (length values / length sts) values).
Proof.
  unfold table_ok, cpd_array, dict_item, reshape. simpl.
  destruct (dict_get states variable) as [sts|]; [|discriminate].
  intros H. apply andb_true_iff in H as [Hk Hmod].
  exists sts. split; [reflexivity|]. simpl.
  apply negb_true_iff in Hk. rewrite Hk.
  apply Nat.eqb_neq in Hk. apply Nat.eqb_eq in Hmod.
  apply Nat.Div0.div_exact in Hmod.
  rewrite <- Hmod, Nat.eqb_refl. reflexivity.
Qed.

Lemma cpd_array_not_ok (states : dict name (list name)) (variable : name)
      (values : list float) :
  table_ok states (variable, values) = false ->
  succeeds (cpd_array float states variable values) = false.
Proof.
  unfold table_ok, cpd_array, dict_item, reshape. simpl.
  destruct (dict_get states variable) as [sts|]; [|reflexivity]. simpl.
  destruct (length sts =? 0)%nat eqn:Hk; [reflexivity|]. simpl.
  intros Hmod. apply Nat.eqb_neq in Hmod.
  destruct (length sts * _ =? _)%nat eqn:Heq; [|reflexivity].
  apply Nat.eqb_eq in Heq. exfalso. apply Hmod.
  apply Nat.Div0.div_exact. symmetry. exact Heq.
Qed.

(** The second loop of [get_cpd], on tables that all fit. *)
Lemma cpd_loop_Ok (states : dict name (list name))
      (tables : dict name (list float)) :
  forallb (table_ok states) tables = true ->
  exists cpd,
    traverse (fun kv : name * list float =>
                arr <- cpd_array float states (fst kv) (snd kv) ;;
                Ok (fst kv, arr)) tables = Ok cpd /\
    forall variable values,
      dict_get tables variable = Some values ->
      exists sts,
        dict_get states variable = Some sts /\
        dict_get cpd variable =
        Some (rows float (length sts) (length values / length sts) values).
Proof.
  induction tables as [|[k v] tables IH]; simpl; intros Hok.
  - exists []. split; [reflexivity | discriminate].
  - apply andb_true_iff in Hok as [Hkv Hrest].
    destruct (IH Hrest) as (cpd & Hcpd & Hget).
    destruct (cpd_array_table_ok _ _ _ Hkv) as (sts & Hsts & Harr).
    rewrite Harr. simpl. rewrite Hcpd. simpl.
    eexists. split; [reflexivity|].
    intros variable values. simpl.
    destruct (decide (variable = k)) as [->|Hne].
    + intros [= <-]. exists sts. split; [exact Hsts | reflexivity].
    + apply Hget.
Qed.

(** C5.  Let the TABLE texts of the document parse (to [tables]) and every
    table fit its variable.  For a variable with [k] states whose table has
    [k * m] values, [cpd()] returns and maps the variable to a matrix of [k]
    rows of [m] columns whose rows, one after the other, are the values in
    their order. *)
Theorem cpd_reshape (network : Element) (states : dict name (list name))
        (tables : dict name (list float)) (variable : name)
        (values : list float) (sts : list name) (k m : nat) :
  cpd_tables float py_float network = Ok tables ->
  forallb (table_ok states) tables = true ->
  dict_get tables variable = Some values ->
  dict_get states variable = Some sts ->
  length sts = k ->
  length values = k * m ->
  exists cpd matrix,
    get_cpd float py_float network states = Ok cpd /\
    dict_get cpd variable = Some matrix /\
    length matrix = k /\
    Forall (fun row => length row = m) matrix /\
    concat matrix = values.
Proof.
  intros Htables Hok Hvalues Hsts Hk Hlen.
  destruct (cpd_loop_Ok states tables Hok) as (cpd & Hcpd & Hget).
  destruct (Hget _ _ Hvalues) as (sts' & Hsts' & Hmatrix).
  rewrite Hsts in Hsts'. injection Hsts' as <-.
  assert (Hpos : k <> 0).
  { destruct (dict_get_split _ _ _ Hvalues) as (t1 & t2 & -> & _).
    rewrite forallb_app in Hok. apply andb_true_iff in Hok as [_ Hok].
    simpl in Hok. apply andb_true_iff in Hok as [Hok _].
    unfold table_ok in Hok. simpl in Hok. rewrite Hsts in Hok.
    apply andb_true_iff in Hok as [Hok _]. apply negb_true_iff in Hok.
    apply Nat.eqb_neq in Hok. congruence. }
  assert (Hdiv : length values / length sts = m).
  { rewrite Hk, Hlen, Nat.mul_comm. apply Nat.div_mul, Hpos. }
  rewrite Hdiv, Hk in Hmatrix.
  exists cpd, (rows float k m values).
  split; [|split; [exact Hmatrix | split; [|split]]].
  - unfold get_cpd. rewrite Htables. simpl. exact Hcpd.
  - apply rows_length.
  - apply rows_columns, Hlen.
  - apply rows_concat, Hlen.
Qed.
Lemma float_list_bad_token (s tok : string) :
  In tok (split s) -> py_float tok = None ->
  float_list float py_float (Some s) =
  Raise (ValueError "could not convert string to float").
Proof.
  unfold float_list. induction (split s) as [|x l IH]; simpl; [tauto|].
  intros [->|Hin] Hbad.
  - rewrite Hbad. reflexivity.
  - destruct (py_float x); simpl; [|reflexivity].
    rewrite (IH Hin Hbad). reflexivity.
Qed.

Lemma table_misfit (states : dict name (list name)) (variable : name)
      (values : list float) (sts : list name) :
  dict_get states variable = Some sts ->
  length values mod length sts <> 0 ->
  table_ok states (variable, values) = false.
Proof.
  intros Hsts Hmod. unfold table_ok. simpl. rewrite Hsts.
  apply andb_false_iff. right. apply Nat.eqb_neq, Hmod.
Qed.

(** C6.  [cpd()] raises, and returns no matrix,
    - when the number of values of the table of a variable is not a multiple
      of the number of its states: the exception is the [ValueError] of
      [reshape] when the tables before it fit and the variable has a state;
    - when a token of a TABLE text is not a float: the exception is the
      [ValueError] of [float] when the TABLE elements before it parse. *)
Theorem cpd_failure (network : Element) (states : dict name (list name)) :
  (forall tables variable values sts,
      cpd_tables float py_float network = Ok tables ->
      dict_get tables variable = Some values ->
      dict_get states variable = Some sts ->
      length values mod length sts <> 0 ->
      exists e, get_cpd float py_float network states = Raise e) /\
  (forall tables before after variable values sts,
      cpd_tables float py_float network = Ok tables ->
      tables = before ++ (variable, values) :: after ->
      forallb (table_ok states) before = true ->
      dict_get states variable = Some sts ->
      length sts <> 0 ->
      length values mod length sts <> 0 ->
      get_cpd float py_float network states =
      Raise (ValueError "cannot reshape array")) /\
  (forall d t s tok,
      In d (findall network "DEFINITION") ->
      In t (findall d "TABLE") ->
      text t = Some s ->
      In tok (split s) ->
      py_float tok = None ->
      exists e, get_cpd float py_float network states = Raise e) /\
  (forall before after d t s tok,
      flat_map (fun definition =>
                  map (pair definition) (findall definition "TABLE"))
               (findall network "DEFINITION") = before ++ (d, t) :: after ->
      Forall (fun dt => find (fst dt) "FOR" <> None /\
                        succeeds (float_list float py_float (text (snd dt))) =
                        true) before ->
      find d "FOR" <> None ->
      text t = Some s ->
      In tok (split s) ->
      py_float tok = None ->
      get_cpd float py_float network states =
      Raise (ValueError "could not convert string to float")).
Proof.
  repeat split.
  - intros tables variable values sts Htables Hvalues Hsts Hmod.
    apply succeeds_false. unfold get_cpd. rewrite Htables. simpl.
    destruct (dict_get_split _ _ _ Hvalues) as (t1 & t2 & -> & _).
    apply (traverse_fails _ _ (variable, values)).
    + apply in_or_app. right. left. reflexivity.
    + apply bind_fails, cpd_array_not_ok. simpl.
      eapply table_misfit; eassumption.
  - intros tables before after variable values sts Htables -> Hok Hsts Hk Hmod.
    unfold get_cpd. rewrite Htables. simpl.
    apply traverse_first_raise.
    + apply Forall_forall. intros [k v] Hkv.
      rewrite forallb_forall in Hok.
      apply list_elem_of_In in Hkv. specialize (Hok _ Hkv).
      destruct (cpd_array_table_ok _ _ _ Hok) as (sts' & _ & Harr).
      simpl. rewrite Harr. reflexivity.
    + simpl. unfold cpd_array, dict_item, reshape. rewrite Hsts. simpl.
      apply Nat.eqb_neq in Hk. rewrite Hk.
      destruct (length sts * _ =? _)%nat eqn:Heq; [|reflexivity].
      apply Nat.eqb_eq in Heq. exfalso. apply Hmod.
      apply Nat.Div0.div_exact. symmetry. exact Heq.
  - intros d t s tok Hd Ht Hs Htok Hbad.
    apply succeeds_false. unfold get_cpd. apply bind_fails.
    unfold cpd_tables. apply bind_fails.
    apply (traverse_fails _ _ (d, t)).
    + apply in_flat_map. exists d. split; [exact Hd|].
      apply in_map, Ht.
    + simpl. destruct (text_of (find d "FOR")); [|reflexivity]. simpl.
      rewrite Hs, (float_list_bad_token _ _ Htok Hbad). reflexivity.
  - intros before after d t s tok Hpairs Hbefore Hfor Hs Htok Hbad.
    unfold get_cpd, cpd_tables. rewrite Hpairs.
    rewrite (traverse_first_raise _ before after (d, t)
               (ValueError "could not convert string to float")).
    + reflexivity.
    + eapply Forall_impl; [exact Hbefore|].
      intros [d' t'] [Hfor' Hfl]. simpl in *.
      rewrite (text_of_find_for _ Hfor'). simpl.
      destruct (float_list float py_float (text t')); [reflexivity|discriminate].
    + simpl. rewrite (text_of_find_for _ Hfor). simpl.
      rewrite Hs, (float_list_bad_token _ _ Htok Hbad). reflexivity.
Qed.
End Cpd.

Lemma cpd_reshape_witness :
  exists cpd matrix,
    get_cpd decimal parse_decimal sample_network sample_states = Ok cpd /\
    dict_get cpd (Some "dog-out") = Some matrix /\
    length matrix = 2 /\
    Forall (fun row => length row = 4) matrix /\
    concat matrix = dog_out_values.
Proof.
  eapply (cpd_reshape decimal parse_decimal sample_network sample_states _
            (Some "dog-out") dog_out_values [Some "true"; Some "false"] 2 4).
  - vm_compute. reflexivity.
  - vm_compute. reflexivity.
  - vm_compute. reflexivity.
  - reflexivity.
  - reflexivity.
  - reflexivity.
Defined.

(** The ragged table raises the error of [reshape], the garbled one the
    error of [float]. *)
Lemma cpd_failure_witness :
  get_cpd decimal parse_decimal ragged_network
          [(Some "b", [Some "t"; Some "f"])] =
    Raise (ValueError "cannot reshape array") /\
  get_cpd decimal parse_decimal garbled_network
          [(Some "b", [Some "t"; Some "f"])] =
    Raise (ValueError "could not convert string to float").
Proof.
  split.
  - eapply (proj1 (proj2 (cpd_failure decimal parse_decimal ragged_network
                            [(Some "b", [Some "t"; Some "f"])]))
              _ [] [] (Some "b")).
    + vm_compute. reflexivity.
    + reflexivity.
    + reflexivity.
    + reflexivity.
    + simpl. lia.
    + simpl. lia.
  - eapply (proj2 (proj2 (proj2 (cpd_failure decimal parse_decimal
                                   garbled_network
                                   [(Some "b", [Some "t"; Some "f"])])))
              [] [] _ _ "0.5 half" "half").
    + reflexivity.
    + constructor.
    + simpl. discriminate.
    + reflexivity.
    + vm_compute. auto.
    + reflexivity.
Defined.

(** ** The tree that the writer builds *)

Lemma SubElement_children (p : Element) (t : string)
      (a : list (string * string)) (txt : option string) :
  SubElement p t a txt = set_children p (children p ++ [mkElement t a txt None []]).
Proof. reflexivity. Qed.

Lemma SubElement_at_tags (network : Element) (ref : nat) (t txt : string) :
  map tag (children (SubElement_at network ref t txt)) =
  map tag (children network).
Proof.
  unfold SubElement_at. simpl. generalize (children network) as cs.
  intros cs. revert ref. induction cs as [|c cs IH]; intros [|ref]; simpl;
    try reflexivity.
  f_equal. apply IH.
Qed.

Lemma SubElement_at_unnamed (network : Element) (ref : nat) (t txt : string) :
  t <> "NAME" -> unnamed_children network ->
  unnamed_children (SubElement_at network ref t txt).
Proof.
  intros Ht Hn. unfold unnamed_children, SubElement_at. simpl.
  apply Forall_alter; [exact Hn|].
  intros e _ He. simpl. apply Forall_app. split; [exact He|].
  constructor; [exact Ht | constructor].
Qed.

(** Filling the element that was appended last. *)
Lemma SubElement_at_last (network e : Element) (cs : list Element)
      (t txt : string) :
  SubElement_at (set_children network (cs ++ [e])) (length cs) t txt =
  set_children network (cs ++ [append_child e (leaf t txt)]).
Proof.
  unfold SubElement_at. simpl. f_equal.
  rewrite <- (Nat.add_0_r (length cs)), alter_app_r. reflexivity.
Qed.

Lemma fold_SubElement_at_last (network e : Element) (cs : list Element)
      (t : string) (txts : list string) :
  fold_left (fun net txt => SubElement_at net (length cs) t txt) txts
            (set_children network (cs ++ [e])) =
  set_children network
    (cs ++ [set_children e (children e ++ map (leaf t) txts)]).
Proof.
  revert e. induction txts as [|txt txts IH]; intros e; simpl.
  - rewrite app_nil_r. destruct e; reflexivity.
  - rewrite SubElement_at_last, IH. simpl.
    rewrite <- app_assoc. reflexivity.
Qed.

(** The first loop of [add_variables] appends one empty VARIABLE element per
    variable, in sorted order, and records where. *)
Lemma new_variables_fold (l : list string) (network : Element)
      (variable_tag : dict string nat) :
  let st := fold_left
              (fun (st : Element * dict string nat) var =>
                 (SubElement (fst st) "VARIABLE" [("TYPE", "nature")] None,
                  dict_set (snd st) var (length (children (fst st)))))
              l (network, variable_tag) in
  fst st =
    set_children network (children network ++ map (fun _ => variable_element) l)
  /\ (forall v i, dict_get (snd st) v = Some i ->
                  dict_get variable_tag v = Some i \/
                  (length (children network) <= i /\
                   l !! (i - length (children network)) = Some v))
  /\ (forall v, dict_get (snd st) v <> None <->
                dict_get variable_tag v <> None \/ In v l).
Proof.
  revert network variable_tag.
  induction l as [|x l IH]; intros network variable_tag; simpl.
  - rewrite app_nil_r. repeat split.
    + destruct network; reflexivity.
    + auto.
    + tauto.
    + tauto.
  - specialize (IH (SubElement network "VARIABLE" [("TYPE", "nature")] None)
                   (dict_set variable_tag x (length (children network)))).
    simpl in IH. destruct IH as (Hnet & Hpos & Hkeys).
    rewrite length_app in Hpos. simpl in Hpos.
    repeat split.
    + rewrite Hnet. unfold set_children. simpl.
      rewrite <- app_assoc. reflexivity.
    + intros v i Hv. destruct (Hpos v i Hv) as [Hset|[Hle Hl]].
      * destruct (decide (x = v)) as [->|Hne].
        -- rewrite dict_get_set_eq in Hset. injection Hset as <-.
           right. split; [lia|]. rewrite Nat.sub_diag. reflexivity.
        -- rewrite dict_get_set_ne in Hset by exact Hne. left. exact Hset.
      * right. split; [lia|].
        replace (i - length (children network))
          with (S (i - (length (children network) + 1))) by lia.
        exact Hl.
    + intros Hv. apply Hkeys in Hv as [Hset|Hin]; [|auto].
      destruct (decide (x = v)) as [->|Hne]; [auto|].
      rewrite dict_get_set_ne in Hset by exact Hne. auto.
    + intros Hv. apply Hkeys.
      destruct (decide (x = v)) as [->|Hne].
      * left. rewrite dict_get_set_eq. discriminate.
      * rewrite dict_get_set_ne by exact Hne.
        destruct Hv as [Hv|[Hx|Hin]]; [auto | contradiction | auto].
Qed.

Lemma add_texts_inner (variable_tag : dict string nat) (t k : string)
      (txts : list string) (network : Element) :
  foldM (fun net' txt =>
           ref <- dict_item variable_tag k ;;
           Ok (SubElement_at net' ref t txt)) txts network =
  match txts with
  | [] => Ok network
  | _ :: _ =>
      ref <- dict_item variable_tag k ;;
      Ok (fold_left (fun n txt => SubElement_at n ref t txt) txts network)
  end.
Proof.
  destruct txts as [|txt txts]; [reflexivity|].
  unfold dict_item. destruct (dict_get variable_tag k) as [ref|];
    [|reflexivity].
  generalize (txt :: txts) as l. intros l. revert network.
  induction l as [|x l IH]; intros network; simpl; [reflexivity | apply IH].
Qed.

Lemma fold_SubElement_at_invariant (P : Element -> Prop) (t : string)
      (ref : nat) (txts : list string) (network : Element) :
  (forall n ref' txt, P n -> P (SubElement_at n ref' t txt)) ->
  P network ->
  P (fold_left (fun n txt => SubElement_at n ref t txt) txts network).
Proof.
  intros Hstep. revert network.
  induction txts as [|x l IH]; intros network HP; simpl; [exact HP|].
  apply IH, Hstep, HP.
Qed.

(** What every [SubElement] on a child of the network preserves, the loops
    of [add_variables] preserve. *)
Lemma add_texts_invariant (P : Element -> Prop)
      (variable_tag : dict string nat) (t : string)
      (entries : dict string (list string)) (network network' : Element) :
  (forall n ref txt, P n -> P (SubElement_at n ref t txt)) ->
  P network ->
  add_texts variable_tag t entries network = Ok network' ->
  P network'.
Proof.
  intros Hstep. unfold add_texts. revert network.
  induction entries as [|[k txts] entries IH]; simpl; intros network HP.
  - intros [= <-]. exact HP.
  - intros H. apply bind_Ok in H as (net1 & Hinner & Hrest).
    apply (IH net1); [|exact Hrest]. clear Hrest IH.
    rewrite add_texts_inner in Hinner.
    destruct txts as [|txt txts]; [injection Hinner as <-; exact HP|].
    apply bind_Ok in Hinner as (ref & _ & Hfold). injection Hfold as <-.
    apply fold_SubElement_at_invariant; [exact Hstep | apply Hstep, HP].
Qed.

Lemma existsb_eqb_In (v : string) (vars : list string) :
  existsb (String.eqb v) vars = true <-> In v vars.
Proof.
  rewrite existsb_exists. split.
  - intros (x & Hx & Heq). apply String.eqb_eq in Heq. subst. exact Hx.
  - intros Hv. exists v. split; [exact Hv | apply String.eqb_refl].
Qed.

(** The loops of [add_variables] return exactly when every key with a text
    is a variable, whatever the network is. *)
Lemma add_texts_succeeds (vars : list string)
      (variable_tag : dict string nat) (t : string)
      (entries : dict string (list string)) (network : Element) :
  (forall v, dict_get variable_tag v <> None <-> In v vars) ->
  succeeds (add_texts variable_tag t entries network) = entries_ok vars entries.
Proof.
  intros Hkeys. unfold add_texts. revert network.
  induction entries as [|[k txts] entries IH]; simpl; intros network;
    [reflexivity|].
  rewrite add_texts_inner. destruct txts as [|txt txts]; simpl; [apply IH|].
  unfold dict_item.
  destruct (dict_get variable_tag k) as [ref|] eqn:Hk; simpl.
  - rewrite IH. symmetry.
    replace (existsb (String.eqb k) vars) with true; [reflexivity|].
    symmetry. apply existsb_eqb_In, Hkeys. congruence.
  - symmetry. apply andb_false_iff. left.
    apply not_true_is_false. intros Hin.
    apply existsb_eqb_In, Hkeys in Hin. contradiction.
Qed.

Lemma new_definition_Ok (parents : dict string (list string))
      (st : Element * dict string nat) (var : string) (given : list string) :
  dict_get parents var = Some given ->
  new_definition parents st var =
  Ok (set_children (fst st)
                   (children (fst st) ++ [definition_element var given]),
      dict_set (snd st) var (length (children (fst st)))).
Proof.
  intros Hgiven. unfold new_definition, dict_item. rewrite Hgiven. simpl.
  rewrite SubElement_children, SubElement_at_last, fold_SubElement_at_last.
  reflexivity.
Qed.

Lemma add_definition_fold (parents : dict string (list string))
      (l : list string) (network : Element)
      (definition_tag : dict string nat) :
  (forall v, In v l -> dict_get parents v <> None) ->
  exists definition_tag',
    foldM (new_definition parents) l (network, definition_tag) =
    Ok (set_children network
          (children network ++
           map (fun v => definition_element
                           v (default [] (dict_get parents v))) l),
        definition_tag').
Proof.
  revert network definition_tag.
  induction l as [|x l IH]; intros network definition_tag Hl; simpl.
  - rewrite app_nil_r. exists definition_tag. destruct network; reflexivity.
  - destruct (dict_get parents x) as [given|] eqn:Hx;
      [|exfalso; apply (Hl x (or_introl eq_refl) Hx)].
    rewrite (new_definition_Ok _ _ _ _ Hx). simpl.
    destruct (IH (set_children network
                    (children network ++ [definition_element x given]))
                 (dict_set definition_tag x (length (children network))))
      as (dt' & Hdt); [intros v Hv; apply Hl; right; exact Hv|].
    exists dt'. rewrite Hdt. simpl. rewrite <- app_assoc. reflexivity.
Qed.

Lemma add_definition_Ok (model : model_data) (network : Element)
      (parents : dict string (list string)) :
  m_parents model = Some parents ->
  exists definition_tag,
    add_definition model network =
    Ok (set_children network
          (children network ++
           map (fun v => definition_element
                           v (default [] (dict_get parents v)))
               (sorted (dict_keys parents))),
        definition_tag).
Proof.
  intros Hp. unfold add_definition. rewrite Hp. simpl.
  apply add_definition_fold. intros v Hv.
  apply (proj1 (sorted_In _ _)) in Hv. intros Hnone.
  exact (proj1 (dict_get_None _ _) Hnone Hv).
Qed.

Lemma new_variables_spec (vars : list string) (network : Element) :
  fst (new_variables vars network) =
    set_children network
      (children network ++ map (fun _ => variable_element) (sorted vars))
  /\ (forall v i, dict_get (snd (new_variables vars network)) v = Some i ->
                  length (children network) <= i /\
                  sorted vars !! (i - length (children network)) = Some v)
  /\ (forall v, dict_get (snd (new_variables vars network)) v <> None <->
                In v vars).
Proof.
  destruct (new_variables_fold (sorted vars) network [])
    as (Hnet & Hpos & Hkeys).
  unfold new_variables. split; [exact Hnet | split].
  - intros v i Hv. destruct (Hpos v i Hv) as [Hempty|H];
      [discriminate | exact H].
  - intros v. rewrite Hkeys, sorted_In. simpl. tauto.
Qed.

Lemma set_children_unnamed (network : Element) (cs : list Element) :
  unnamed_children network ->
  Forall (fun e => Forall (fun c => tag c <> "NAME") (children e)) cs ->
  unnamed_children (set_children network (children network ++ cs)).
Proof.
  intros Hn Hcs. unfold unnamed_children. simpl.
  apply Forall_app. split; assumption.
Qed.

(** The network after [add_variables]. *)
Lemma add_variables_tree (model : model_data) (network net : Element)
      (variable_tag : dict string nat) (vars : list string) :
  add_variables model network = Ok (net, variable_tag) ->
  m_variables model = Some vars ->
  tag net = tag network /\
  map tag (children net) =
    map tag (children network) ++ map (fun _ => "VARIABLE") (sorted vars) /\
  (unnamed_children network -> unnamed_children net) /\
  (forall v i, dict_get variable_tag v = Some i ->
               length (children network) <= i /\
               sorted vars !! (i - length (children network)) = Some v) /\
  (forall v, dict_get variable_tag v <> None <-> In v vars).
Proof.
  intros Hadd Hvars. unfold add_variables in Hadd. rewrite Hvars in Hadd.
  simpl in Hadd.
  apply bind_Ok in Hadd as (states & _ & Hadd).
  apply bind_Ok in Hadd as (net1 & Hout & Hadd).
  apply bind_Ok in Hadd as (property & _ & Hadd).
  apply bind_Ok in Hadd as (net2 & Hprop & Hadd).
  injection Hadd as <- <-.
  destruct (new_variables_spec vars network) as (Hnet & Hpos & Hkeys).
  set (P := fun n : Element =>
              tag n = tag network /\
              map tag (children n) =
                map tag (children network) ++
                map (fun _ => "VARIABLE") (sorted vars) /\
              (unnamed_children network -> unnamed_children n)).
  assert (Hstep : forall t, t <> "NAME" ->
                  forall n ref txt, P n -> P (SubElement_at n ref t txt)).
  { intros t Ht n ref txt (H1 & H2 & H3). repeat split.
    - exact H1.
    - rewrite SubElement_at_tags. exact H2.
    - intros Hn. apply SubElement_at_unnamed; auto. }
  assert (H0 : P (fst (new_variables vars network))).
  { rewrite Hnet. repeat split.
    - simpl. rewrite map_app, map_map. reflexivity.
    - intros Hn. apply set_children_unnamed; [exact Hn|].
      apply Forall_forall. intros e He.
      apply list_elem_of_In, in_map_iff in He as (x & <- & _). constructor. }
  assert (H1 : P net1).
  { apply (add_texts_invariant P _ "OUTCOME" _ _ _
             (Hstep "OUTCOME" ltac:(discriminate)) H0 Hout). }
  assert (H2 : P net2).
  { apply (add_texts_invariant P _ "PROPERTY" _ _ _
             (Hstep "PROPERTY" ltac:(discriminate)) H1 Hprop). }
  destruct H2 as (Ht & Htags & Hun).
  split; [exact Ht | split; [exact Htags | split; [exact Hun|]]].
  split; [exact Hpos | exact Hkeys].
Qed.

Lemma definition_element_unnamed (v : string) (given : list string) :
  Forall (fun c => tag c <> "NAME") (children (definition_element v given)).
Proof.
  simpl. constructor; [discriminate|].
  apply Forall_forall. intros c Hc.
  apply list_elem_of_In, in_map_iff in Hc as (x & <- & _). discriminate.
Qed.

(** The tree of a writer: the optional NAME, one VARIABLE element per
    variable in sorted order, whose children are not NAME elements, and then
    one DEFINITION element per key of the parents in sorted order. *)
Lemma writer_tree (model : model_data) (encoding : string)
      (prettyprint : bool) (w : XMLBIFWriter) :
  XMLBIFWriter_init model encoding prettyprint = Ok w ->
  exists vars parents head,
    m_variables model = Some vars /\
    m_parents model = Some parents /\
    tag (w_network w) = "NETWORK" /\
    children (w_network w) =
      head ++ map (fun v => definition_element
                              v (default [] (dict_get parents v)))
                  (sorted (dict_keys parents)) /\
    map tag head = name_tags model ++ map (fun _ => "VARIABLE") (sorted vars) /\
    unnamed_children (w_network w) /\
    (forall v i, dict_get (w_variables w) v = Some i ->
                 length (name_tags model) <= i /\
                 sorted vars !! (i - length (name_tags model)) = Some v) /\
    (forall v, dict_get (w_variables w) v <> None <-> In v vars).
Proof.
  intros Hinit. unfold XMLBIFWriter_init in Hinit.
  apply bind_Ok in Hinit as ([net vt] & Hvars & Hinit).
  apply bind_Ok in Hinit as ([net' dt] & Hdefs & Hinit).
  injection Hinit as <-. simpl in *.
  destruct (m_variables model) as [vars|] eqn:Hv;
    [|unfold add_variables in Hvars; rewrite Hv in Hvars; discriminate].
  destruct (m_parents model) as [parents|] eqn:Hp;
    [|unfold add_definition in Hdefs; rewrite Hp in Hdefs; discriminate].
  destruct (add_definition_Ok model net parents Hp) as (dt' & Hdefs').
  rewrite Hdefs' in Hdefs. injection Hdefs as <- <-.
  set (network0 := match m_network_name model with
                   | Some n => SubElement (new_element "NETWORK" []) "NAME" []
                                          (Some n)
                   | None => new_element "NETWORK" []
                   end) in *.
  assert (Htag0 : tag network0 = "NETWORK")
    by (unfold network0; destruct (m_network_name model); reflexivity).
  assert (Htags0 : map tag (children network0) = name_tags model)
    by (unfold network0, name_tags; destruct (m_network_name model);
        reflexivity).
  assert (Hun0 : unnamed_children network0).
  { unfold network0, unnamed_children.
    destruct (m_network_name model); simpl; repeat constructor. }
  destruct (add_variables_tree model network0 net vt vars Hvars Hv)
    as (Htag & Htags & Hun & Hpos & Hkeys).
  assert (Hlen : length (children network0) = length (name_tags model))
    by (rewrite <- Htags0, length_map; reflexivity).
  exists vars, parents, (children net). simpl.
  repeat split.
  - congruence.
  - rewrite Htags, Htags0. reflexivity.
  - apply set_children_unnamed; [apply Hun, Hun0|].
    apply Forall_forall. intros e He.
    apply list_elem_of_In, in_map_iff in He as (x & <- & _).
    apply definition_element_unnamed.
  - rewrite <- Hlen. apply (Hpos v i H).
  - rewrite <- Hlen. apply (Hpos v i H).
  - apply Hkeys.
  - apply Hkeys.
Qed.

(** ** What the reader finds in a tree *)

Lemma filter_all {A : Type} (f : A -> bool) (l : list A) :
  (forall x, In x l -> f x = true) -> List.filter f l = l.
Proof.
  induction l as [|x l IH]; simpl; intros H; [reflexivity|].
  rewrite (H x) by auto. f_equal. apply IH. auto.
Qed.

Lemma filter_none {A : Type} (f : A -> bool) (l : list A) :
  (forall x, In x l -> f x = false) -> List.filter f l = [].
Proof.
  induction l as [|x l IH]; simpl; intros H; [reflexivity|].
  rewrite (H x) by auto. apply IH. auto.
Qed.

Lemma find_none (e : Element) (t : string) :
  Forall (fun c => tag c <> t) (children e) -> find e t = None.
Proof.
  unfold find. induction 1 as [|c cs Hc _ IH]; simpl; [reflexivity|].
  unfold has_tag at 1. apply String.eqb_neq in Hc. rewrite Hc. exact IH.
Qed.

Lemma In_tags (e : Element) (l : list Element) (tags : list string) :
  map tag l = tags -> In e l -> In (tag e) tags.
Proof. intros <- He. apply in_map, He. Qed.

(** The children of the network before the DEFINITION elements are the
    NAME and the VARIABLE elements. *)
Lemma head_tags (model : model_data) (vars : list string) (head : list Element)
      (e : Element) :
  map tag head = name_tags model ++ map (fun _ => "VARIABLE") (sorted vars) ->
  In e head -> tag e = "NAME" \/ tag e = "VARIABLE".
Proof.
  intros Htags He. apply (In_tags _ _ _ Htags) in He.
  apply in_app_or in He as [Hn|Hv].
  - left. unfold name_tags in Hn. destruct (m_network_name model);
      simpl in Hn; [|contradiction]. destruct Hn as [Hn|[]]. congruence.
  - right. apply in_map_iff in Hv as (x & Hx & _). congruence.
Qed.

Lemma findall_head_variables (model : model_data) (vars : list string)
      (head : list Element) :
  map tag head = name_tags model ++ map (fun _ => "VARIABLE") (sorted vars) ->
  length (List.filter (has_tag "VARIABLE") head) = length vars.
Proof.
  intros Htags. rewrite <- (sorted_length vars).
  assert (Hlen : forall l : list Element,
             length (List.filter (has_tag "VARIABLE") l) =
             length (List.filter (fun s => String.eqb s "VARIABLE") (map tag l))).
  { induction l as [|x l IH]; simpl; [reflexivity|].
    unfold has_tag at 1. destruct (String.eqb (tag x) "VARIABLE"); simpl;
      rewrite IH; reflexivity. }
  rewrite Hlen, Htags, List.filter_app, length_app.
  rewrite (filter_none _ (name_tags model)).
  - rewrite filter_all; [simpl; apply length_map|].
    intros s Hs. apply in_map_iff in Hs as (x & <- & _). reflexivity.
  - intros s Hs. unfold name_tags in Hs.
    destruct (m_network_name model); simpl in Hs; [|contradiction].
    destruct Hs as [<-|[]]. reflexivity.
Qed.

(** ** The writer leaves the VARIABLE elements without a NAME *)

(** C2 fails on the code.  Whatever the record is, the tree of the writer
    has one VARIABLE element per variable and none of them has a NAME child:
    [add_variables] never creates one. *)
Theorem writer_omits_variable_name (model : model_data) (encoding : string)
        (prettyprint : bool) (w : XMLBIFWriter) :
  XMLBIFWriter_init model encoding prettyprint = Ok w ->
  exists vars,
    m_variables model = Some vars /\
    length (findall (w_network w) "VARIABLE") = length vars /\
    Forall (fun e => find e "NAME" = None) (findall (w_network w) "VARIABLE").
Proof.
  intros Hinit.
  destruct (writer_tree _ _ _ _ Hinit)
    as (vars & parents & head & Hv & Hp & Htag & Hch & Htags & Hun & _).
  exists vars. split; [exact Hv | split].
  - unfold findall. rewrite Hch, List.filter_app, length_app.
    rewrite (findall_head_variables _ _ _ Htags).
    rewrite filter_none; [simpl; lia|].
    intros e He. apply in_map_iff in He as (x & <- & _). reflexivity.
  - apply Forall_forall. intros e He.
    apply list_elem_of_In, filter_In in He as [He _].
    apply find_none. unfold unnamed_children in Hun.
    rewrite Forall_forall in Hun. apply Hun, list_elem_of_In, He.
Qed.

Lemma writer_omits_variable_name_witness :
  exists w,
    XMLBIFWriter_init sample_model "utf-8" true = Ok w /\
    exists vars,
      m_variables sample_model = Some vars /\
      length (findall (w_network w) "VARIABLE") = length vars /\
      Forall (fun e => find e "NAME" = None)
             (findall (w_network w) "VARIABLE").
Proof.
  eexists. split; [vm_compute; reflexivity|].
  eapply (writer_omits_variable_name sample_model "utf-8" true).
  vm_compute. reflexivity.
Defined.

(** ** The order of the elements that the writer creates *)

Lemma lookup_map {A B : Type} (f : A -> B) (l : list A) (i : nat) :
  map f l !! i = option_map f (l !! i).
Proof.
  revert i. induction l as [|x l IH]; intros [|i]; simpl; try reflexivity.
  apply IH.
Qed.

Lemma ltb_not_ge (a b : string) : String.ltb a b = true -> ~ str_le b a.
Proof.
  unfold str_le, String.ltb, String.leb. rewrite (String.compare_antisym a b).
  destruct (String.compare b a); simpl; congruence.
Qed.

Lemma definition_element_given (v : string) (given : list string) :
  map text (findall (definition_element v given) "GIVEN") =
  map Some (sorted given).
Proof.
  unfold findall. simpl. rewrite filter_all.
  - rewrite map_map. reflexivity.
  - intros c Hc. apply in_map_iff in Hc as (x & <- & _). reflexivity.
Qed.

(** ** The network name *)

(** A writer is built exactly from the records that have the four keys
    and whose states and properties belong to variables: the network name
    plays no part. *)
Lemma writer_succeeds (model : model_data) (encoding : string)
      (prettyprint : bool) :
  succeeds (XMLBIFWriter_init model encoding prettyprint) = writer_ok model.
Proof.
  unfold XMLBIFWriter_init, writer_ok, add_variables.
  destruct (m_variables model) as [vars|]; simpl; [|reflexivity].
  destruct (m_states model) as [states|]; simpl; [|reflexivity].
  match goal with
  | |- context [add_texts ?vt "OUTCOME" states ?net] =>
      pose proof (add_texts_succeeds vars vt "OUTCOME" states net
                    (proj2 (proj2 (new_variables_spec vars _)))) as Hout;
      destruct (add_texts vt "OUTCOME" states net) as [net1|e]
  end; simpl in Hout |- *; rewrite <- Hout;
    [|destruct (m_property model); [destruct (m_parents model)|];
      reflexivity].
  destruct (m_property model) as [property|]; simpl; [|reflexivity].
  match goal with
  | |- context [add_texts ?vt "PROPERTY" property net1] =>
      pose proof (add_texts_succeeds vars vt "PROPERTY" property net1
                    (proj2 (proj2 (new_variables_spec vars _)))) as Hprop;
      destruct (add_texts vt "PROPERTY" property net1) as [net2|e]
  end; simpl in Hprop |- *; rewrite <- Hprop;
    [|destruct (m_parents model); reflexivity].
  destruct (m_parents model) as [parents|] eqn:Hp.
  - destruct (add_definition_Ok model net2 parents Hp) as (dt & ->).
    reflexivity.
  - unfold add_definition. rewrite Hp. reflexivity.
Qed.

(** C9, as amended.  For the writer a record without ['network_name'] is as
    good as one with it, and the NETWORK element then has no NAME child.
    The reader fails with an [AttributeError] on a NETWORK element without
    NAME child; when the NAME child is there, the network name is its text,
    which is [None] for an empty element. *)
Theorem missing_network_name :
  (forall model encoding prettyprint,
      m_network_name model = None ->
      (forall n, succeeds (XMLBIFWriter_init model encoding prettyprint) =
                 succeeds (XMLBIFWriter_init (with_network_name n model)
                                             encoding prettyprint)) /\
      (forall w, XMLBIFWriter_init model encoding prettyprint = Ok w ->
                 find (w_network w) "NAME" = None)) /\
  (forall float py_float network,
      find network "NAME" = None ->
      reader_of_network float py_float (Some network) = Raise AttributeError) /\
  (forall float py_float network e r,
      find network "NAME" = Some e ->
      reader_of_network float py_float (Some network) = Ok r ->
      network_name float r = text e).
Proof.
  split; [|split].
  - intros model encoding prettyprint Hname. split.
    + intros n. rewrite !writer_succeeds. reflexivity.
    + intros w Hinit.
      destruct (writer_tree _ _ _ _ Hinit)
        as (vars & parents & head & _ & _ & _ & Hch & Htags & _).
      apply find_none. rewrite Hch. apply Forall_app. split.
      * apply Forall_forall. intros e He. apply list_elem_of_In in He.
        apply (In_tags _ _ _ Htags) in He.
        unfold name_tags in He. rewrite Hname in He. simpl in He.
        apply in_map_iff in He as (x & Hx & _). rewrite <- Hx. discriminate.
      * apply Forall_forall. intros e He.
        apply list_elem_of_In, in_map_iff in He as (x & <- & _). discriminate.
  - intros float py_float network Hname. unfold reader_of_network. simpl.
    rewrite Hname. reflexivity.
  - intros float py_float network e r Hname. unfold reader_of_network. simpl.
    rewrite Hname. simpl. intros H.
    repeat (apply bind_Ok in H as (? & _ & H)).
    injection H as <-. reflexivity.
Qed.

Lemma missing_network_name_witness :
  succeeds (XMLBIFWriter_init (with_network_name None sample_model)
                              "utf-8" true) = true /\
  reader_of_network decimal parse_decimal
                    (find nameless_root "NETWORK") = Raise AttributeError.
Proof.
  split.
  - rewrite (proj1 (proj1 missing_network_name
                      (with_network_name None sample_model) "utf-8" true
                      eq_refl) (Some "Dog-Problem")).
    vm_compute. reflexivity.
  - apply (proj1 (proj2 missing_network_name)). reflexivity.
Defined.

(** C9 as stated fails for the reader: this document has no NAME under
    NETWORK and the construction of the reader raises [AttributeError]. *)
Lemma reader_without_network_name_counterexample :
  find_in (find nameless_root "NETWORK") "NAME" = Ok None /\
  XMLBIFReader_init decimal parse_decimal sample_parse_file
                    (one_document nameless_text nameless_root)
                    None (Some nameless_text) = Raise AttributeError.
Proof. split; vm_compute; reflexivity. Qed.

(** The same document with an empty NAME element is read, and the network
    name is unset. *)
Lemma reader_empty_network_name :
  exists r,
    reader_of_network decimal parse_decimal
      (Some (node "NETWORK"
               [node "NAME" [];
                node "VARIABLE" [leaf "NAME" "a"; leaf "OUTCOME" "true"];
                node "DEFINITION" [leaf "FOR" "a"; leaf "TABLE" "1.0"]])) =
    Ok r /\ network_name decimal r = None.
Proof. eexists. split; [vm_compute; reflexivity | reflexivity]. Qed.

(** ** Writing and reading back *)

(** The tree that [__str__] serializes for the record with one variable is
    the tree that the library parses from the text, but for the tail of
    the root. *)
Lemma tiny_str_tree :
  (w <- XMLBIFWriter_init tiny_model "utf-8" true ;; Ok (str_tree w)) =
  Ok (set_tail tiny_parsed (nl 0)).
Proof. vm_compute. reflexivity. Qed.

Lemma indent_tag (e : Element) (level : nat) : tag (indent e level) = tag e.
Proof.
  destruct e as [t a tx tl [|c cs]]; simpl; [|reflexivity].
  destruct (negb (level =? 0)%nat && blank tl); reflexivity.
Qed.

Lemma map_set_last_tail {B : Type} (f : Element -> B) (i : string)
      (l : list Element) :
  (forall c s, f (set_tail c s) = f c) ->
  map f (set_last_tail i l) = map f l.
Proof.
  intros Hf. induction l as [|c [|c' l] IH]; simpl; [reflexivity| |].
  - destruct (blank (tail c)); [rewrite Hf|]; reflexivity.
  - f_equal. exact IH.
Qed.

Lemma indent_children (e : Element) (level : nat) :
  children (indent e level) =
  set_last_tail (newline ++ spaces level)%string
                (map (fun c => indent c (S level)) (children e)).
Proof.
  destruct e as [t a tx tl [|c cs]]; [|reflexivity].
  simpl. destruct (negb (level =? 0)%nat && blank tl); reflexivity.
Qed.

Lemma indent_child_tags (e : Element) (level : nat) :
  map tag (children (indent e level)) = map tag (children e).
Proof.
  rewrite indent_children, (map_set_last_tail tag) by reflexivity.
  rewrite map_map. apply map_ext. intros x. apply indent_tag.
Qed.

Lemma indent_child_shape (e : Element) (level : nat) :
  child_shape (indent e level) = child_shape e.
Proof. unfold child_shape. rewrite indent_tag, indent_child_tags. reflexivity. Qed.

(** [indent] changes texts and tails only. *)
Lemma indent_skeleton (e : Element) (level : nat) :
  skeleton (indent e level) = skeleton e.
Proof.
  unfold skeleton. rewrite indent_tag. f_equal.
  rewrite indent_children, (map_set_last_tail child_shape) by reflexivity.
  rewrite map_map. apply map_ext. intros x. apply indent_child_shape.
Qed.

Lemma set_tail_skeleton (e : Element) (s : option string) :
  skeleton (set_tail e s) = skeleton e.
Proof. reflexivity. Qed.

(** The NETWORK element of the tree that is serialized has the tags of the
    NETWORK element that the writer built. *)
Lemma str_tree_network (w : XMLBIFWriter) :
  tag (w_network w) = "NETWORK" ->
  exists n, find (str_tree w) "NETWORK" = Some n /\
            skeleton n = skeleton (w_network w).
Proof.
  intros Htag. unfold str_tree. destruct (w_prettyprint w).
  - unfold w_xml. simpl. unfold find. simpl.
    destruct (blank (tail (indent (w_network w) 1))); unfold has_tag; simpl;
      rewrite indent_tag, Htag; simpl; eexists; (split; [reflexivity|]).
    + rewrite set_tail_skeleton. apply indent_skeleton.
    + apply indent_skeleton.
  - unfold w_xml, find. simpl. unfold has_tag. rewrite Htag. simpl.
    eexists. split; reflexivity.
Qed.

Lemma find_no_tag (e : Element) (t : string) :
  ~ In t (map tag (children e)) -> find e t = None.
Proof.
  intros Hn. apply find_none. apply Forall_forall. intros c Hc Heq.
  apply Hn. rewrite <- Heq. apply in_map, list_elem_of_In, Hc.
Qed.

Lemma get_variables_anonymous (network : Element) :
  anonymous_variable (skeleton network) ->
  get_variables network = Raise AttributeError.
Proof.
  intros (p & Hp & Htag & Hname). simpl in Hp.
  apply in_map_iff in Hp as (c & <- & Hc). simpl in Htag, Hname.
  assert (Hfail : succeeds (get_variables network) = false).
  { unfold get_variables. apply (traverse_fails _ _ c).
    - apply filter_In. split; [exact Hc|].
      unfold has_tag. rewrite Htag. reflexivity.
    - rewrite (find_no_tag _ _ Hname). reflexivity. }
  destruct (get_variables network) as [vs|e] eqn:Hg; [discriminate|].
  apply get_variables_raises in Hg as ->. reflexivity.
Qed.

Lemma writer_anonymous_variable (model : model_data) (encoding : string)
      (prettyprint : bool) (w : XMLBIFWriter) (v : string)
      (vs : list string) :
  XMLBIFWriter_init model encoding prettyprint = Ok w ->
  m_variables model = Some (v :: vs) ->
  anonymous_variable (skeleton (w_network w)).
Proof.
  intros Hinit Hvars.
  destruct (writer_tree _ _ _ _ Hinit)
    as (vars & parents & head & Hv & _ & _ & Hch & Htags & Hun & _).
  rewrite Hvars in Hv. injection Hv as <-.
  assert (Hin : In "VARIABLE" (map tag head)).
  { rewrite Htags. apply in_or_app. right.
    destruct (sorted (v :: vs)) as [|x l] eqn:Hs.
    - apply (f_equal (@length string)) in Hs.
      rewrite sorted_length in Hs. discriminate.
    - left. reflexivity. }
  apply in_map_iff in Hin as (e & Htag & He).
  exists (child_shape e). split; [|split; [exact Htag|]].
  - simpl. apply in_map. rewrite Hch. apply in_or_app. left. exact He.
  - simpl. intros Hname. apply in_map_iff in Hname as (c & Hc & Hcin).
    unfold unnamed_children in Hun. rewrite Forall_forall in Hun.
    assert (He' : e ∈ children (w_network w)).
    { rewrite Hch. apply list_elem_of_In, in_or_app. left. exact He. }
    specialize (Hun e He'). rewrite Forall_forall in Hun.
    apply (Hun c); [apply list_elem_of_In, Hcin | exact Hc].
Qed.

(** C1 fails on the code.  Let [s] be the text of a writer built from a
    record with at least one variable, and let the library parse it to a
    tree whose NETWORK element has the tags of the one that was written.
    Then the construction of a reader from [s] raises [AttributeError]:
    the VARIABLE elements have no NAME child, so that neither [variables()]
    nor [states()] is ever obtained. *)
Theorem write_then_read_raises (float : Type)
        (py_float : string -> option float)
        (parse_file fromstring : string -> result Element)
        (model : model_data) (encoding : string) (prettyprint : bool)
        (w : XMLBIFWriter) (v : string) (vs : list string) (s : string)
        (root : Element) :
  XMLBIFWriter_init model encoding prettyprint = Ok w ->
  m_variables model = Some (v :: vs) ->
  truthy (Some s) = true ->
  fromstring s = Ok root ->
  option_map skeleton (find root "NETWORK") =
    option_map skeleton (find (str_tree w) "NETWORK") ->
  XMLBIFReader_init float py_float parse_file fromstring None (Some s) =
    Raise AttributeError.
Proof.
  intros Hinit Hvars Hs Hroot Hshape.
  rewrite reader_init_string by (reflexivity || exact Hs).
  simpl. rewrite Hroot. simpl.
  destruct (writer_tree _ _ _ _ Hinit) as (_ & _ & _ & _ & _ & Htag & _).
  destruct (str_tree_network w Htag) as (n & Hn & Hsk).
  rewrite Hn in Hshape.
  destruct (find root "NETWORK") as [net|]; [|discriminate].
  simpl in Hshape. injection Hshape as Ht Hc.
  assert (Hanon : anonymous_variable (skeleton net)).
  { assert (Heq : skeleton net = skeleton (w_network w))
      by (rewrite <- Hsk; unfold skeleton; congruence).
    rewrite Heq. eapply writer_anonymous_variable; eassumption. }
  unfold reader_of_network. simpl.
  destruct (find net "NAME"); simpl; [|reflexivity].
  rewrite (get_variables_anonymous _ Hanon). reflexivity.
Qed.

Lemma write_then_read_raises_witness :
  XMLBIFReader_init decimal parse_decimal sample_parse_file
                    (one_document tiny_text tiny_parsed)
                    None (Some tiny_text) = Raise AttributeError.
Proof.
  eapply (write_then_read_raises decimal parse_decimal sample_parse_file
            (one_document tiny_text tiny_parsed)
            tiny_model "utf-8" true _ "a" [] tiny_text tiny_parsed).
  - vm_compute. reflexivity.
  - reflexivity.
  - reflexivity.
  - vm_compute. reflexivity.
  - vm_compute. reflexivity.
Defined.

(** ** The children of the VARIABLE elements *)

Lemma add_leaves_nil (e : Element) (t : string) : add_leaves e t [] = e.
Proof. unfold add_leaves. simpl. rewrite app_nil_r. destruct e; reflexivity. Qed.

Lemma add_leaves_app (e : Element) (t : string) (l1 l2 : list string) :
  add_leaves (add_leaves e t l1) t l2 = add_leaves e t (l1 ++ l2).
Proof.
  unfold add_leaves, set_children. simpl.
  rewrite map_app, app_assoc. reflexivity.
Qed.

Lemma fold_SubElement_at_lookup (network e : Element) (ref i : nat)
      (t : string) (txts : list string) :
  children network !! i = Some e ->
  children (fold_left (fun n txt => SubElement_at n ref t txt) txts network)
    !! i =
  Some (if decide (ref = i) then add_leaves e t txts else e).
Proof.
  revert network e. induction txts as [|x l IH]; intros network e He; simpl.
  - rewrite He, add_leaves_nil. destruct (decide (ref = i)); reflexivity.
  - rewrite (IH _ (if decide (ref = i) then add_leaves e t [x] else e)).
    + destruct (decide (ref = i)); [|reflexivity].
      rewrite add_leaves_app. reflexivity.
    + unfold SubElement_at. simpl. rewrite list_lookup_alter.
      destruct (decide (ref = i)) as [->|Hne]; rewrite He; reflexivity.
Qed.

(** After a loop of [add_variables], the child at position [i] has got the
    texts of the keys whose element is the one at [i], in order. *)
Lemma add_texts_lookup (variable_tag : dict string nat) (t : string)
      (entries : dict string (list string)) (network network' e : Element)
      (i : nat) :
  add_texts variable_tag t entries network = Ok network' ->
  children network !! i = Some e ->
  children network' !! i =
  Some (add_leaves e t (texts_for variable_tag i entries)).
Proof.
  unfold add_texts. revert network e.
  induction entries as [|[k txts] entries IH]; simpl; intros network e.
  - intros [= <-] He. rewrite add_leaves_nil. exact He.
  - intros H He. apply bind_Ok in H as (net1 & Hinner & Hrest).
    rewrite add_texts_inner in Hinner.
    destruct txts as [|txt txts].
    + injection Hinner as <-.
      rewrite (IH _ _ Hrest He).
      destruct (decide (dict_get variable_tag k = Some i)); reflexivity.
    + apply bind_Ok in Hinner as (ref & Href & Hfold).
      injection Hfold as Hfold.
      unfold dict_item in Href.
      destruct (dict_get variable_tag k) as [ref'|] eqn:Hk; [|discriminate].
      injection Href as ->.
      pose proof (fold_SubElement_at_lookup network e ref i t (txt :: txts) He)
        as Hl.
      change (fold_left (fun n txt0 => SubElement_at n ref t txt0)
                        (txt :: txts) network)
        with (fold_left (fun n txt0 => SubElement_at n ref t txt0) txts
                        (SubElement_at network ref t txt)) in Hl.
      rewrite Hfold in Hl. rewrite (IH _ _ Hrest Hl).
      destruct (decide (ref = i)) as [->|Hne].
      * rewrite add_leaves_app.
        destruct (decide (Some i = Some i)); [reflexivity | contradiction].
      * destruct (decide (Some ref = Some i)) as [Heq|_];
          [congruence | reflexivity].
Qed.

Lemma texts_for_absent (variable_tag : dict string nat) (i : nat)
      (entries : dict string (list string)) (v : string) :
  (forall v', dict_get variable_tag v' = Some i -> v' = v) ->
  ~ In v (dict_keys entries) ->
  texts_for variable_tag i entries = [].
Proof.
  intros Hinj. induction entries as [|[k txts] entries IH]; simpl; intros Hv;
    [reflexivity|].
  destruct (decide (dict_get variable_tag k = Some i)) as [Hk|_].
  - exfalso. apply Hv. left. apply Hinj, Hk.
  - apply IH. tauto.
Qed.

(** When the keys of [entries] are distinct and the element at [i] is that
    of [v] alone, the texts that go to [i] are those of [v]. *)
Lemma texts_for_key (variable_tag : dict string nat) (i : nat)
      (entries : dict string (list string)) (v : string) :
  dict_get variable_tag v = Some i ->
  (forall v', dict_get variable_tag v' = Some i -> v' = v) ->
  NoDup (dict_keys entries) ->
  texts_for variable_tag i entries = default [] (dict_get entries v).
Proof.
  intros Hv Hinj. induction entries as [|[k txts] entries IH]; simpl;
    intros Hnd; [reflexivity|].
  apply NoDup_cons in Hnd as [Hk Hnd].
  destruct (decide (v = k)) as [<-|Hne].
  - destruct (decide (dict_get variable_tag v = Some i)); [|contradiction].
    rewrite (texts_for_absent variable_tag i entries v Hinj).
    + apply app_nil_r.
    + intros Hin. apply Hk, list_elem_of_In, Hin.
  - destruct (decide (dict_get variable_tag k = Some i)) as [Hki|_].
    + exfalso. apply Hne. symmetry. apply Hinj, Hki.
    + apply IH, Hnd.
Qed.

(** The VARIABLE element that the writer holds for [v] has the states of
    [v] as OUTCOME children and then the properties of [v] as PROPERTY
    children, both in the order of the record, and nothing else. *)
Lemma writer_variable_content (model : model_data) (encoding : string)
      (prettyprint : bool) (w : XMLBIFWriter)
      (states property : dict string (list string)) (v : string) (i : nat) :
  XMLBIFWriter_init model encoding prettyprint = Ok w ->
  m_states model = Some states ->
  m_property model = Some property ->
  NoDup (dict_keys states) ->
  NoDup (dict_keys property) ->
  dict_get (w_variables w) v = Some i ->
  children (w_network w) !! i =
  Some (add_leaves
          (add_leaves variable_element "OUTCOME"
                      (default [] (dict_get states v)))
          "PROPERTY" (default [] (dict_get property v))).
Proof.
  intros Hinit Hst Hpr Hnds Hndp Hget. unfold XMLBIFWriter_init in Hinit.
  apply bind_Ok in Hinit as ([net vt] & Hvars & Hinit).
  apply bind_Ok in Hinit as ([net' dt] & Hdefs & Hinit).
  injection Hinit as <-. simpl in *.
  unfold add_variables in Hvars.
  apply bind_Ok in Hvars as (vars & _ & Hvars).
  rewrite Hst, Hpr in Hvars. simpl in Hvars.
  apply bind_Ok in Hvars as (net1 & Hout & Hvars).
  apply bind_Ok in Hvars as (net2 & Hprop & Hvars).
  injection Hvars as <- <-.
  match type of Hout with
  | add_texts (snd (new_variables vars ?n0)) _ _ _ = _ => set (network0 := n0) in *
  end.
  destruct (new_variables_spec vars network0) as (Hnet & Hpos & _).
  destruct (Hpos v i Hget) as [Hle Hl].
  assert (Hinj : forall v', dict_get (snd (new_variables vars network0)) v'
                            = Some i -> v' = v).
  { intros v' Hv'. destruct (Hpos v' i Hv') as [_ Hl']. congruence. }
  assert (H0 : children (fst (new_variables vars network0)) !! i =
               Some variable_element).
  { rewrite Hnet. simpl. rewrite lookup_app_r by exact Hle.
    rewrite lookup_map, Hl. reflexivity. }
  pose proof (add_texts_lookup _ _ _ _ _ _ _ Hout H0) as H1.
  rewrite (texts_for_key _ _ _ v Hget Hinj Hnds) in H1.
  pose proof (add_texts_lookup _ _ _ _ _ _ _ Hprop H1) as H2.
  rewrite (texts_for_key _ _ _ v Hget Hinj Hndp) in H2.
  unfold add_definition in Hdefs.
  apply bind_Ok in Hdefs as (parents & Hp & Hdefs).
  assert (Hp' : m_parents model = Some parents)
    by (destruct (m_parents model); simpl in Hp; congruence).
  destruct (add_definition_Ok model net2 parents Hp') as (dt' & Hdefs').
  unfold add_definition in Hdefs'. rewrite Hp' in Hdefs'. simpl in Hdefs'.
  rewrite Hdefs' in Hdefs. injection Hdefs as <- <-.
  simpl. apply lookup_app_l_Some, H2.
Qed.

(** ** The canonical order *)

Lemma tag_texts_variable (sts ps : list string) :
  tag_texts (add_leaves (add_leaves variable_element "OUTCOME" sts)
                        "PROPERTY" ps) =
  map (fun s => ("OUTCOME", Some s)) sts ++
  map (fun s => ("PROPERTY", Some s)) ps.
Proof.
  unfold tag_texts, add_leaves. simpl.
  rewrite map_app, !map_map. reflexivity.
Qed.

(** The NETWORK element that a writer builds is ordered. *)
Lemma writer_network_order (model : model_data) (encoding : string)
      (prettyprint : bool) (w : XMLBIFWriter) :
  XMLBIFWriter_init model encoding prettyprint = Ok w ->
  ordered_network model w (w_network w).
Proof.
  intros Hinit.
  destruct (writer_tree _ _ _ _ Hinit)
    as (vars & parents & head & Hv & Hp & Htag & Hch & Htags & Hun & Hpos
        & Hkeys).
  exists vars, parents.
  split; [exact Hv | split; [exact Hp | split; [exact Hkeys|]]].
  split; [|split; [|split]].
  - intros v i Hget. destruct (Hpos v i Hget) as [Hle Hl].
    assert (Hti : map tag head !! i = Some "VARIABLE").
    { rewrite Htags, lookup_app_r by exact Hle.
      rewrite lookup_map, Hl. reflexivity. }
    rewrite lookup_map in Hti.
    destruct (head !! i) as [e|] eqn:He; [|discriminate].
    exists e. split; [|simpl in Hti; congruence].
    rewrite Hch. apply lookup_app_l_Some, He.
  - intros v1 v2 i1 i2 H1 H2 Hlt.
    destruct (Hpos v1 i1 H1) as [Hle1 Hl1].
    destruct (Hpos v2 i2 H2) as [Hle2 Hl2].
    destruct (Nat.lt_ge_cases i1 i2) as [Hok|Hge]; [exact Hok|].
    exfalso. apply (ltb_not_ge _ _ Hlt).
    apply (StronglySorted_lookup_le (sorted vars)
             (i2 - length (name_tags model)) (i1 - length (name_tags model)));
      [apply sorted_StronglySorted | exact Hl2 | exact Hl1 | lia].
  - intros states property v i Hst Hpr Hnds Hndp Hget.
    eexists. split.
    + eapply writer_variable_content; eassumption.
    + apply tag_texts_variable.
  - assert (Hdefs : findall (w_network w) "DEFINITION" =
                    map (fun v => definition_element
                                    v (default [] (dict_get parents v)))
                        (sorted (dict_keys parents))).
    { unfold findall. rewrite Hch, List.filter_app.
      rewrite filter_none, filter_all; [reflexivity| |].
      - intros e He. apply in_map_iff in He as (x & <- & _). reflexivity.
      - intros e He. unfold has_tag.
        destruct (head_tags _ _ _ _ Htags He) as [-> | ->]; reflexivity. }
    exists (sorted (dict_keys parents)). rewrite Hdefs.
    split; [|split; [apply sorted_StronglySorted
                    |split; [apply sorted_Permutation|]]].
    + rewrite map_map. apply map_ext. intros v. reflexivity.
    + apply Forall_forall. intros d Hd.
      apply list_elem_of_In, in_map_iff in Hd as (v & <- & Hin).
      apply (proj1 (sorted_In _ _)) in Hin.
      destruct (dict_get parents v) as [given|] eqn:Hgiven;
        [|exfalso; exact (proj1 (dict_get_None _ _) Hgiven Hin)].
      exists v, given, (sorted given). simpl.
      split; [reflexivity | split; [exact Hgiven | split]].
      * apply definition_element_given.
      * split; [apply sorted_StronglySorted | apply sorted_Permutation].
Qed.

(** * Further properties of the reader *)

(** ** The extraction functions *)

Lemma has_child_find (t : string) (e : Element) :
  has_child t e = true -> text_of (find e t) = Ok (child_text t e).
Proof. unfold has_child, child_text. destruct (find e t); [reflexivity | discriminate]. Qed.

Lemma no_child_find (t : string) (e : Element) :
  has_child t e = false -> text_of (find e t) = Raise AttributeError.
Proof. unfold has_child. destruct (find e t); [discriminate | reflexivity]. Qed.

(** A loop that reads the text of a child of every element returns the
    texts when each element has the child, and raises [AttributeError]
    otherwise. *)
Lemma traverse_child_item {B : Type} (t : string) (g : Element -> B)
      (l : list Element) :
  traverse (fun e => key <- text_of (find e t) ;; Ok (key, g e)) l =
  if forallb (has_child t) l
  then Ok (map (fun e => (child_text t e, g e)) l)
  else Raise AttributeError.
Proof.
  induction l as [|e l IH]; simpl; [reflexivity|].
  destruct (has_child t e) eqn:He; simpl.
  - rewrite (has_child_find _ _ He). simpl. rewrite IH.
    destruct (forallb (has_child t) l); reflexivity.
  - rewrite (no_child_find _ _ He). reflexivity.
Qed.

Lemma traverse_child_text (t : string) (l : list Element) :
  traverse (fun e => text_of (find e t)) l =
  if forallb (has_child t) l then Ok (map (child_text t) l)
  else Raise AttributeError.
Proof.
  induction l as [|e l IH]; simpl; [reflexivity|].
  destruct (has_child t e) eqn:He; simpl.
  - rewrite (has_child_find _ _ He). simpl. rewrite IH.
    destruct (forallb (has_child t) l); reflexivity.
  - rewrite (no_child_find _ _ He). reflexivity.
Qed.

Lemma get_states_eq (network : Element) :
  get_states network =
  if forallb (has_child "NAME") (findall network "VARIABLE")
  then Ok (dict_of_items
             (map (texts_item "OUTCOME") (findall network "VARIABLE")))
  else Raise AttributeError.
Proof.
  unfold get_states. rewrite traverse_child_item.
  destruct (forallb _ _); reflexivity.
Qed.

Lemma get_property_eq (network : Element) :
  get_property network =
  if forallb (has_child "NAME") (findall network "VARIABLE")
  then Ok (dict_of_items
             (map (texts_item "PROPERTY") (findall network "VARIABLE")))
  else Raise AttributeError.
Proof.
  unfold get_property. rewrite traverse_child_item.
  destruct (forallb _ _); reflexivity.
Qed.

Lemma get_parents_eq (network : Element) :
  get_parents network =
  if forallb (has_child "FOR") (findall network "DEFINITION")
  then Ok (dict_of_items
             (map (fun d => (child_text "FOR" d,
                             rev (map text (findall d "GIVEN"))))
                  (findall network "DEFINITION")))
  else Raise AttributeError.
Proof.
  unfold get_parents. rewrite traverse_child_item.
  destruct (forallb _ _); reflexivity.
Qed.

(** X1.  [get_variables] returns exactly when every VARIABLE element has a
    NAME child: the result is then the text of the first NAME child of each
    VARIABLE, in document order, duplicates included; otherwise it raises
    [AttributeError]. *)
Theorem get_variables_total (network : Element) :
  get_variables network =
  if forallb (has_child "NAME") (findall network "VARIABLE")
  then Ok (map (child_text "NAME") (findall network "VARIABLE"))
  else Raise AttributeError.
Proof. unfold get_variables. apply traverse_child_text. Qed.

Section DictKeys.
Context {K V : Type} `{EqDecision K}.
Implicit Types (d : dict K V) (k : K) (v : V).

Lemma dict_set_fresh d k v :
  ~ In k (dict_keys d) -> dict_set d k v = d ++ [(k, v)].
Proof.
  induction d as [|[k0 v0] d IH]; simpl; intros Hk; [reflexivity|].
  destruct (decide (k = k0)) as [->|Hne]; [exfalso; apply Hk; auto|].
  rewrite IH by tauto. reflexivity.
Qed.

Lemma fold_dict_set_fresh (items : list (K * V)) d :
  NoDup (dict_keys d ++ map fst items) ->
  fold_left (fun d kv => dict_set d (fst kv) (snd kv)) items d = d ++ items.
Proof.
  revert d. induction items as [|[k v] items IH]; simpl; intros d Hnd.
  - rewrite app_nil_r. reflexivity.
  - assert (Hk : ~ In k (dict_keys d)).
    { apply NoDup_app in Hnd as (_ & Hdisj & _). intros Hin.
      apply (Hdisj k); [apply list_elem_of_In, Hin | left]. }
    rewrite (dict_set_fresh _ _ _ Hk), IH.
    + rewrite <- app_assoc. reflexivity.
    + unfold dict_keys. rewrite map_app. simpl.
      rewrite <- app_assoc. exact Hnd.
Qed.

(** A comprehension over items with distinct keys keeps them as they are. *)
Lemma dict_of_items_distinct (items : list (K * V)) :
  NoDup (map fst items) -> dict_of_items items = items.
Proof. intros Hnd. apply (fold_dict_set_fresh items []). exact Hnd. Qed.

Lemma fold_dict_keys (items : list (K * V)) d :
  dict_keys (fold_left (fun d kv => dict_set d (fst kv) (snd kv)) items d) =
  fold_left (fun acc k => if decide (k ∈ acc) then acc else acc ++ [k])
            (map fst items) (dict_keys d).
Proof.
  revert d. induction items as [|[k v] items IH]; simpl; intros d;
    [reflexivity|].
  rewrite IH, dict_keys_set. f_equal.
  destruct (dict_get d k) as [v'|] eqn:Hg.
  - destruct (decide (k ∈ dict_keys d)) as [_|Hn]; [reflexivity|].
    rewrite list_elem_of_In in Hn. apply dict_get_None in Hn. congruence.
  - destruct (decide (k ∈ dict_keys d)) as [Hin|_]; [|reflexivity].
    apply list_elem_of_In in Hin. apply dict_get_None in Hg. contradiction.
Qed.

(** The keys of a comprehension depend on the keys of its items only. *)
Lemma dict_of_items_keys (items : list (K * V)) :
  dict_keys (dict_of_items items) = distinct_keys (map fst items).
Proof. apply (fold_dict_keys items []). Qed.

Lemma dict_of_items_In (items : list (K * V)) k :
  In k (dict_keys (dict_of_items items)) <-> In k (map fst items).
Proof.
  assert (Hnone : dict_get (dict_of_items items) k = None <->
                  ~ In k (map fst items)).
  { rewrite dict_of_items_get, dict_get_None. unfold dict_keys.
    rewrite map_rev. split; intros H Hin; apply H.
    - apply in_rev in Hin. exact Hin.
    - apply in_rev. exact Hin. }
  split; intros Hin.
  - destruct (decide (k ∈ map fst items)) as [Hk|Hk];
      [apply list_elem_of_In, Hk|].
    rewrite list_elem_of_In in Hk. apply Hnone, dict_get_None in Hk.
    contradiction.
  - destruct (decide (k ∈ dict_keys (dict_of_items items))) as [Hk|Hk];
      [apply list_elem_of_In, Hk|].
    rewrite list_elem_of_In in Hk. apply dict_get_None, Hnone in Hk.
    contradiction.
Qed.

Lemma dict_get_In d k : In k (dict_keys d) -> exists v, dict_get d k = Some v.
Proof.
  intros Hin. destruct (dict_get d k) as [v|] eqn:Hg; [eauto|].
  apply dict_get_None in Hg. contradiction.
Qed.
End DictKeys.

Lemma distinct_keys_NoDup {K : Type} `{EqDecision K} (ks : list K) :
  NoDup ks -> distinct_keys ks = ks.
Proof.
  intros Hnd. unfold distinct_keys.
  assert (Hgen : forall acc, NoDup (acc ++ ks) ->
             fold_left (fun acc k => if decide (k ∈ acc) then acc
                                     else acc ++ [k]) ks acc = acc ++ ks).
  { clear Hnd. induction ks as [|k ks IH]; simpl; intros acc Hnd.
    - rewrite app_nil_r. reflexivity.
    - destruct (decide (k ∈ acc)) as [Hin|_].
      + apply NoDup_app in Hnd as (_ & Hdisj & _).
        exfalso. apply (Hdisj k Hin). left.
      + rewrite IH; rewrite <- app_assoc; [reflexivity | exact Hnd]. }
  apply (Hgen []). exact Hnd.
Qed.

(** X2.  On a document from which [get_variables] returns, [get_states] and
    [get_property] return too, and both have exactly the variables as keys,
    each at the place of its first occurrence: every variable has an entry
    in both, an empty list when it has no OUTCOME or no PROPERTY child.
    When the names are distinct the two dictionaries list the VARIABLE
    elements in document order. *)
Theorem states_and_properties_follow_variables (network : Element)
        (vars : list name) :
  get_variables network = Ok vars ->
  exists states property,
    get_states network = Ok states /\
    get_property network = Ok property /\
    dict_keys states = distinct_keys vars /\
    dict_keys property = distinct_keys vars /\
    (forall v, In v vars ->
               exists sts ps, dict_get states v = Some sts /\
                              dict_get property v = Some ps) /\
    (NoDup vars ->
     states = map (texts_item "OUTCOME") (findall network "VARIABLE") /\
     property = map (texts_item "PROPERTY") (findall network "VARIABLE")).
Proof.
  intros Hvars. unfold get_variables in Hvars.
  rewrite traverse_child_text in Hvars.
  rewrite get_states_eq, get_property_eq.
  destruct (forallb (has_child "NAME") (findall network "VARIABLE"));
    [|discriminate].
  injection Hvars as <-.
  assert (Hk : forall t, map fst (map (texts_item t)
                                      (findall network "VARIABLE")) =
                         map (child_text "NAME") (findall network "VARIABLE")).
  { intros t. rewrite map_map. reflexivity. }
  eexists. eexists. split; [reflexivity | split; [reflexivity|]].
  rewrite !dict_of_items_keys, !Hk.
  split; [reflexivity | split; [reflexivity | split]].
  - intros v Hv.
    destruct (dict_get_In (dict_of_items
                             (map (texts_item "OUTCOME")
                                  (findall network "VARIABLE"))) v)
      as (sts & Hsts); [apply dict_of_items_In; rewrite Hk; exact Hv|].
    destruct (dict_get_In (dict_of_items
                             (map (texts_item "PROPERTY")
                                  (findall network "VARIABLE"))) v)
      as (ps & Hps); [apply dict_of_items_In; rewrite Hk; exact Hv|].
    eauto.
  - intros Hnd. split; apply dict_of_items_distinct; rewrite Hk; exact Hnd.
Qed.

Lemma states_and_properties_follow_variables_witness :
  exists states property,
    get_states sample_network = Ok states /\
    get_property sample_network = Ok property /\
    dict_keys states =
      distinct_keys [Some "family-out"; Some "bowel-problem"; Some "dog-out"] /\
    dict_keys property =
      distinct_keys [Some "family-out"; Some "bowel-problem"; Some "dog-out"] /\
    (forall v, In v [Some "family-out"; Some "bowel-problem"; Some "dog-out"] ->
               exists sts ps, dict_get states v = Some sts /\
                              dict_get property v = Some ps) /\
    (NoDup [Some "family-out"; Some "bowel-problem"; Some "dog-out"] ->
     states = map (texts_item "OUTCOME") (findall sample_network "VARIABLE") /\
     property = map (texts_item "PROPERTY") (findall sample_network "VARIABLE")).
Proof.
  apply (states_and_properties_follow_variables sample_network).
  reflexivity.
Defined.

(** X3.  [get_edges] makes one edge [[parent, child]] per parent of each
    key: their number is the sum of the lengths of the parent lists, and a
    list is an edge exactly when it is [[p, c]] for an item [(c, ps)] of the
    parents with [p] in [ps]. *)
Theorem edges_of_parents (variable_parents : dict name (list name)) :
  length (get_edges variable_parents) =
    list_sum (map (fun kv => length (snd kv)) variable_parents) /\
  (forall e, In e (get_edges variable_parents) <->
             exists c ps p, In (c, ps) variable_parents /\ In p ps /\
                            e = [p; c]).
Proof.
  split.
  - induction variable_parents as [|[c ps] d IH]; simpl; [reflexivity|].
    rewrite length_app, length_map. fold (get_edges d). rewrite IH.
    reflexivity.
  - intros e. unfold get_edges. rewrite in_flat_map. split.
    + intros ([c ps] & Hin & He). simpl in He.
      apply in_map_iff in He as (p & <- & Hp). eauto 6.
    + intros (c & ps & p & Hin & Hp & ->). exists (c, ps).
      split; [exact Hin|]. simpl. apply in_map_iff. eauto.
Qed.

(** ** When [get_cpd] returns, and what *)

Lemma traverse_succeeds {A B : Type} (f : A -> result B) (l : list A) :
  succeeds (traverse f l) = forallb (fun x => succeeds (f x)) l.
Proof.
  induction l as [|x l IH]; simpl; [reflexivity|].
  destruct (f x); simpl; [|reflexivity].
  rewrite <- IH. destruct (traverse f l); reflexivity.
Qed.

Lemma forallb_pointwise {A : Type} (f g : A -> bool) (l : list A) :
  (forall x, f x = g x) -> forallb f l = forallb g l.
Proof.
  intros Hfg. induction l as [|x l IH]; simpl; [reflexivity|].
  rewrite Hfg, IH. reflexivity.
Qed.

Lemma traverse_items_keys {A B : Type} (g : name -> A -> result B)
      (l : list (name * A)) (l' : list (name * B)) :
  traverse (fun kv => y <- g (fst kv) (snd kv) ;; Ok (fst kv, y)) l = Ok l' ->
  map fst l' = map fst l.
Proof.
  revert l'. induction l as [|[k a] l IH]; simpl; intros l'.
  - intros [= <-]. reflexivity.
  - intros H. apply bind_Ok in H as ([k' y] & Hy & H).
    apply bind_Ok in Hy as (y' & _ & Hy). injection Hy as <- <-.
    apply bind_Ok in H as (ys & Hys & H). injection H as <-.
    simpl. f_equal. apply IH, Hys.
Qed.

Section CpdTotal.
Context (float : Type) (py_float : string -> option float).

Lemma float_list_succeeds (t : option string) :
  succeeds (float_list float py_float t) =
  match t with
  | Some s => forallb (fun tok => bool_decide (py_float tok <> None)) (split s)
  | None => false
  end.
Proof.
  destruct t as [s|]; [|reflexivity]. unfold float_list.
  rewrite traverse_succeeds. apply forallb_pointwise. intros tok.
  destruct (py_float tok); [|reflexivity].
  symmetry. apply bool_decide_eq_true_2. discriminate.
Qed.

Lemma cpd_loop_succeeds (states : dict name (list name))
      (tables : dict name (list float)) :
  succeeds (traverse (fun kv : name * list float =>
                        arr <- cpd_array float states (fst kv) (snd kv) ;;
                        Ok (fst kv, arr)) tables) =
  forallb (table_ok states) tables.
Proof.
  rewrite traverse_succeeds. apply forallb_pointwise. intros [k v]. simpl.
  destruct (table_ok states (k, v)) eqn:Hok.
  - destruct (cpd_array_table_ok float _ _ _ Hok) as (sts & _ & ->).
    reflexivity.
  - apply bind_fails, cpd_array_not_ok, Hok.
Qed.

Lemma cpd_tables_succeeds (network : Element) :
  succeeds (cpd_tables float py_float network) =
  forallb (table_parses py_float) (definition_tables network).
Proof.
  unfold cpd_tables. fold (definition_tables network).
  match goal with
  | |- succeeds (bind ?m _) = _ =>
      assert (Hm : succeeds m =
                   forallb (table_parses py_float) (definition_tables network))
  end.
  { rewrite traverse_succeeds. apply forallb_pointwise. intros [d t].
    unfold table_parses. simpl.
    destruct (has_child "FOR" d) eqn:Hd.
    - rewrite (has_child_find _ _ Hd). simpl.
      rewrite <- float_list_succeeds.
      destruct (float_list float py_float (text t)); reflexivity.
    - rewrite (no_child_find _ _ Hd). reflexivity. }
  rewrite <- Hm. destruct (traverse _ _); reflexivity.
Qed.

(** X4.  The comprehension of [get_cpd] returns exactly when every
    DEFINITION with a TABLE child has a FOR child and the text of every TABLE
    is made of floats; [get_cpd] then returns exactly when every table fits
    its variable (the variable has states, at least one, and their number
    divides the number of values). *)
Theorem get_cpd_returns (network : Element)
        (states : dict name (list name)) :
  succeeds (cpd_tables float py_float network) =
    forallb (table_parses py_float) (definition_tables network) /\
  succeeds (get_cpd float py_float network states) =
    match cpd_tables float py_float network with
    | Ok tables => forallb (table_ok states) tables
    | Raise _ => false
    end.
Proof.
  split; [apply cpd_tables_succeeds|].
  unfold get_cpd. destruct (cpd_tables float py_float network); simpl;
    [apply cpd_loop_succeeds | reflexivity].
Qed.

(** The sizes of the tables of the comprehension are those of the TABLE
    texts. *)
Lemma traverse_length {A B : Type} (f : A -> result B) (l : list A)
      (l' : list B) :
  traverse f l = Ok l' -> length l' = length l.
Proof.
  revert l'. induction l as [|x l IH]; simpl; intros l'.
  - intros [= <-]. reflexivity.
  - intros H. apply bind_Ok in H as (y & _ & H).
    apply bind_Ok in H as (ys & Hys & H). injection H as <-.
    simpl. f_equal. apply IH, Hys.
Qed.

Lemma float_list_length (t : option string) (values : list float) :
  float_list float py_float t = Ok values ->
  length values = length (tokens t).
Proof.
  destruct t as [s|]; [|discriminate]. unfold float_list. simpl.
  apply traverse_length.
Qed.

Lemma dict_set_sizes (d : dict name (list float)) (k : name)
      (v : list float) :
  dict_set (map (fun kv => (fst kv, length (snd kv))) d) k (length v) =
  map (fun kv => (fst kv, length (snd kv))) (dict_set d k v).
Proof.
  induction d as [|[k' v'] d IH]; simpl; [reflexivity|].
  destruct (decide (k = k')); simpl; [reflexivity|].
  rewrite IH. reflexivity.
Qed.

Lemma dict_of_items_sizes (items : list (name * list float)) :
  dict_of_items (map (fun kv => (fst kv, length (snd kv))) items) =
  map (fun kv => (fst kv, length (snd kv))) (dict_of_items items).
Proof.
  unfold dict_of_items.
  change (@nil (name * nat))
    with (map (fun kv : name * list float => (fst kv, length (snd kv))) []).
  generalize (@nil (name * list float)) as acc.
  induction items as [|[k v] items IH]; intros acc; simpl; [reflexivity|].
  rewrite dict_set_sizes. apply IH.
Qed.

Lemma cpd_tables_sizes (network : Element)
      (tables : dict name (list float)) :
  cpd_tables float py_float network = Ok tables ->
  map (fun kv => (fst kv, length (snd kv))) tables = table_sizes network.
Proof.
  unfold cpd_tables, table_sizes. fold (definition_tables network).
  intros H. apply bind_Ok in H as (items & Hitems & H). injection H as <-.
  rewrite <- dict_of_items_sizes. f_equal.
  revert items Hitems.
  induction (definition_tables network) as [|[d t] pairs IH]; simpl;
    intros items Hitems.
  - injection Hitems as <-. reflexivity.
  - apply bind_Ok in Hitems as ([k values] & Hkv & Hitems).
    apply bind_Ok in Hitems as (rest & Hrest & Hitems).
    injection Hitems as <-.
    apply bind_Ok in Hkv as (k' & Hk & Hkv).
    apply bind_Ok in Hkv as (values' & Hvalues & Hkv).
    injection Hkv as <- <-. simpl.
    rewrite (float_list_length _ _ Hvalues), (IH _ Hrest).
    unfold child_text. destruct (find d "FOR"); [|discriminate].
    injection Hk as <-. reflexivity.
Qed.

Lemma table_ok_size (states : dict name (list name))
      (tables : dict name (list float)) :
  forallb (table_ok states) tables =
  forallb (size_ok states) (map (fun kv => (fst kv, length (snd kv))) tables).
Proof.
  induction tables as [|[k v] tables IH]; simpl; [reflexivity|].
  rewrite IH. reflexivity.
Qed.

(** The matrices of a dictionary that [get_cpd] returns. *)
Lemma cpd_matrices (network : Element) (states : dict name (list name))
        (cpd : dict name (list (list float))) :
  get_cpd float py_float network states = Ok cpd ->
  exists tables,
    cpd_tables float py_float network = Ok tables /\
    dict_keys cpd = dict_keys tables /\
    forall v M,
      dict_get cpd v = Some M ->
      exists sts values,
        dict_get states v = Some sts /\
        dict_get tables v = Some values /\
        length sts <> 0 /\
        length M = length sts /\
        Forall (fun row => length row = length values / length sts) M /\
        concat M = values.
Proof.
  intros Hcpd. unfold get_cpd in Hcpd.
  apply bind_Ok in Hcpd as (tables & Htables & Hloop).
  exists tables. split; [exact Htables|].
  pose proof (traverse_items_keys _ _ _ Hloop) as Hkeys.
  split; [exact Hkeys|].
  assert (Hok : forallb (table_ok states) tables = true).
  { rewrite <- cpd_loop_succeeds, Hloop. reflexivity. }
  destruct (cpd_loop_Ok float states tables Hok) as (cpd' & Hcpd' & Hget).
  rewrite Hloop in Hcpd'. injection Hcpd' as <-.
  intros v M HM.
  assert (Hin : In v (dict_keys tables)).
  { unfold dict_keys. rewrite <- Hkeys.
    destruct (decide (v ∈ map fst cpd)) as [Hv|Hv];
      [apply list_elem_of_In, Hv|].
    rewrite list_elem_of_In in Hv. apply dict_get_None in Hv. congruence. }
  destruct (dict_get_In tables v Hin) as (values & Hvalues).
  destruct (Hget v values Hvalues) as (sts & Hsts & Hrows).
  rewrite HM in Hrows. injection Hrows as ->.
  assert (Hfit : table_ok states (v, values) = true).
  { rewrite forallb_forall in Hok. apply Hok.
    destruct (dict_get_split _ _ _ Hvalues) as (t1 & t2 & -> & _).
    apply in_or_app. right. left. reflexivity. }
  unfold table_ok in Hfit. simpl in Hfit. rewrite Hsts in Hfit.
  apply andb_true_iff in Hfit as [Hk Hmod].
  apply negb_true_iff, Nat.eqb_neq in Hk. apply Nat.eqb_eq in Hmod.
  apply Nat.Div0.div_exact in Hmod.
  exists sts, values.
  split; [exact Hsts | split; [exact Hvalues | split; [exact Hk|]]].
  split; [apply rows_length | split].
  - apply rows_columns. exact Hmod.
  - apply rows_concat. exact Hmod.
Qed.

(** X5.  Every entry of a dictionary that [get_cpd] returns is a matrix for
    a table of the document: the keys are those of the tables in their
    order, the variable has states, the matrix has one row per state, all
    rows have the same length, and the rows in a row are the values of the
    table. *)
Theorem cpd_entries (network : Element) (states : dict name (list name))
        (cpd : dict name (list (list float))) :
  get_cpd float py_float network states = Ok cpd ->
  exists tables,
    cpd_tables float py_float network = Ok tables /\
    dict_keys cpd = dict_keys tables /\
    forall v M,
      dict_get cpd v = Some M ->
      exists sts values,
        dict_get states v = Some sts /\
        dict_get tables v = Some values /\
        length sts <> 0 /\
        length M = length sts /\
        Forall (fun row => length row = length values / length sts) M /\
        concat M = values.
Proof. apply cpd_matrices. Qed.

(** X6.  A table for a name that has no states entry makes [get_cpd] raise
    [KeyError], and a table for a variable without any state makes it raise
    [ZeroDivisionError], when the tables before it fit. *)
Theorem cpd_lookup_errors (network : Element)
        (states : dict name (list name))
        (before after : dict name (list float)) (v : name)
        (values : list float) :
  cpd_tables float py_float network = Ok (before ++ (v, values) :: after) ->
  forallb (table_ok states) before = true ->
  (dict_get states v = None ->
   get_cpd float py_float network states = Raise KeyError) /\
  (dict_get states v = Some [] ->
   get_cpd float py_float network states = Raise ZeroDivisionError).
Proof.
  intros Htables Hok.
  assert (Hbefore : Forall (fun y : name * list float =>
                              succeeds (arr <- cpd_array float states (fst y)
                                                         (snd y) ;;
                                        Ok (fst y, arr)) = true) before).
  { apply Forall_forall. intros [k x] Hkx. rewrite forallb_forall in Hok.
    apply list_elem_of_In in Hkx. specialize (Hok _ Hkx).
    destruct (cpd_array_table_ok float _ _ _ Hok) as (sts & _ & Harr).
    simpl. rewrite Harr. reflexivity. }
  split; intros Hv; unfold get_cpd; rewrite Htables; simpl;
    apply traverse_first_raise; try exact Hbefore;
    simpl; unfold cpd_array, dict_item; rewrite Hv; reflexivity.
Qed.
End CpdTotal.

Lemma cpd_entries_witness :
  exists tables,
    cpd_tables decimal parse_decimal sample_network = Ok tables /\
    dict_keys
      [(Some "family-out", [[mkDecimal 15 2]; [mkDecimal 85 2]]);
       (Some "bowel-problem", [[mkDecimal 1 2]; [mkDecimal 99 2]]);
       (Some "dog-out",
        [[mkDecimal 99 2; mkDecimal 1 2; mkDecimal 97 2; mkDecimal 3 2];
         [mkDecimal 9 1; mkDecimal 1 1; mkDecimal 3 1; mkDecimal 7 1]])] =
    dict_keys tables /\
    forall v M,
      dict_get
        [(Some "family-out", [[mkDecimal 15 2]; [mkDecimal 85 2]]);
         (Some "bowel-problem", [[mkDecimal 1 2]; [mkDecimal 99 2]]);
         (Some "dog-out",
          [[mkDecimal 99 2; mkDecimal 1 2; mkDecimal 97 2; mkDecimal 3 2];
           [mkDecimal 9 1; mkDecimal 1 1; mkDecimal 3 1; mkDecimal 7 1]])] v =
      Some M ->
      exists sts values,
        dict_get sample_states v = Some sts /\
        dict_get tables v = Some values /\
        length sts <> 0 /\
        length M = length sts /\
        Forall (fun row => length row = length values / length sts) M /\
        concat M = values.
Proof.
  apply (cpd_entries decimal parse_decimal sample_network sample_states).
  vm_compute. reflexivity.
Defined.

Lemma cpd_lookup_errors_witness :
  get_cpd decimal parse_decimal stray_network
          [(Some "a", [Some "true"])] = Raise KeyError /\
  get_cpd decimal parse_decimal stateless_network
          [(Some "a", [])] = Raise ZeroDivisionError.
Proof.
  split.
  - apply (proj1 (cpd_lookup_errors decimal parse_decimal stray_network
                    [(Some "a", [Some "true"])] [] [] (Some "b")
                    [mkDecimal 10 1] eq_refl eq_refl)).
    reflexivity.
  - apply (proj2 (cpd_lookup_errors decimal parse_decimal stateless_network
                    [(Some "a", [])] [] [] (Some "a")
                    [mkDecimal 10 1] eq_refl eq_refl)).
    reflexivity.
Defined.

(** ** Which documents the reader accepts *)

Section ReaderTotal.
Context (float : Type) (py_float : string -> option float).
Context (parse_file fromstring : string -> result Element).

Lemma get_variables_eq (network : Element) :
  get_variables network =
  if forallb (has_child "NAME") (findall network "VARIABLE")
  then Ok (map (child_text "NAME") (findall network "VARIABLE"))
  else Raise AttributeError.
Proof. unfold get_variables. apply traverse_child_text. Qed.

(** X7.  A reader is built from a NETWORK element exactly when the element
    has a NAME child, every VARIABLE has a NAME child, every DEFINITION has
    a FOR child, the text of every TABLE is made of floats, and the number
    of values of the table of every variable is a multiple of the number of
    states that the document gives to the variable, which has at least
    one. *)
Theorem reader_returns (network : Element) :
  (exists r, reader_of_network float py_float (Some network) = Ok r) <->
  has_child "NAME" network = true /\
  forallb (has_child "NAME") (findall network "VARIABLE") = true /\
  forallb (has_child "FOR") (findall network "DEFINITION") = true /\
  forallb (table_parses py_float) (definition_tables network) = true /\
  forallb (size_ok
             (dict_of_items
                (map (texts_item "OUTCOME") (findall network "VARIABLE"))))
          (table_sizes network) = true.
Proof.
  unfold reader_of_network. simpl.
  rewrite get_variables_eq, get_parents_eq, get_states_eq, get_property_eq.
  change (has_child "NAME" network)
    with (match find network "NAME" with Some _ => true | None => false end).
  destruct (find network "NAME") as [nm|]; simpl;
    [|split; [intros (r & H); discriminate | intros (H & _); discriminate]].
  destruct (forallb (has_child "NAME") (findall network "VARIABLE")); simpl;
    [|split; [intros (r & H); discriminate
             |intros (_ & H & _); discriminate]].
  destruct (forallb (has_child "FOR") (findall network "DEFINITION")); simpl;
    [|split; [intros (r & H); discriminate
             |intros (_ & _ & H & _); discriminate]].
  set (states := dict_of_items
                   (map (texts_item "OUTCOME") (findall network "VARIABLE"))).
  pose proof (cpd_loop_succeeds float states) as Hloop.
  pose proof (cpd_tables_succeeds float py_float network) as Hparse.
  pose proof (cpd_tables_sizes float py_float network) as Hsizes.
  unfold get_cpd.
  destruct (cpd_tables float py_float network) as [tables|e]; simpl in *.
  - specialize (Hloop tables). rewrite table_ok_size in Hloop.
    rewrite (Hsizes tables eq_refl) in Hloop. rewrite <- Hparse.
    destruct (traverse _ tables) as [cpd|e] eqn:Htr; simpl in *.
    + split; [intros _|intros _; eexists; reflexivity].
      repeat split. symmetry. exact Hloop.
    + split; [intros (r & H); discriminate|].
      intros (_ & _ & _ & _ & Hok). congruence.
  - rewrite <- Hparse.
    split; [intros (r & H); discriminate|].
    intros (_ & _ & _ & H & _). discriminate.
Qed.

(** X8.  A document without NETWORK element, without NAME under NETWORK,
    with a VARIABLE without NAME or with a DEFINITION without FOR makes the
    construction raise [AttributeError], whatever else it holds. *)
Theorem malformed_document_raises (network : option Element) :
  match network with
  | None => True
  | Some net =>
      has_child "NAME" net = false \/
      forallb (has_child "NAME") (findall net "VARIABLE") = false \/
      forallb (has_child "FOR") (findall net "DEFINITION") = false
  end ->
  reader_of_network float py_float network = Raise AttributeError.
Proof.
  destruct network as [net|]; [|reflexivity].
  unfold reader_of_network. simpl.
  rewrite get_variables_eq, get_parents_eq.
  change (has_child "NAME" net)
    with (match find net "NAME" with Some _ => true | None => false end).
  destruct (find net "NAME") as [nm|]; simpl; [|reflexivity].
  destruct (forallb (has_child "NAME") (findall net "VARIABLE")); simpl;
    [|reflexivity].
  destruct (forallb (has_child "FOR") (findall net "DEFINITION")); simpl;
    [|reflexivity].
  intros [H|[H|H]]; discriminate.
Qed.

(** X9.  The construction of a reader raises the configuration error, an
    exception of the library's parser, or one of five exceptions of the
    extraction: [AttributeError], [KeyError], [ZeroDivisionError] and the
    [ValueError] of [float] or of [reshape]. *)
Theorem reader_exceptions (path string : option string) (e : exn) :
  XMLBIFReader_init float py_float parse_file fromstring path string =
    Raise e ->
  (e = config_error /\ truthy path = false /\ truthy string = false) \/
  (truthy path = true /\ parse_file (default "" path) = Raise e) \/
  (truthy path = false /\ truthy string = true /\
   fromstring (default "" string) = Raise e) \/
  In e reader_errors.
Proof.
  unfold XMLBIFReader_init. intros H.
  destruct (truthy path) eqn:Hp.
  - destruct (parse_file (default "" path)) as [root|e'] eqn:Hroot;
      simpl in H.
    + right. right. right. eapply reader_of_network_raises, H.
    + injection H as <-. right. left. split; reflexivity.
  - destruct (truthy string) eqn:Hs.
    + destruct (fromstring (default "" string)) as [root|e'] eqn:Hroot;
        simpl in H.
      * right. right. right. eapply reader_of_network_raises, H.
      * injection H as <-. right. right. left. auto.
    + simpl in H. injection H as <-. left. auto.
Qed.
End ReaderTotal.

Lemma reader_returns_witness :
  exists r, reader_of_network decimal parse_decimal (Some sample_network) = Ok r.
Proof.
  apply (proj2 (reader_returns decimal parse_decimal sample_network)).
  split; [reflexivity | split; [reflexivity | split; [reflexivity|]]].
  split; vm_compute; reflexivity.
Defined.

Lemma malformed_document_raises_witness :
  reader_of_network decimal parse_decimal
    (Some (node "NETWORK"
             [leaf "NAME" "Broken";
              node "VARIABLE" [leaf "NAME" "a"; leaf "OUTCOME" "true"];
              node "DEFINITION" [leaf "GIVEN" "a"; leaf "TABLE" "1.0"]])) =
  Raise AttributeError.
Proof.
  apply (malformed_document_raises decimal parse_decimal (Some _)).
  right. right. reflexivity.
Defined.

Lemma reader_exceptions_witness :
  (LibraryError "OSError" = config_error /\
   truthy (Some "cat.xml") = false /\ truthy None = false) \/
  (truthy (Some "cat.xml") = true /\
   sample_parse_file (default "" (Some "cat.xml")) =
     Raise (LibraryError "OSError")) \/
  (truthy (Some "cat.xml") = false /\ truthy None = true /\
   sample_fromstring (default "" None) = Raise (LibraryError "OSError")) \/
  In (LibraryError "OSError") reader_errors.
Proof.
  apply (reader_exceptions decimal parse_decimal sample_parse_file
           sample_fromstring (Some "cat.xml") None).
  reflexivity.
Defined.

(** ** The fields of a reader and [get_model] *)

Section ReaderFields.
Context (float : Type) (py_float : string -> option float).

Lemma reader_fields (network : Element) (r : XMLBIFReader float) :
  reader_of_network float py_float (Some network) = Ok r ->
  get_variables network = Ok (variables float r) /\
  get_parents network = Ok (variable_parents float r) /\
  edge_list float r = get_edges (variable_parents float r) /\
  get_states network = Ok (variable_states float r) /\
  get_cpd float py_float network (variable_states float r) =
    Ok (variable_CPD float r) /\
  get_property network = Ok (variable_property float r).
Proof.
  unfold reader_of_network. simpl. intros H.
  apply bind_Ok in H as (nm & _ & H).
  apply bind_Ok in H as (vars & Hv & H).
  apply bind_Ok in H as (parents & Hp & H).
  apply bind_Ok in H as (states & Hs & H).
  apply bind_Ok in H as (cpd & Hc & H).
  apply bind_Ok in H as (property & Hpr & H).
  injection H as <-. simpl. repeat split; assumption.
Qed.

Lemma cpd_tables_keys (network : Element) (tables : dict name (list float))
      (v : name) :
  cpd_tables float py_float network = Ok tables ->
  In v (dict_keys tables) ->
  exists d, In d (findall network "DEFINITION") /\ child_text "FOR" d = v /\
            has_child "FOR" d = true.
Proof.
  unfold cpd_tables. fold (definition_tables network). intros H Hv.
  apply bind_Ok in H as (items & Hitems & H). injection H as <-.
  apply (proj1 (dict_of_items_In _ _)) in Hv.
  assert (Hgen : forall pairs items',
             traverse (fun dt : Element * Element =>
                         key <- text_of (find (fst dt) "FOR") ;;
                         values <- float_list float py_float (text (snd dt)) ;;
                         Ok (key, values)) pairs = Ok items' ->
             In v (map fst items') ->
             exists dt, In dt pairs /\ child_text "FOR" (fst dt) = v /\
                        has_child "FOR" (fst dt) = true).
  { induction pairs as [|[d t] pairs IH]; simpl; intros items' Htr Hin.
    - injection Htr as <-. destruct Hin.
    - apply bind_Ok in Htr as ([k x] & Hkx & Htr).
      apply bind_Ok in Htr as (rest & Hrest & Htr). injection Htr as <-.
      apply bind_Ok in Hkx as (key & Hkey & Hkx).
      apply bind_Ok in Hkx as (values & _ & Hkx). injection Hkx as <- <-.
      destruct Hin as [<-|Hin].
      + exists (d, t). simpl. unfold child_text, has_child.
        destruct (find d "FOR"); simpl in Hkey; [|discriminate].
        injection Hkey as <-. auto.
      + destruct (IH _ Hrest Hin) as (dt & Hdt & Hk). eauto. }
  destruct (Hgen _ _ Hitems Hv) as ([d t] & Hdt & Hk & Hfor).
  exists d. split; [|split; assumption].
  unfold definition_tables in Hdt. apply in_flat_map in Hdt as (d' & Hd' & Hin).
  apply in_map_iff in Hin as (t' & Heq & _). injection Heq as <- <-.
  exact Hd'.
Qed.

(** A variable with a table has parents and states in the reader. *)
Lemma reader_cpd_lookup (network : Element) (r : XMLBIFReader float)
      (v : name) (M : list (list float)) :
  reader_of_network float py_float (Some network) = Ok r ->
  dict_get (variable_CPD float r) v = Some M ->
  (exists ps, dict_get (variable_parents float r) v = Some ps) /\
  (exists sts, dict_get (variable_states float r) v = Some sts /\
               length M = length sts).
Proof.
  intros Hr HM.
  destruct (reader_fields _ _ Hr) as (Hv & Hp & He & Hs & Hc & Hpr).
  destruct (cpd_matrices float py_float _ _ _ Hc)
    as (tables & Htables & Hkt & Hentries).
  destruct (Hentries v M HM) as (sts & values & Hsts & Hvalues & _ & Hlen & _).
  split; [|exists sts; split; assumption].
  assert (Hin : In v (dict_keys tables)).
  { destruct (decide (v ∈ dict_keys tables)) as [Hin|Hn];
      [apply list_elem_of_In, Hin|].
    rewrite list_elem_of_In in Hn. apply dict_get_None in Hn. congruence. }
  destruct (cpd_tables_keys _ _ _ Htables Hin) as (d & Hd & Hk & _).
  rewrite get_parents_eq in Hp.
  destruct (forallb (has_child "FOR") (findall network "DEFINITION"));
    [|discriminate].
  injection Hp as Hp. rewrite <- Hp.
  apply dict_get_In, (proj2 (dict_of_items_In _ _)). rewrite map_map. simpl.
  apply in_map_iff. exists d. split; assumption.
Qed.

(** X10.  The fields of a reader refer to each other consistently: the edge
    list is that of the parents; the states and the properties have the
    variables as keys; and every variable with a table has an entry in the
    parents and in the states, its matrix having one row per state. *)
Theorem reader_consistent (network : Element) (r : XMLBIFReader float) :
  reader_of_network float py_float (Some network) = Ok r ->
  edge_list float r = get_edges (variable_parents float r) /\
  dict_keys (variable_states float r) = distinct_keys (variables float r) /\
  dict_keys (variable_property float r) = distinct_keys (variables float r) /\
  forall v M,
    dict_get (variable_CPD float r) v = Some M ->
    (exists ps, dict_get (variable_parents float r) v = Some ps) /\
    (exists sts, dict_get (variable_states float r) v = Some sts /\
                 length M = length sts).
Proof.
  intros Hr.
  destruct (reader_fields _ _ Hr) as (Hv & Hp & He & Hs & Hc & Hpr).
  split; [exact He|].
  assert (Hkeys : dict_keys (variable_states float r) =
                  distinct_keys (variables float r) /\
                  dict_keys (variable_property float r) =
                  distinct_keys (variables float r)).
  { unfold get_variables in Hv. rewrite traverse_child_text in Hv.
    rewrite get_states_eq in Hs. rewrite get_property_eq in Hpr.
    destruct (forallb (has_child "NAME") (findall network "VARIABLE"));
      [|discriminate].
    injection Hv as <-. injection Hs as <-. injection Hpr as <-.
    rewrite !dict_of_items_keys, !map_map. split; reflexivity. }
  destruct Hkeys as [Hks Hkp].
  split; [exact Hks | split; [exact Hkp|]].
  intros v M HM. eapply reader_cpd_lookup; eassumption.
Qed.
End ReaderFields.

Lemma reader_consistent_witness :
  exists r,
    reader_of_network decimal parse_decimal (Some sample_network) = Ok r /\
    edge_list decimal r = get_edges (variable_parents decimal r) /\
    dict_keys (variable_states decimal r) =
      distinct_keys (variables decimal r) /\
    dict_keys (variable_property decimal r) =
      distinct_keys (variables decimal r) /\
    forall v M,
      dict_get (variable_CPD decimal r) v = Some M ->
      (exists ps, dict_get (variable_parents decimal r) v = Some ps) /\
      (exists sts, dict_get (variable_states decimal r) v = Some sts /\
                   length M = length sts).
Proof.
  eexists. split; [vm_compute; reflexivity|].
  apply (reader_consistent decimal parse_decimal sample_network).
  vm_compute. reflexivity.
Defined.

Lemma traverse_ext_in {A B : Type} (f g : A -> result B) (l : list A) :
  (forall x, In x l -> f x = g x) -> traverse f l = traverse g l.
Proof.
  induction l as [|x l IH]; simpl; intros H; [reflexivity|].
  rewrite (H x) by auto. rewrite IH by auto. reflexivity.
Qed.

Lemma In_dict_keys {K V : Type} (d : dict K V) (k : K) (v : V) :
  In (k, v) d -> In k (dict_keys d).
Proof. intros H. apply in_map_iff. exists (k, v). auto. Qed.

Section GetModelFacts.
Context (float : Type) (py_float : string -> option float).
Context (Model CPD : Type).
Context (BayesianModel : list (list name) -> result Model).
Context (TabularCPD : name -> nat -> list (list float) -> list name ->
                      list nat -> result CPD).
Context (add_cpds : Model -> list CPD -> result Model).

(** The lookups of [get_model] for an item of a reader's tables, up to the
    cardinalities of the parents. *)
Lemma tabular_cpd_lookups (network : Element) (r : XMLBIFReader float)
      (item : name * list (list float)) :
  reader_of_network float py_float (Some network) = Ok r ->
  In item (variable_CPD float r) ->
  tabular_cpd float CPD TabularCPD r item =
  (evidence_card <- traverse
                      (fun evidence_var =>
                         s <- dict_item (variable_states float r)
                                        evidence_var ;;
                         Ok (length s))
                      (evidence_of r (fst item)) ;;
   TabularCPD (fst item) (card_of r (fst item)) (snd item)
              (evidence_of r (fst item)) evidence_card).
Proof.
  intros Hr Hitem. destruct item as [v M0].
  apply In_dict_keys in Hitem.
  destruct (dict_get_In _ _ Hitem) as (M & HM).
  destruct (reader_cpd_lookup float py_float _ _ _ _ Hr HM)
    as ((ps & Hps) & (sts & Hsts & _)).
  unfold tabular_cpd, dict_item, evidence_of, card_of. simpl.
  rewrite Hsts, Hps. reflexivity.
Qed.

(** X11.  For a reader built from a document in which the parents of the
    variables with a table are variables, [get_model] is the call of
    [BayesianModel] on the edge list, then one call of [TabularCPD] per
    table in order, with the variable, the number of its states, its matrix,
    its parents and the numbers of their states, then [add_cpds]: none of
    its own lookups fails. *)
Theorem get_model_calls (network : Element) (r : XMLBIFReader float) :
  reader_of_network float py_float (Some network) = Ok r ->
  (forall v p, In v (dict_keys (variable_CPD float r)) ->
               In p (evidence_of r v) ->
               In p (dict_keys (variable_states float r))) ->
  get_model float Model CPD BayesianModel TabularCPD add_cpds r =
  (model <- BayesianModel (edge_list float r) ;;
   cpds <- traverse
             (fun item =>
                TabularCPD (fst item) (card_of r (fst item)) (snd item)
                           (evidence_of r (fst item))
                           (map (card_of r) (evidence_of r (fst item))))
             (variable_CPD float r) ;;
   add_cpds model cpds).
Proof.
  intros Hr Hdeclared. unfold get_model.
  destruct (reader_fields _ _ _ _ Hr) as (_ & _ & -> & _).
  destruct (BayesianModel _) as [model|e]; simpl; [|reflexivity].
  erewrite traverse_ext_in; [reflexivity|].
  intros item Hitem. rewrite (tabular_cpd_lookups _ _ _ Hr Hitem).
  rewrite (traverse_Ok _ (card_of r)); [reflexivity|].
  intros p Hp.
  destruct (dict_get_In (variable_states float r) p) as (s & Hs).
  { apply (Hdeclared (fst item)); [|exact Hp].
    destruct item. eapply In_dict_keys, Hitem. }
  unfold dict_item, card_of. rewrite Hs. reflexivity.
Qed.

(** X12.  When a parent of a variable with a table is no variable of the
    document, the lookup of the number of its states raises [KeyError]
    before [TabularCPD] is called, and [get_model] returns no model. *)
Theorem get_model_undeclared_parent (network : Element)
        (r : XMLBIFReader float) (item : name * list (list float))
        (p : name) :
  reader_of_network float py_float (Some network) = Ok r ->
  In item (variable_CPD float r) ->
  In p (evidence_of r (fst item)) ->
  dict_get (variable_states float r) p = None ->
  tabular_cpd float CPD TabularCPD r item = Raise KeyError /\
  succeeds (get_model float Model CPD BayesianModel TabularCPD add_cpds r) =
    false.
Proof.
  intros Hr Hitem Hp Hnone.
  assert (Hraise : tabular_cpd float CPD TabularCPD r item = Raise KeyError).
  { rewrite (tabular_cpd_lookups _ _ _ Hr Hitem).
    match goal with
    | |- bind ?m _ = _ => assert (Hm : m = Raise KeyError)
    end.
    { assert (Hfail : succeeds
                        (traverse
                           (fun evidence_var =>
                              s <- dict_item (variable_states float r)
                                             evidence_var ;;
                              Ok (length s))
                           (evidence_of r (fst item))) = false).
      { apply (traverse_fails _ _ p Hp). unfold dict_item.
        rewrite Hnone. reflexivity. }
      destruct (traverse _ (evidence_of r (fst item))) as [cards|e] eqn:Htr;
        [discriminate|].
      apply traverse_raises in Htr as (x & _ & Hx).
      unfold dict_item in Hx.
      destruct (dict_get (variable_states float r) x); simpl in Hx;
        congruence. }
    rewrite Hm. reflexivity. }
  split; [exact Hraise|].
  unfold get_model. destruct (BayesianModel _); simpl; [|reflexivity].
  apply bind_fails. apply (traverse_fails _ _ item Hitem).
  rewrite Hraise. reflexivity.
Qed.
End GetModelFacts.

Lemma get_model_calls_witness :
  exists r,
    reader_of_network decimal parse_decimal (Some sample_network) = Ok r /\
    get_model decimal _ _ sample_BayesianModel sample_TabularCPD
              sample_add_cpds r =
    (model <- sample_BayesianModel (edge_list decimal r) ;;
     cpds <- traverse
               (fun item =>
                  sample_TabularCPD (fst item) (card_of r (fst item))
                                    (snd item) (evidence_of r (fst item))
                                    (map (card_of r)
                                         (evidence_of r (fst item))))
               (variable_CPD decimal r) ;;
     sample_add_cpds model cpds).
Proof.
  eexists. split; [vm_compute; reflexivity|].
  apply (get_model_calls decimal parse_decimal _ _ sample_BayesianModel
           sample_TabularCPD sample_add_cpds sample_network).
  - vm_compute. reflexivity.
  - intros v p Hv Hp. vm_compute in Hv.
    destruct Hv as [<-|[<-|[<-|[]]]]; vm_compute in Hp; vm_compute; tauto.
Defined.

Lemma get_model_undeclared_parent_witness :
  exists r,
    reader_of_network decimal parse_decimal (Some ghost_network) = Ok r /\
    tabular_cpd decimal _ sample_TabularCPD r
                (Some "a", [[mkDecimal 10 1]]) = Raise KeyError /\
    succeeds (get_model decimal _ _ sample_BayesianModel sample_TabularCPD
                        sample_add_cpds r) = false.
Proof.
  eexists. split; [vm_compute; reflexivity|].
  apply (get_model_undeclared_parent decimal parse_decimal _ _
           sample_BayesianModel sample_TabularCPD sample_add_cpds
           ghost_network _ (Some "a", [[mkDecimal 10 1]]) (Some "ghost")).
  - vm_compute. reflexivity.
  - left. reflexivity.
  - left. reflexivity.
  - reflexivity.
Defined.

(** * Further properties of the writer *)

(** ** Which records the writer accepts *)

Lemma entries_ok_iff (vars : list string)
      (entries : dict string (list string)) :
  entries_ok vars entries = true <->
  forall k txts, In (k, txts) entries -> txts <> [] -> In k vars.
Proof.
  unfold entries_ok. rewrite forallb_forall. split.
  - intros H k txts Hin Hne. specialize (H _ Hin). simpl in H.
    destruct txts; [contradiction|]. apply existsb_eqb_In, H.
  - intros H [k txts] Hin. simpl.
    destruct txts as [|t txts]; [reflexivity|].
    apply existsb_eqb_In, (H k (t :: txts) Hin). discriminate.
Qed.

Lemma new_definition_raises (parents : dict string (list string))
      (st : Element * dict string nat) (var : string) (e : exn) :
  new_definition parents st var = Raise e -> e = KeyError.
Proof.
  unfold new_definition. intros H. raise_inv H. congruence.
Qed.

(** X13.  A writer is built exactly from the records that have the keys
    ['variables'], ['states'], ['property'] and ['parents'] and in which every
    key of the states and of the properties with a non-empty list is a
    variable (a key with an empty list may be anything).  Every other record
    raises [KeyError], and nothing else is ever raised. *)
Theorem writer_construction (model : model_data) (encoding : string)
        (prettyprint : bool) :
  ((exists w, XMLBIFWriter_init model encoding prettyprint = Ok w) <->
   exists vars states property parents,
     m_variables model = Some vars /\
     m_states model = Some states /\
     m_property model = Some property /\
     m_parents model = Some parents /\
     (forall k txts, In (k, txts) states -> txts <> [] -> In k vars) /\
     (forall k txts, In (k, txts) property -> txts <> [] -> In k vars)) /\
  (forall e, XMLBIFWriter_init model encoding prettyprint = Raise e ->
             e = KeyError).
Proof.
  split.
  - pose proof (writer_succeeds model encoding prettyprint) as Hs.
    unfold writer_ok in Hs. split.
    + intros (w & Hw). rewrite Hw in Hs. simpl in Hs.
      destruct (m_variables model) as [vars|]; [|discriminate].
      destruct (m_states model) as [states|]; [|discriminate].
      destruct (m_property model) as [property|]; [|discriminate].
      destruct (m_parents model) as [parents|]; [|discriminate].
      symmetry in Hs. apply andb_true_iff in Hs as [H1 H2].
      exists vars, states, property, parents.
      repeat split; try reflexivity; apply entries_ok_iff; assumption.
    + intros (vars & states & property & parents & Hv & Hst & Hpr & Hp
              & H1 & H2).
      rewrite Hv, Hst, Hpr, Hp in Hs.
      apply entries_ok_iff in H1, H2. rewrite H1, H2 in Hs. simpl in Hs.
      destruct (XMLBIFWriter_init model encoding prettyprint) as [w|e];
        [eauto | discriminate].
  - intros e H. unfold XMLBIFWriter_init in H.
    raise_inv H.
    + unfold add_variables in H. raise_inv H; try congruence;
        eapply add_texts_raises; eassumption.
    + unfold add_definition in H. raise_inv H; [congruence|].
      apply foldM_raises in H as (st & var & _ & H).
      eapply new_definition_raises, H.
Qed.

(** ** What the writer leaves out *)

Lemma map_const_repeat {A B : Type} (b : B) (l : list A) :
  map (fun _ => b) l = repeat b (length l).
Proof. induction l as [|x l IH]; simpl; [reflexivity | f_equal; exact IH]. Qed.

Lemma definition_tables_none (network : Element) :
  Forall (fun d => findall d "TABLE" = []) (findall network "DEFINITION") ->
  definition_tables network = [].
Proof.
  unfold definition_tables.
  induction 1 as [|d ds Hd _ IH]; simpl; [reflexivity|].
  rewrite Hd. exact IH.
Qed.

(** X14.  The children of the NETWORK element of a writer are the NAME, if
    the record has a network name, one VARIABLE per item of the variables and
    one DEFINITION per key of the parents, and nothing else.  No DEFINITION
    has a TABLE child: the tables that a reader extracts from this tree are
    none. *)
Theorem writer_writes_no_table (model : model_data) (encoding : string)
        (prettyprint : bool) (w : XMLBIFWriter) :
  XMLBIFWriter_init model encoding prettyprint = Ok w ->
  exists vars parents,
    m_variables model = Some vars /\
    m_parents model = Some parents /\
    map tag (children (w_network w)) =
      name_tags model ++ repeat "VARIABLE" (length vars) ++
      repeat "DEFINITION" (length parents) /\
    Forall (fun d => findall d "TABLE" = [])
           (findall (w_network w) "DEFINITION") /\
    forall (float : Type) (py_float : string -> option float),
      cpd_tables float py_float (w_network w) = Ok [].
Proof.
  intros Hinit.
  destruct (writer_tree _ _ _ _ Hinit)
    as (vars & parents & head & Hv & Hp & Htag & Hch & Htags & _).
  assert (Hdefs : findall (w_network w) "DEFINITION" =
                  map (fun v => definition_element
                                  v (default [] (dict_get parents v)))
                      (sorted (dict_keys parents))).
  { unfold findall. rewrite Hch, List.filter_app.
    rewrite filter_none, filter_all; [reflexivity| |].
    - intros e He. apply in_map_iff in He as (x & <- & _). reflexivity.
    - intros e He. unfold has_tag.
      destruct (head_tags _ _ _ _ Htags He) as [-> | ->]; reflexivity. }
  assert (Hnone : Forall (fun d => findall d "TABLE" = [])
                         (findall (w_network w) "DEFINITION")).
  { rewrite Hdefs. apply Forall_forall. intros d Hd.
    apply list_elem_of_In, in_map_iff in Hd as (v & <- & _).
    unfold findall. simpl. apply filter_none.
    intros c Hc. apply in_map_iff in Hc as (x & <- & _). reflexivity. }
  exists vars, parents.
  split; [exact Hv | split; [exact Hp | split; [|split; [exact Hnone|]]]].
  - rewrite Hch, map_app, Htags, map_map. simpl.
    rewrite !map_const_repeat, !sorted_length.
    unfold dict_keys. rewrite length_map, <- app_assoc. reflexivity.
  - intros float py_float. unfold cpd_tables.
    fold (definition_tables (w_network w)).
    rewrite (definition_tables_none _ Hnone). reflexivity.
Qed.

Lemma writer_writes_no_table_witness :
  exists w vars parents,
    XMLBIFWriter_init sample_model "utf-8" true = Ok w /\
    m_variables sample_model = Some vars /\
    m_parents sample_model = Some parents /\
    map tag (children (w_network w)) =
      name_tags sample_model ++ repeat "VARIABLE" (length vars) ++
      repeat "DEFINITION" (length parents) /\
    Forall (fun d => findall d "TABLE" = [])
           (findall (w_network w) "DEFINITION") /\
    forall (float : Type) (py_float : string -> option float),
      cpd_tables float py_float (w_network w) = Ok [].
Proof.
  eexists.
  destruct (writer_writes_no_table sample_model "utf-8" true _ eq_refl)
    as (vars & parents & H).
  exists vars, parents. split; [vm_compute; reflexivity | exact H].
Defined.

(** ** Reading the parents of a written tree *)

Lemma NoDup_sorted (l : list string) : NoDup l -> NoDup (sorted l).
Proof.
  intros Hnd. rewrite (sorted_Permutation l). exact Hnd.
Qed.

(** X15.  [get_parents] on the NETWORK element of a writer returns, for the
    keys of the record's parents in sorted order, the parents of each key in
    descending order (the writer sorts them, the reader reverses them): a
    rearrangement of the list of the record. *)
Theorem written_parents_read_back (model : model_data) (encoding : string)
        (prettyprint : bool) (w : XMLBIFWriter)
        (parents : dict string (list string)) :
  XMLBIFWriter_init model encoding prettyprint = Ok w ->
  m_parents model = Some parents ->
  NoDup (dict_keys parents) ->
  exists read,
    get_parents (w_network w) = Ok read /\
    dict_keys read = map Some (sorted (dict_keys parents)) /\
    forall v given,
      dict_get parents v = Some given ->
      exists back,
        dict_get read (Some v) = Some (map Some back) /\
        back = rev (sorted given) /\
        Permutation back given.
Proof.
  intros Hinit Hp Hnd.
  destruct (writer_tree _ _ _ _ Hinit)
    as (vars & parents' & head & Hv & Hp' & Htag & Hch & Htags & _).
  rewrite Hp in Hp'. injection Hp' as <-.
  assert (Hdefs : findall (w_network w) "DEFINITION" =
                  map (fun v => definition_element
                                  v (default [] (dict_get parents v)))
                      (sorted (dict_keys parents))).
  { unfold findall. rewrite Hch, List.filter_app.
    rewrite filter_none, filter_all; [reflexivity| |].
    - intros e He. apply in_map_iff in He as (x & <- & _). reflexivity.
    - intros e He. unfold has_tag.
      destruct (head_tags _ _ _ _ Htags He) as [-> | ->]; reflexivity. }
  set (item := fun v : string =>
                 (Some v : name,
                  map Some (rev (sorted (default [] (dict_get parents v))))
                  : list name)).
  assert (Hread : get_parents (w_network w) =
                  Ok (map item (sorted (dict_keys parents)))).
  { rewrite get_parents_Ok.
    - rewrite Hdefs, map_map. f_equal.
      rewrite dict_of_items_distinct.
      + apply map_ext. intros v. unfold parents_item, item.
        rewrite definition_element_given, map_rev. reflexivity.
      + rewrite map_map. simpl.
        apply (NoDup_fmap_2 Some), NoDup_sorted, Hnd.
    - rewrite Hdefs. apply Forall_forall. intros d Hd.
      apply list_elem_of_In, in_map_iff in Hd as (v & <- & _). discriminate. }
  exists (map item (sorted (dict_keys parents))).
  split; [exact Hread | split].
  - unfold dict_keys. rewrite map_map. reflexivity.
  - intros v given Hgiven. exists (rev (sorted given)).
    split; [|split; [reflexivity|]].
    + assert (Hin : In v (sorted (dict_keys parents))).
      { apply sorted_In.
        destruct (decide (v ∈ dict_keys parents)) as [Hin|Hn];
          [apply list_elem_of_In, Hin|].
        rewrite list_elem_of_In in Hn. apply dict_get_None in Hn.
        congruence. }
      assert (Hgen : forall l : list string,
                 In v l ->
                 dict_get (map item l) (Some v) = Some (snd (item v))).
      { induction l as [|x l IH]; simpl; [tauto|].
        intros Hl.
        match goal with
        | |- context [decide ?P] => destruct (decide P) as [Heq|Hne]
        end.
        - injection Heq as <-. reflexivity.
        - apply IH. destruct Hl as [->|Hl]; [contradiction | exact Hl]. }
      rewrite (Hgen _ Hin). unfold item. simpl. rewrite Hgiven. reflexivity.
    + rewrite <- Permutation_rev. apply sorted_Permutation.
Qed.

Lemma written_parents_read_back_witness :
  exists w read,
    XMLBIFWriter_init sample_model "utf-8" true = Ok w /\
    get_parents (w_network w) = Ok read /\
    dict_keys read =
      map Some (sorted (dict_keys [("c", ["b"; "a"]); ("b", []); ("a", [])])) /\
    forall v given,
      dict_get [("c", ["b"; "a"]); ("b", []); ("a", [])] v = Some given ->
      exists back,
        dict_get read (Some v) = Some (map Some back) /\
        back = rev (sorted given) /\
        Permutation back given.
Proof.
  eexists.
  destruct (written_parents_read_back sample_model "utf-8" true _
              [("c", ["b"; "a"]); ("b", []); ("a", [])] eq_refl eq_refl)
    as (read & H).
  - repeat constructor; rewrite ?list_elem_of_In; simpl; intuition discriminate.
  - exists read. split; [vm_compute; reflexivity | exact H].
Defined.

(** * Properties of [indent] *)

Lemma Element_induction (P : Element -> Prop) :
  (forall t a tx tl cs, Forall P cs -> P (mkElement t a tx tl cs)) ->
  forall e, P e.
Proof.
  intros H. fix IH 1. intros [t a tx tl cs]. apply H.
  induction cs as [|c cs IHcs]; constructor; [apply IH | exact IHcs].
Qed.

(** A space or a line feed at the head of a string is white space. *)
Lemma all_space_space (s : string) :
  all_space (String " " s) = all_space s.
Proof. destruct s; reflexivity. Qed.

Lemma all_space_newline (s : string) :
  all_space (newline ++ s)%string = all_space s.
Proof. destruct s; reflexivity. Qed.

Lemma all_space_spaces_app (level : nat) (s : string) :
  all_space (spaces level ++ s)%string = all_space s.
Proof.
  induction level as [|n IH]; [reflexivity|].
  change (spaces (S n) ++ s)%string
    with (String " " (String " " (spaces n ++ s)%string)).
  rewrite !all_space_space. exact IH.
Qed.

Lemma all_space_spaces (level : nat) : all_space (spaces level) = true.
Proof.
  induction level as [|n IH]; [reflexivity|].
  change (spaces (S n)) with (String " " (String " " (spaces n))).
  rewrite !all_space_space. exact IH.
Qed.

Lemma blank_newline (level : nat) :
  blank (Some (newline ++ spaces level)%string) = true.
Proof. unfold blank. rewrite all_space_newline. apply all_space_spaces. Qed.

Lemma blank_newline_more (level : nat) :
  blank (Some ((newline ++ spaces level) ++ "  ")%string) = true.
Proof.
  unfold blank.
  change ((newline ++ spaces level) ++ "  ")%string
    with (newline ++ (spaces level ++ "  "))%string.
  rewrite all_space_newline, all_space_spaces_app. reflexivity.
Qed.

Lemma indent_node (t : string) (a : list (string * string))
      (tx tl : option string) (cs : list Element) (level : nat) :
  cs <> [] ->
  indent (mkElement t a tx tl cs) level =
  mkElement t a
    (if blank tx then Some ((newline ++ spaces level) ++ "  ")%string else tx)
    (if blank tl then Some (newline ++ spaces level)%string else tl)
    (set_last_tail (newline ++ spaces level)%string
                   (map (fun c => indent c (S level)) cs)).
Proof. destruct cs as [|c cs]; [contradiction | reflexivity]. Qed.

Lemma indent_leaf (t : string) (a : list (string * string))
      (tx tl : option string) (level : nat) :
  indent (mkElement t a tx tl []) level =
  if negb (level =? 0)%nat && blank tl
  then mkElement t a tx (Some (newline ++ spaces level)%string) []
  else mkElement t a tx tl [].
Proof. reflexivity. Qed.

Lemma normalize_mk (t : string) (a : list (string * string))
      (tx tl : option string) (cs : list Element) :
  normalize (mkElement t a tx tl cs) =
  mkElement t a (if blank tx then None else tx)
            (if blank tl then None else tl) (map normalize cs).
Proof. reflexivity. Qed.

Lemma blank_if_blank (s new : option string) :
  blank new = true ->
  (if blank (if blank s then new else s) then None
   else (if blank s then new else s)) =
  (if blank s then None else s).
Proof.
  intros Hnew. destruct (blank s) eqn:Hs; [rewrite Hnew | rewrite Hs];
    reflexivity.
Qed.

Lemma normalize_set_tail (c : Element) (s : option string) :
  blank (tail c) = true -> blank s = true ->
  normalize (set_tail c s) = normalize c.
Proof.
  destruct c as [t a tx tl cs]. unfold set_tail. simpl tail. simpl tag.
  simpl attrib. simpl text. simpl children. intros Htl Hs.
  rewrite !normalize_mk, Htl, Hs. reflexivity.
Qed.

Lemma map_normalize_set_last_tail (i : string) (l : list Element) :
  blank (Some i) = true ->
  map normalize (set_last_tail i l) = map normalize l.
Proof.
  intros Hi. induction l as [|c [|c' l] IH]; [reflexivity| |].
  - change (set_last_tail i [c])
      with [if blank (tail c) then set_tail c (Some i) else c].
    destruct (blank (tail c)) eqn:Hc; [|reflexivity].
    change (map normalize [set_tail c (Some i)])
      with [normalize (set_tail c (Some i))].
    rewrite (normalize_set_tail _ _ Hc Hi). reflexivity.
  - change (set_last_tail i (c :: c' :: l))
      with (c :: set_last_tail i (c' :: l)).
    change (map normalize (c :: set_last_tail i (c' :: l)))
      with (normalize c :: map normalize (set_last_tail i (c' :: l))).
    rewrite IH. reflexivity.
Qed.

(** X16.  [indent] changes nothing but texts and tails of white space: the
    tags, the attributes, the children and every text or tail that is not
    blank are those of the tree it is given. *)
Theorem indent_keeps_content (e : Element) :
  forall level, normalize (indent e level) = normalize e.
Proof.
  induction e as [t a tx tl cs IH] using Element_induction. intros level.
  destruct cs as [|c cs].
  - rewrite indent_leaf.
    destruct (negb (level =? 0)%nat && blank tl) eqn:Hc; [|reflexivity].
    apply andb_true_iff in Hc as [_ Htl].
    rewrite !normalize_mk, blank_newline, Htl. reflexivity.
  - rewrite indent_node by discriminate. rewrite !normalize_mk.
    rewrite (blank_if_blank tx _ (blank_newline_more level)).
    rewrite (blank_if_blank tl _ (blank_newline level)).
    f_equal.
    rewrite (map_normalize_set_last_tail _ _ (blank_newline level)).
    rewrite map_map. apply map_ext_in. intros x Hx.
    rewrite Forall_forall in IH. apply IH, list_elem_of_In, Hx.
Qed.

Lemma set_last_tail_cons (i : string) (x : Element) (l : list Element) :
  l <> [] -> set_last_tail i (x :: l) = x :: set_last_tail i l.
Proof. destruct l; [contradiction | reflexivity]. Qed.

Lemma set_last_tail_nonempty (i : string) (l : list Element) :
  l <> [] -> set_last_tail i l <> [].
Proof. destruct l as [|x [|y l]]; [contradiction | discriminate..]. Qed.

Lemma map_nonempty {A B : Type} (f : A -> B) (l : list A) :
  l <> [] -> map f l <> [].
Proof. destruct l; [contradiction | discriminate]. Qed.

(** The tail that [indent] leaves below the root. *)
Lemma indent_tail (x : Element) (level : nat) :
  tail (indent x (S level)) =
  if blank (tail x) then Some (newline ++ spaces (S level))%string else tail x.
Proof.
  destruct x as [t a tx tl [|c cs]].
  - rewrite indent_leaf. simpl negb. simpl andb.
    destruct (blank tl) eqn:Htl; simpl; rewrite ?Htl; reflexivity.
  - rewrite indent_node by discriminate. reflexivity.
Qed.

(** [indent] looks at the tail of an element only to set it. *)
Lemma indent_set_tail (x : Element) (s : option string) (level : nat) :
  indent (set_tail x s) (S level) =
  set_tail (indent x (S level))
           (if blank s then Some (newline ++ spaces (S level))%string else s).
Proof.
  destruct x as [t a tx tl [|c cs]]; unfold set_tail at 1; simpl tag;
    simpl attrib; simpl text; simpl children.
  - rewrite !indent_leaf. simpl negb. simpl andb.
    destruct (blank s), (blank tl); reflexivity.
  - rewrite !indent_node by discriminate. reflexivity.
Qed.

Lemma set_tail_same (x : Element) : set_tail x (tail x) = x.
Proof. destruct x; reflexivity. Qed.

Lemma indent_children_twice (i : string) (level : nat) (l : list Element) :
  blank (Some i) = true ->
  Forall (fun c => indent (indent c (S level)) (S level) =
                   indent c (S level)) l ->
  set_last_tail i
    (map (fun c => indent c (S level))
         (set_last_tail i (map (fun c => indent c (S level)) l))) =
  set_last_tail i (map (fun c => indent c (S level)) l).
Proof.
  intros Hi. induction l as [|c l IH]; intros Hl; [reflexivity|].
  apply Forall_cons in Hl as [Hc Hl].
  destruct l as [|c' l].
  - change (map (fun c0 => indent c0 (S level)) [c])
      with [indent c (S level)].
    set (x := indent c (S level)) in *.
    change (set_last_tail i [x])
      with [if blank (tail x) then set_tail x (Some i) else x].
    destruct (blank (tail x)) eqn:Hx.
    + change (map (fun c0 => indent c0 (S level)) [set_tail x (Some i)])
        with [indent (set_tail x (Some i)) (S level)].
      rewrite indent_set_tail, Hi, Hc.
      change (set_last_tail i [set_tail x (Some (newline ++ spaces (S level))%string)])
        with [if blank (tail (set_tail x (Some (newline ++ spaces (S level))%string)))
              then set_tail (set_tail x (Some (newline ++ spaces (S level))%string))
                            (Some i)
              else set_tail x (Some (newline ++ spaces (S level))%string)].
      assert (Hb : blank (tail (set_tail x (Some (newline ++ spaces (S level))%string)))
                   = true) by apply (blank_newline (S level)).
      rewrite Hb. reflexivity.
    + change (map (fun c0 => indent c0 (S level)) [x])
        with [indent x (S level)].
      rewrite Hc.
      change (set_last_tail i [x])
        with [if blank (tail x) then set_tail x (Some i) else x].
      rewrite Hx. reflexivity.
  - change (map (fun c0 => indent c0 (S level)) (c :: c' :: l))
      with (indent c (S level) :: map (fun c0 => indent c0 (S level)) (c' :: l)).
    assert (Hne : map (fun c0 => indent c0 (S level)) (c' :: l) <> [])
      by discriminate.
    rewrite (set_last_tail_cons _ _ _ Hne).
    change (map (fun c0 => indent c0 (S level))
                (indent c (S level)
                 :: set_last_tail i
                      (map (fun c0 => indent c0 (S level)) (c' :: l))))
      with (indent (indent c (S level)) (S level)
            :: map (fun c0 => indent c0 (S level))
                   (set_last_tail i
                      (map (fun c0 => indent c0 (S level)) (c' :: l)))).
    rewrite set_last_tail_cons
      by (apply map_nonempty, set_last_tail_nonempty, Hne).
    rewrite Hc, (IH Hl). reflexivity.
Qed.

(** X17.  [indent] is idempotent: on a tree that it has indented it changes
    nothing, so that calling [__str__] again serializes the same tree. *)
Theorem indent_idempotent (e : Element) :
  forall level, indent (indent e level) level = indent e level.
Proof.
  induction e as [t a tx tl cs IH] using Element_induction. intros level.
  destruct cs as [|c cs].
  - rewrite indent_leaf.
    destruct (negb (level =? 0)%nat && blank tl) eqn:Hc.
    + rewrite indent_leaf.
      match goal with
      | |- (if ?c then _ else _) = _ => destruct c
      end; reflexivity.
    + rewrite indent_leaf, Hc. reflexivity.
  - rewrite indent_node by discriminate.
    rewrite indent_node
      by (apply set_last_tail_nonempty, map_nonempty; discriminate).
    f_equal.
    + destruct (blank tx) eqn:Htx; [rewrite blank_newline_more | rewrite Htx];
        reflexivity.
    + destruct (blank tl) eqn:Htl; [rewrite blank_newline | rewrite Htl];
        reflexivity.
    + apply indent_children_twice; [apply blank_newline|].
      eapply Forall_impl; [exact IH|]. intros x Hx. apply Hx.
Qed.

(** ** Reading an indented tree *)

Lemma find_tag_texts (t : string) (l l' : list Element) :
  map (fun g => (tag g, text g)) l = map (fun g => (tag g, text g)) l' ->
  option_map text (List.find (has_tag t) l) =
    option_map text (List.find (has_tag t) l') /\
  map text (List.filter (has_tag t) l) = map text (List.filter (has_tag t) l').
Proof.
  revert l'. induction l as [|x l IH]; intros [|y l'] H; simpl in H.
  - split; reflexivity.
  - discriminate.
  - discriminate.
  - injection H as Htag Htext Hrest.
    destruct (IH _ Hrest) as [Hfind Hfilter].
    assert (Hy : has_tag t y = has_tag t x)
      by (unfold has_tag; rewrite Htag; reflexivity).
    simpl. rewrite Hy. destruct (has_tag t x); simpl.
    + split; [congruence | rewrite Htext, Hfilter; reflexivity].
    + split; assumption.
Qed.

Lemma same_data_text_of (t : string) (c c' : Element) :
  same_data c c' -> text_of (find c t) = text_of (find c' t).
Proof.
  intros [_ H]. destruct (find_tag_texts t _ _ H) as [Hfind _].
  unfold find. destruct (List.find _ (children c)), (List.find _ (children c'));
    simpl in *; congruence.
Qed.

Lemma same_data_texts (t : string) (c c' : Element) :
  same_data c c' -> map text (findall c t) = map text (findall c' t).
Proof. intros [_ H]. apply (find_tag_texts t _ _ H). Qed.

Lemma same_data_filter (t : string) (l l' : list Element) :
  Forall2 same_data l l' ->
  Forall2 same_data (List.filter (has_tag t) l) (List.filter (has_tag t) l').
Proof.
  induction 1 as [|x y l l' Hxy _ IH]; simpl; [constructor|].
  assert (Hy : has_tag t y = has_tag t x)
    by (unfold has_tag; rewrite (proj1 Hxy); reflexivity).
  rewrite Hy. destruct (has_tag t x); [constructor; assumption | exact IH].
Qed.

Lemma traverse_Forall2 {A B : Type} (R : A -> A -> Prop) (f : A -> result B)
      (l l' : list A) :
  (forall x y, R x y -> f x = f y) -> Forall2 R l l' ->
  traverse f l = traverse f l'.
Proof.
  intros Hf. induction 1 as [|x y l l' Hxy _ IH]; simpl; [reflexivity|].
  rewrite (Hf _ _ Hxy), IH. reflexivity.
Qed.

Lemma Forall2_map_texts (ts ts' : list Element) :
  map text ts = map text ts' ->
  Forall2 (fun t t' => text t = text t') ts ts'.
Proof.
  revert ts'. induction ts as [|t ts IH]; intros [|t' ts'] H; simpl in H.
  - constructor.
  - discriminate.
  - discriminate.
  - injection H as Ht Hrest. constructor; [exact Ht | apply IH, Hrest].
Qed.

Lemma definition_tables_Forall2 (l l' : list Element) :
  Forall2 same_data l l' ->
  Forall2 (fun dt dt' : Element * Element =>
             text_of (find (fst dt) "FOR") = text_of (find (fst dt') "FOR") /\
             text (snd dt) = text (snd dt'))
          (flat_map (fun d => map (pair d) (findall d "TABLE")) l)
          (flat_map (fun d => map (pair d) (findall d "TABLE")) l').
Proof.
  induction 1 as [|d d' l l' Hd _ IH]; simpl; [constructor|].
  apply Forall2_app; [|exact IH].
  pose proof (Forall2_map_texts _ _ (same_data_texts "TABLE" _ _ Hd)) as Hts.
  induction Hts as [|t t' ts ts' Ht _ IHts]; simpl; constructor.
  - simpl. split; [apply same_data_text_of, Hd | exact Ht].
  - exact IHts.
Qed.

Section ReadSameData.
Context (float : Type) (py_float : string -> option float).

(** The extraction depends on the tags of the children of the network and
    on the tags and texts of their children only. *)
Lemma same_data_extraction (network network' : Element) :
  Forall2 same_data (children network) (children network') ->
  get_variables network' = get_variables network /\
  get_states network' = get_states network /\
  get_parents network' = get_parents network /\
  get_property network' = get_property network /\
  forall states,
    get_cpd float py_float network' states =
    get_cpd float py_float network states.
Proof.
  intros H.
  assert (Hf : forall t, Forall2 same_data (findall network t)
                                 (findall network' t))
    by (intros t; apply same_data_filter, H).
  assert (Hitem : forall t (x y : Element),
             same_data x y ->
             (key <- text_of (find x "NAME") ;;
              Ok (key, map text (findall x t))) =
             (key <- text_of (find y "NAME") ;;
              Ok (key, map text (findall y t)))).
  { intros t x y Hxy.
    rewrite (same_data_text_of "NAME" _ _ Hxy), (same_data_texts t _ _ Hxy).
    reflexivity. }
  repeat split.
  - unfold get_variables. symmetry.
    apply (traverse_Forall2 same_data); [|apply Hf].
    intros x y Hxy. apply same_data_text_of, Hxy.
  - unfold get_states. f_equal. symmetry.
    apply (traverse_Forall2 same_data); [apply Hitem | apply Hf].
  - unfold get_parents. f_equal. symmetry.
    apply (traverse_Forall2 same_data); [|apply Hf].
    intros x y Hxy.
    rewrite (same_data_text_of "FOR" _ _ Hxy),
      (same_data_texts "GIVEN" _ _ Hxy). reflexivity.
  - unfold get_property. f_equal. symmetry.
    apply (traverse_Forall2 same_data); [apply Hitem | apply Hf].
  - intros states. unfold get_cpd, cpd_tables. f_equal. f_equal. symmetry.
    eapply traverse_Forall2; [|apply definition_tables_Forall2, Hf].
    intros [d t] [d' t'] [Hd Ht]. simpl in *. rewrite Hd, Ht. reflexivity.
Qed.
End ReadSameData.

Lemma indent_leaf_text (g : Element) (level : nat) :
  children g = [] ->
  (tag (indent g level), text (indent g level)) = (tag g, text g).
Proof.
  destruct g as [t a tx tl cs]. simpl children. intros ->.
  rewrite indent_leaf.
  destruct (negb (level =? 0)%nat && blank tl); reflexivity.
Qed.

Lemma indent_same_data (c : Element) (level : nat) :
  Forall (fun g => children g = []) (children c) ->
  same_data c (indent c level).
Proof.
  intros Hleaves. split; [symmetry; apply indent_tag|].
  unfold tag_texts. rewrite indent_children.
  rewrite (map_set_last_tail (fun g => (tag g, text g))) by reflexivity.
  rewrite map_map. apply map_ext_in. intros g Hg. symmetry.
  apply indent_leaf_text. rewrite Forall_forall in Hleaves.
  apply Hleaves, list_elem_of_In, Hg.
Qed.

Lemma same_data_set_last_tail (i : string) (l l' : list Element) :
  Forall2 same_data l l' -> Forall2 same_data l (set_last_tail i l').
Proof.
  induction 1 as [|x y l l' Hxy Hl IH]; [constructor|].
  destruct l' as [|y' l'].
  - inversion Hl; subst.
    change (set_last_tail i [y])
      with [if blank (tail y) then set_tail y (Some i) else y].
    constructor; [|constructor].
    destruct (blank (tail y)); [|exact Hxy].
    destruct Hxy as [Ht Htt]. split; [exact Ht | exact Htt].
  - rewrite set_last_tail_cons by discriminate.
    constructor; [exact Hxy | exact IH].
Qed.

Lemma indent_children_same_data (network : Element) (level : nat) :
  text_leaves network ->
  Forall2 same_data (children network) (children (indent network level)).
Proof.
  intros Hleaves. rewrite indent_children.
  apply same_data_set_last_tail.
  unfold text_leaves in Hleaves.
  induction Hleaves as [|c cs Hc _ IH]; simpl; constructor;
    [apply indent_same_data, Hc | exact IH].
Qed.

(** X18.  Indenting does not change what the reader extracts from a
    NETWORK element whose VARIABLE and DEFINITION elements hold text-only
    children: the variables, states, parents, properties and tables of the
    indented element are those of the element, errors included. *)
Theorem indent_transparent (float : Type) (py_float : string -> option float)
        (network : Element) (level : nat) :
  text_leaves network ->
  get_variables (indent network level) = get_variables network /\
  get_states (indent network level) = get_states network /\
  get_parents (indent network level) = get_parents network /\
  get_property (indent network level) = get_property network /\
  forall states,
    get_cpd float py_float (indent network level) states =
    get_cpd float py_float network states.
Proof.
  intros Hleaves. apply same_data_extraction.
  apply indent_children_same_data, Hleaves.
Qed.

Lemma indent_transparent_witness :
  get_variables (indent sample_network 1) = get_variables sample_network /\
  get_states (indent sample_network 1) = get_states sample_network /\
  get_parents (indent sample_network 1) = get_parents sample_network /\
  get_property (indent sample_network 1) = get_property sample_network /\
  forall states,
    get_cpd decimal parse_decimal (indent sample_network 1) states =
    get_cpd decimal parse_decimal sample_network states.
Proof.
  apply (indent_transparent decimal parse_decimal sample_network 1).
  repeat constructor.
Defined.

(** ** The order of the serialized tree *)

Lemma SubElement_at_text_leaves (network : Element) (ref : nat)
      (t txt : string) :
  text_leaves network -> text_leaves (SubElement_at network ref t txt).
Proof.
  intros Hn. unfold text_leaves, SubElement_at. simpl.
  apply Forall_alter; [exact Hn|].
  intros e _ He. simpl. apply Forall_app. split; [exact He|].
  constructor; [reflexivity | constructor].
Qed.

Lemma add_variables_text_leaves (model : model_data) (network net : Element)
      (variable_tag : dict string nat) :
  add_variables model network = Ok (net, variable_tag) ->
  text_leaves network -> text_leaves net.
Proof.
  intros Hadd Hleaves. unfold add_variables in Hadd.
  apply bind_Ok in Hadd as (vars & _ & Hadd).
  apply bind_Ok in Hadd as (states & _ & Hadd).
  apply bind_Ok in Hadd as (net1 & Hout & Hadd).
  apply bind_Ok in Hadd as (property & _ & Hadd).
  apply bind_Ok in Hadd as (net2 & Hprop & Hadd).
  injection Hadd as <- <-.
  destruct (new_variables_spec vars network) as (Hnet & _ & _).
  assert (H0 : text_leaves (fst (new_variables vars network))).
  { rewrite Hnet. unfold text_leaves. simpl.
    apply Forall_app. split; [exact Hleaves|].
    apply Forall_forall. intros e He.
    apply list_elem_of_In, in_map_iff in He as (x & <- & _). constructor. }
  assert (H1 : text_leaves net1).
  { apply (add_texts_invariant text_leaves _ "OUTCOME" _ _ _
             (fun n ref txt => SubElement_at_text_leaves n ref "OUTCOME" txt)
             H0 Hout). }
  apply (add_texts_invariant text_leaves _ "PROPERTY" _ _ _
           (fun n ref txt => SubElement_at_text_leaves n ref "PROPERTY" txt)
           H1 Hprop).
Qed.

(** The children of the children of the NETWORK element of a writer hold
    text only. *)
Lemma writer_text_leaves (model : model_data) (encoding : string)
      (prettyprint : bool) (w : XMLBIFWriter) :
  XMLBIFWriter_init model encoding prettyprint = Ok w ->
  text_leaves (w_network w).
Proof.
  intros Hinit. unfold XMLBIFWriter_init in Hinit.
  apply bind_Ok in Hinit as ([net vt] & Hvars & Hinit).
  apply bind_Ok in Hinit as ([net' dt] & Hdefs & Hinit).
  injection Hinit as <-. simpl in *.
  destruct (m_parents model) as [parents|] eqn:Hp;
    [|unfold add_definition in Hdefs; rewrite Hp in Hdefs; discriminate].
  destruct (add_definition_Ok model net parents Hp) as (dt' & Hdefs').
  rewrite Hdefs' in Hdefs. injection Hdefs as <- <-.
  assert (Hnet : text_leaves net).
  { apply (add_variables_text_leaves _ _ _ _ Hvars).
    unfold text_leaves.
    destruct (m_network_name model); simpl; repeat constructor. }
  unfold text_leaves. simpl. apply Forall_app. split; [exact Hnet|].
  apply Forall_forall. intros e He.
  apply list_elem_of_In, in_map_iff in He as (v & <- & _).
  simpl. constructor; [reflexivity|].
  apply Forall_forall. intros c Hc.
  apply list_elem_of_In, in_map_iff in Hc as (x & <- & _). reflexivity.
Qed.

Lemma same_data_refl (l : list Element) : Forall2 same_data l l.
Proof. induction l; constructor; [split; reflexivity | assumption]. Qed.

(** The NETWORK element of the tree that is serialized holds the data of
    the NETWORK element that the writer built. *)
Lemma str_tree_network_data (w : XMLBIFWriter) :
  tag (w_network w) = "NETWORK" ->
  text_leaves (w_network w) ->
  exists n, find (str_tree w) "NETWORK" = Some n /\
            Forall2 same_data (children (w_network w)) (children n).
Proof.
  intros Htag Hleaves. unfold str_tree. destruct (w_prettyprint w).
  - unfold w_xml. simpl. unfold find. simpl.
    destruct (blank (tail (indent (w_network w) 1))); unfold has_tag; simpl;
      rewrite indent_tag, Htag; simpl; eexists; (split; [reflexivity|]).
    + simpl. apply indent_children_same_data, Hleaves.
    + apply indent_children_same_data, Hleaves.
  - unfold w_xml, find. simpl. unfold has_tag. rewrite Htag. simpl.
    eexists. split; [reflexivity | apply same_data_refl].
Qed.

Lemma same_data_for_text (d d' : Element) :
  same_data d d' -> for_text d' = for_text d.
Proof.
  intros [_ H]. destruct (find_tag_texts "FOR" _ _ H) as [Hfind _].
  unfold for_text, find.
  destruct (List.find _ (children d)), (List.find _ (children d'));
    simpl in *; congruence.
Qed.

Lemma Forall2_Forall_r {A : Type} (R : A -> A -> Prop) (P Q : A -> Prop)
      (l l' : list A) :
  (forall x y, R x y -> P x -> Q y) ->
  Forall2 R l l' -> Forall P l -> Forall Q l'.
Proof.
  intros HPQ. induction 1 as [|x y l l' Hxy _ IH]; intros HP;
    [constructor|].
  apply Forall_cons in HP as [Hx Hl].
  constructor; [apply (HPQ x y Hxy Hx) | apply IH, Hl].
Qed.

(** The order of a NETWORK element is that of its data. *)
Lemma ordered_network_same_data (model : model_data) (w : XMLBIFWriter)
      (n n' : Element) :
  Forall2 same_data (children n) (children n') ->
  ordered_network model w n -> ordered_network model w n'.
Proof.
  intros Hdata (vars & parents & Hv & Hp & Hkeys & Hvar & Hlt & Hcontent
                & fors & Hfors & Hsorted & Hperm & Hgiven).
  assert (Hlookup : forall i e,
             children n !! i = Some e ->
             exists e', children n' !! i = Some e' /\ same_data e e').
  { intros i e He. apply (Forall2_lookup_l _ _ _ _ _ Hdata He). }
  assert (Hdefs : Forall2 same_data (findall n "DEFINITION")
                          (findall n' "DEFINITION"))
    by apply same_data_filter, Hdata.
  exists vars, parents.
  split; [exact Hv | split; [exact Hp | split; [exact Hkeys|]]].
  split; [|split; [exact Hlt | split]].
  - intros v i Hget. destruct (Hvar v i Hget) as (e & He & Ht).
    destruct (Hlookup i e He) as (e' & He' & [Htag _]).
    exists e'. split; [exact He' | congruence].
  - intros states property v i Hst Hpr Hnds Hndp Hget.
    destruct (Hcontent states property v i Hst Hpr Hnds Hndp Hget)
      as (e & He & Htexts).
    destruct (Hlookup i e He) as (e' & He' & [_ Htt]).
    exists e'. split; [exact He' | congruence].
  - exists fors. split; [|split; [exact Hsorted | split; [exact Hperm|]]].
    + rewrite <- Hfors. clear -Hdefs.
      induction Hdefs as [|d d' l l' Hd _ IH]; simpl; [reflexivity|].
      rewrite (same_data_for_text _ _ Hd), IH. reflexivity.
    + refine (Forall2_Forall_r same_data _ _ _ _ _ Hdefs Hgiven).
      intros d d' Hd (v & given & gs & Hfor & Hget & Hgs & Hs & Hpm).
      exists v, given, gs.
      rewrite (same_data_for_text _ _ Hd),
        <- (same_data_texts "GIVEN" _ _ Hd).
      repeat split; assumption.
Qed.

(** C8.  The tree that [__str__] serializes is in canonical order: the
    VARIABLE and the DEFINITION elements of its NETWORK element follow the
    sorted variable names and the GIVEN children of a DEFINITION the sorted
    parents, whatever the order in the record is, with and without pretty
    printing. *)
Theorem writer_canonical_order (model : model_data) (encoding : string)
        (prettyprint : bool) (w : XMLBIFWriter) :
  XMLBIFWriter_init model encoding prettyprint = Ok w ->
  canonical_order model w.
Proof.
  intros Hinit.
  destruct (writer_tree _ _ _ _ Hinit) as (_ & _ & _ & _ & _ & Htag & _).
  destruct (str_tree_network_data w Htag (writer_text_leaves _ _ _ _ Hinit))
    as (n & Hn & Hdata).
  exists n. split; [exact Hn|].
  apply (ordered_network_same_data model w (w_network w) n Hdata).
  eapply writer_network_order, Hinit.
Qed.

(** The variables [b], [a], [c] are written as [a], [b], [c]. *)
Lemma writer_canonical_order_witness :
  exists w network,
    XMLBIFWriter_init sample_model "utf-8" true = Ok w /\
    find (str_tree w) "NETWORK" = Some network /\
    w_variables w = [("a", 1); ("b", 2); ("c", 3)] /\
    map tag (children network) =
      ["NAME"; "VARIABLE"; "VARIABLE"; "VARIABLE";
       "DEFINITION"; "DEFINITION"; "DEFINITION"] /\
    map for_text (findall network "DEFINITION") =
      [Some "a"; Some "b"; Some "c"] /\
    canonical_order sample_model w.
Proof.
  eexists. eexists. split; [vm_compute; reflexivity|].
  split; [vm_compute; reflexivity|].
  split; [reflexivity | split; [reflexivity | split; [reflexivity|]]].
  eapply (writer_canonical_order sample_model "utf-8" true).
  vm_compute. reflexivity.
Defined.
